(** * BoomBuddies client: the presentation engine of the Bomberman game

    A shallow embedding of the client-side scene orchestrator ([Game]) and
    of the tile layer ([TileMap]), together with the properties of their
    reconciliation, animation, camera, screen-shake and input code.

    Conventions of the embedding.
    - A JavaScript [number] that holds a coordinate, a scale, a phase or an
      intensity is a real number ([R]); the rounding of IEEE doubles is not
      modelled.  Timestamps ([Date.now()]) and the bounce clock, which only
      ever hold integers, are in [Z].  Array indices are in [Z] as well.
    - A [Map<string, _>] is a [gmap string _], a [Set<string>] a
      [gset string].
    - Every method of a class takes the object as its last argument and
      returns the updated object.  [Date.now()] is an explicit argument.
    - A PixiJS display object is reduced to the four properties the code
      assigns: position and scale. *)

From Stdlib Require Import ZArith Reals Lra Lia Ascii.
From stdpp Require Import gmap strings list fin_maps pretty.

Local Open Scope Z_scope.

(** ** constants.ts *)

Module GAME_CONFIG.
Definition GRID_WIDTH : Z := 19.
Definition GRID_HEIGHT : Z := 15.
Definition TILE_SIZE : Z := 40.
Definition BOMB_TIMER : Z := 3000.
Definition EXPLOSION_DURATION : Z := 500.
Definition MIN_PLAYERS : Z := 2.
Definition MAX_PLAYERS : Z := 8.
End GAME_CONFIG.

Module TILE.
Definition EMPTY : Z := 0.
Definition HARD_WALL : Z := 1.
Definition SOFT_BLOCK : Z := 2.
End TILE.

Module GAME_PHASE.
Definition WAITING : string := "lobby".
Definition COUNTDOWN : string := "countdown".
Definition PLAYING : string := "playing".
Definition ENDED : string := "ended".
End GAME_PHASE.

Module DIRECTION.
Definition NONE : Z := 0.
Definition UP : Z := 1.
Definition DOWN : Z := 2.
Definition LEFT : Z := 3.
Definition RIGHT : Z := 4.
End DIRECTION.

Record Point : Type := mkPoint { px : R; py : R }.

(** [gridToPixel]: the centre of a grid cell, in pixels. *)
Definition gridToPixel (gridX gridY : R) : Point :=
  {| px := (gridX * IZR GAME_CONFIG.TILE_SIZE + IZR GAME_CONFIG.TILE_SIZE / 2)%R;
     py := (gridY * IZR GAME_CONFIG.TILE_SIZE + IZR GAME_CONFIG.TILE_SIZE / 2)%R |}.

(** ** TileMap.ts *)

Module TileMap.

Record t : Type := mk { tiles : list Z }.

Definition create : t := {| tiles := [] |}.

Definition setTiles (ts : list Z) (_ : t) : t := {| tiles := ts |}.

(** [this.tiles[i] ?? TILE.EMPTY], as [render] reads a cell. *)
Definition tileAt (m : t) (i : Z) : Z :=
  if 0 <=? i then default TILE.EMPTY (tiles m !! Z.to_nat i) else TILE.EMPTY.

(** The guard of [updateTile] is on the row-major index only. *)
Definition updateTile (gridX gridY tileType : Z) (m : t) : t :=
  let index := gridY * GAME_CONFIG.GRID_WIDTH + gridX in
  if (0 <=? index) && (index <? Z.of_nat (length (tiles m)))
  then {| tiles := <[Z.to_nat index := tileType]> (tiles m) |}
  else m.

(** The cell rectangle [[0, GRID_WIDTH) x [0, GRID_HEIGHT)]. *)
Definition inGrid (gridX gridY : Z) : bool :=
  (0 <=? gridX) && (gridX <? GAME_CONFIG.GRID_WIDTH)
  && (0 <=? gridY) && (gridY <? GAME_CONFIG.GRID_HEIGHT).

(** A full arena of empty cells. *)
Definition emptyArena : t :=
  {| tiles := replicate (Z.to_nat (GAME_CONFIG.GRID_WIDTH * GAME_CONFIG.GRID_HEIGHT))
                        TILE.EMPTY |}.

End TileMap.

(** ** types.ts: the authoritative records of a snapshot *)

(** [BombermanPlayer], with the fields the scene reads. *)
Module Player.
Record t : Type := mk {
  socketId : string;
  name : string;
  gridX : R;
  gridY : R;
  alive : bool;
  color : Z;
  stunnedUntil : Z
}.
End Player.

Module BombData.
Record t : Type := mk {
  id : string;
  ownerId : string;
  gridX : R;
  gridY : R;
  range : Z;
  timer : R;
  isMoving : bool;
  moveDir : Z;
  isFlying : bool;
  flyDir : Z;
  targetX : R;
  targetY : R;
  isPiercing : bool;
  isPunched : bool
}.
End BombData.

Module ExplosionData.
Record t : Type := mk {
  id : string;
  gridX : R;
  gridY : R;
  timer : R
}.
End ExplosionData.

(** [BombermanGameData]: the three sub-collections are optional, since the
    scene reads them as [lobby.gameData?.tiles] and so on. *)
Module GameData.
Record t : Type := mk {
  tiles : option (list Z);
  bombs : option (list BombData.t);
  explosions : option (list ExplosionData.t)
}.
End GameData.

Module Lobby.
Record t : Type := mk {
  players : list Player.t;
  state : string;
  gameData : option GameData.t;
  mySocketId : option string
}.
End Lobby.

(** ** JavaScript helpers *)

#[global] Instance Rlt_decision : RelDecision Rlt := Rlt_dec.
#[global] Instance Rle_decision : RelDecision Rle := Rle_dec.
#[global] Instance Rgt_decision : RelDecision Rgt := Rgt_dec.
#[global] Instance Rge_decision : RelDecision Rge := Rge_dec.
#[global] Instance Req_decision : EqDecision R := Req_dec_T.

(** Truthiness of a string: the empty string is falsy. *)
Definition truthy (s : string) : bool :=
  match s with EmptyString => false | String _ _ => true end.

(** [a || b] on numbers: [0] is falsy. *)
Definition numOr (a b : R) : R := if decide (a = 0%R) then b else a.

(** ** Game.ts: sprites *)

(** A PixiJS container or graphics object. *)
Module Display.
Record t : Type := mk { x : R; y : R; scaleX : R; scaleY : R }.
Definition create : t := {| x := 0; y := 0; scaleX := 1; scaleY := 1 |}.
Definition set_x (v : R) (d : t) : t :=
  {| x := v; y := y d; scaleX := scaleX d; scaleY := scaleY d |}.
Definition set_y (v : R) (d : t) : t :=
  {| x := x d; y := v; scaleX := scaleX d; scaleY := scaleY d |}.
Definition set_scaleX (v : R) (d : t) : t :=
  {| x := x d; y := y d; scaleX := v; scaleY := scaleY d |}.
Definition set_scaleY (v : R) (d : t) : t :=
  {| x := x d; y := y d; scaleX := scaleX d; scaleY := v |}.
Definition set_scale (vx vy : R) (d : t) : t :=
  {| x := x d; y := y d; scaleX := vx; scaleY := vy |}.
End Display.

Module PlayerSprite.
Record t : Type := mk {
  container : Display.t;
  targetX : R;
  targetY : R;
  data : Player.t;
  deathTime : Z;
  lastX : R;
  lastY : R;
  movePhase : Z
}.
Definition set_container (f : Display.t -> Display.t) (s : t) : t :=
  mk (f (container s)) (targetX s) (targetY s) (data s) (deathTime s)
     (lastX s) (lastY s) (movePhase s).
Definition set_target (p : Point) (s : t) : t :=
  mk (container s) (px p) (py p) (data s) (deathTime s)
     (lastX s) (lastY s) (movePhase s).
Definition set_data (d : Player.t) (s : t) : t :=
  mk (container s) (targetX s) (targetY s) d (deathTime s)
     (lastX s) (lastY s) (movePhase s).
Definition set_deathTime (v : Z) (s : t) : t :=
  mk (container s) (targetX s) (targetY s) (data s) v
     (lastX s) (lastY s) (movePhase s).
Definition set_move (lx ly : R) (phase : Z) (s : t) : t :=
  mk (container s) (targetX s) (targetY s) (data s) (deathTime s) lx ly phase.
End PlayerSprite.

Inductive Axis : Type := AxisX | AxisY.

Module BombSprite.
Record t : Type := mk {
  graphics : Display.t;
  pulsePhase : R;
  targetX : R;
  targetY : R;
  data : BombData.t;
  bounceTime : Z;
  wrapBouncePhase : R;
  wrapBounceDir : option Axis;
  prevTargetX : R;
  prevTargetY : R
}.
Definition set_graphics (f : Display.t -> Display.t) (s : t) : t :=
  mk (f (graphics s)) (pulsePhase s) (targetX s) (targetY s) (data s) (bounceTime s)
     (wrapBouncePhase s) (wrapBounceDir s) (prevTargetX s) (prevTargetY s).
Definition set_pulsePhase (v : R) (s : t) : t :=
  mk (graphics s) v (targetX s) (targetY s) (data s) (bounceTime s)
     (wrapBouncePhase s) (wrapBounceDir s) (prevTargetX s) (prevTargetY s).
Definition set_target (p : Point) (s : t) : t :=
  mk (graphics s) (pulsePhase s) (px p) (py p) (data s) (bounceTime s)
     (wrapBouncePhase s) (wrapBounceDir s) (prevTargetX s) (prevTargetY s).
Definition set_data (d : BombData.t) (s : t) : t :=
  mk (graphics s) (pulsePhase s) (targetX s) (targetY s) d (bounceTime s)
     (wrapBouncePhase s) (wrapBounceDir s) (prevTargetX s) (prevTargetY s).
Definition set_bounceTime (v : Z) (s : t) : t :=
  mk (graphics s) (pulsePhase s) (targetX s) (targetY s) (data s) v
     (wrapBouncePhase s) (wrapBounceDir s) (prevTargetX s) (prevTargetY s).
Definition set_wrapBouncePhase (v : R) (s : t) : t :=
  mk (graphics s) (pulsePhase s) (targetX s) (targetY s) (data s) (bounceTime s)
     v (wrapBounceDir s) (prevTargetX s) (prevTargetY s).
Definition set_wrapBounceDir (v : option Axis) (s : t) : t :=
  mk (graphics s) (pulsePhase s) (targetX s) (targetY s) (data s) (bounceTime s)
     (wrapBouncePhase s) v (prevTargetX s) (prevTargetY s).
Definition set_prevTarget (vx vy : R) (s : t) : t :=
  mk (graphics s) (pulsePhase s) (targetX s) (targetY s) (data s) (bounceTime s)
     (wrapBouncePhase s) (wrapBounceDir s) vx vy.
End BombSprite.

Module ExplosionSprite.
Record t : Type := mk {
  graphics : Display.t;
  createdAt : Z;
  gridX : R;
  gridY : R
}.
End ExplosionSprite.

(** The outbound intents of [GameCallbacks]. *)
Inductive Intent : Type :=
  | onMove (direction : Z)
  | onBomb
  | onThrow
  | onStart.

(** What the scene reads from the host page each frame: the client size of
    its container (absent when [appContainer] is null) and the window's
    inner size. *)
Module Viewport.
Record t : Type := mk {
  clientWidth : option R;
  clientHeight : option R;
  innerWidth : R;
  innerHeight : R
}.
(** [this.appContainer?.clientWidth || window.innerWidth] *)
Definition containerWidth (v : t) : R :=
  match clientWidth v with Some w => numOr w (innerWidth v) | None => innerWidth v end.
Definition containerHeight (v : t) : R :=
  match clientHeight v with Some h => numOr h (innerHeight v) | None => innerHeight v end.
End Viewport.

(** ** Game.ts: the scene orchestrator *)

Module Game.

(** The fields of the class that the modelled methods read or write.
    [callbacks] tells whether [setCallbacks] has installed the outbound
    collaborator; [sent] is the trace of the intents handed to it, oldest
    first.  The HUD text objects are left out: [updateGameStateUI] and
    [animateCountdown] write nothing else. *)
Record t : Type := mk {
  tileMap : TileMap.t;
  callbacks : bool;
  worldContainer : Display.t;
  playerSprites : gmap string PlayerSprite.t;
  bombSprites : gmap string BombSprite.t;
  explosionSprites : gmap string ExplosionSprite.t;
  cameraX : R;
  cameraY : R;
  mySocketId : option string;
  currentLobby : option Lobby.t;
  keysHeld : gset string;
  lastMoveTime : Z;
  initialized : bool;
  shakeIntensity : R;
  globalTime : Z;
  sent : list Intent
}.

Definition set_tileMap (v : TileMap.t) (g : t) : t :=
  mk v (callbacks g) (worldContainer g) (playerSprites g) (bombSprites g)
     (explosionSprites g) (cameraX g) (cameraY g) (mySocketId g) (currentLobby g)
     (keysHeld g) (lastMoveTime g) (initialized g) (shakeIntensity g) (globalTime g)
     (sent g).
Definition set_callbacks (v : bool) (g : t) : t :=
  mk (tileMap g) v (worldContainer g) (playerSprites g) (bombSprites g)
     (explosionSprites g) (cameraX g) (cameraY g) (mySocketId g) (currentLobby g)
     (keysHeld g) (lastMoveTime g) (initialized g) (shakeIntensity g) (globalTime g)
     (sent g).
Definition set_worldContainer (v : Display.t) (g : t) : t :=
  mk (tileMap g) (callbacks g) v (playerSprites g) (bombSprites g)
     (explosionSprites g) (cameraX g) (cameraY g) (mySocketId g) (currentLobby g)
     (keysHeld g) (lastMoveTime g) (initialized g) (shakeIntensity g) (globalTime g)
     (sent g).
Definition set_playerSprites (v : gmap string PlayerSprite.t) (g : t) : t :=
  mk (tileMap g) (callbacks g) (worldContainer g) v (bombSprites g)
     (explosionSprites g) (cameraX g) (cameraY g) (mySocketId g) (currentLobby g)
     (keysHeld g) (lastMoveTime g) (initialized g) (shakeIntensity g) (globalTime g)
     (sent g).
Definition set_bombSprites (v : gmap string BombSprite.t) (g : t) : t :=
  mk (tileMap g) (callbacks g) (worldContainer g) (playerSprites g) v
     (explosionSprites g) (cameraX g) (cameraY g) (mySocketId g) (currentLobby g)
     (keysHeld g) (lastMoveTime g) (initialized g) (shakeIntensity g) (globalTime g)
     (sent g).
Definition set_explosionSprites (v : gmap string ExplosionSprite.t) (g : t) : t :=
  mk (tileMap g) (callbacks g) (worldContainer g) (playerSprites g) (bombSprites g) v
     (cameraX g) (cameraY g) (mySocketId g) (currentLobby g) (keysHeld g)
     (lastMoveTime g) (initialized g) (shakeIntensity g) (globalTime g) (sent g).
Definition set_cameraX (v : R) (g : t) : t :=
  mk (tileMap g) (callbacks g) (worldContainer g) (playerSprites g) (bombSprites g)
     (explosionSprites g) v (cameraY g) (mySocketId g) (currentLobby g) (keysHeld g)
     (lastMoveTime g) (initialized g) (shakeIntensity g) (globalTime g) (sent g).
Definition set_cameraY (v : R) (g : t) : t :=
  mk (tileMap g) (callbacks g) (worldContainer g) (playerSprites g) (bombSprites g)
     (explosionSprites g) (cameraX g) v (mySocketId g) (currentLobby g) (keysHeld g)
     (lastMoveTime g) (initialized g) (shakeIntensity g) (globalTime g) (sent g).
Definition set_mySocketId (v : option string) (g : t) : t :=
  mk (tileMap g) (callbacks g) (worldContainer g) (playerSprites g) (bombSprites g)
     (explosionSprites g) (cameraX g) (cameraY g) v (currentLobby g) (keysHeld g)
     (lastMoveTime g) (initialized g) (shakeIntensity g) (globalTime g) (sent g).
Definition set_currentLobby (v : option Lobby.t) (g : t) : t :=
  mk (tileMap g) (callbacks g) (worldContainer g) (playerSprites g) (bombSprites g)
     (explosionSprites g) (cameraX g) (cameraY g) (mySocketId g) v (keysHeld g)
     (lastMoveTime g) (initialized g) (shakeIntensity g) (globalTime g) (sent g).
Definition set_keysHeld (v : gset string) (g : t) : t :=
  mk (tileMap g) (callbacks g) (worldContainer g) (playerSprites g) (bombSprites g)
     (explosionSprites g) (cameraX g) (cameraY g) (mySocketId g) (currentLobby g) v
     (lastMoveTime g) (initialized g) (shakeIntensity g) (globalTime g) (sent g).
Definition set_lastMoveTime (v : Z) (g : t) : t :=
  mk (tileMap g) (callbacks g) (worldContainer g) (playerSprites g) (bombSprites g)
     (explosionSprites g) (cameraX g) (cameraY g) (mySocketId g) (currentLobby g)
     (keysHeld g) v (initialized g) (shakeIntensity g) (globalTime g) (sent g).
Definition set_initialized (v : bool) (g : t) : t :=
  mk (tileMap g) (callbacks g) (worldContainer g) (playerSprites g) (bombSprites g)
     (explosionSprites g) (cameraX g) (cameraY g) (mySocketId g) (currentLobby g)
     (keysHeld g) (lastMoveTime g) v (shakeIntensity g) (globalTime g) (sent g).
Definition set_shakeIntensity (v : R) (g : t) : t :=
  mk (tileMap g) (callbacks g) (worldContainer g) (playerSprites g) (bombSprites g)
     (explosionSprites g) (cameraX g) (cameraY g) (mySocketId g) (currentLobby g)
     (keysHeld g) (lastMoveTime g) (initialized g) v (globalTime g) (sent g).
Definition set_globalTime (v : Z) (g : t) : t :=
  mk (tileMap g) (callbacks g) (worldContainer g) (playerSprites g) (bombSprites g)
     (explosionSprites g) (cameraX g) (cameraY g) (mySocketId g) (currentLobby g)
     (keysHeld g) (lastMoveTime g) (initialized g) (shakeIntensity g) v (sent g).
Definition set_sent (v : list Intent) (g : t) : t :=
  mk (tileMap g) (callbacks g) (worldContainer g) (playerSprites g) (bombSprites g)
     (explosionSprites g) (cameraX g) (cameraY g) (mySocketId g) (currentLobby g)
     (keysHeld g) (lastMoveTime g) (initialized g) (shakeIntensity g) (globalTime g) v.

Definition moveRepeatDelay : Z := 120.
Definition shakeDecay : R := 0.85.

(** The object right after [new Game()]. *)
Definition create : t :=
  {| tileMap := TileMap.create; callbacks := false; worldContainer := Display.create;
     playerSprites := ∅; bombSprites := ∅; explosionSprites := ∅;
     cameraX := 0; cameraY := 0; mySocketId := None; currentLobby := None;
     keysHeld := ∅; lastMoveTime := 0; initialized := false;
     shakeIntensity := 0; globalTime := 0; sent := [] |}.

Definition init (g : t) : t :=
  if initialized g then g else set_initialized true g.

Definition setCallbacks (g : t) : t := set_callbacks true g.

(** [this.callbacks?.onX?.(...)]: the intent is dropped when no callbacks
    are installed. *)
Definition emit (i : Intent) (g : t) : t :=
  if callbacks g then set_sent (sent g ++ [i]) g else g.

Definition lerp (a b t : R) : R := (a + (b - a) * t)%R.

(** *** Players *)

Definition addPlayer (data : Player.t) (g : t) : t :=
  let pos := gridToPixel (Player.gridX data) (Player.gridY data) in
  let container := Display.set_y (py pos) (Display.set_x (px pos) Display.create) in
  set_playerSprites
    (<[Player.socketId data :=
         {| PlayerSprite.container := container;
            PlayerSprite.targetX := px pos;
            PlayerSprite.targetY := py pos;
            PlayerSprite.data := data;
            PlayerSprite.deathTime := 0;
            PlayerSprite.lastX := px pos;
            PlayerSprite.lastY := py pos;
            PlayerSprite.movePhase := 0 |}]> (playerSprites g)) g.

(** The body of [updatePlayer] once the sprite has been found. *)
Definition updatePlayerSprite (now globalTime : Z) (data : Player.t)
    (sprite : PlayerSprite.t) : PlayerSprite.t :=
  let wasDead := negb (Player.alive (PlayerSprite.data sprite)) in
  let justDied := negb (Player.alive data) && negb wasDead in
  let sprite := if justDied then PlayerSprite.set_deathTime now sprite else sprite in
  let pos := gridToPixel (Player.gridX data) (Player.gridY data) in
  let sprite :=
    if decide (px pos <> PlayerSprite.targetX sprite \/ py pos <> PlayerSprite.targetY sprite)
    then PlayerSprite.set_move (PlayerSprite.targetX sprite) (PlayerSprite.targetY sprite)
           globalTime sprite
    else sprite in
  PlayerSprite.set_target pos (PlayerSprite.set_data data sprite).

Definition updatePlayer (now : Z) (data : Player.t) (g : t) : t :=
  match playerSprites g !! Player.socketId data with
  | None => g
  | Some sprite =>
      set_playerSprites
        (<[Player.socketId data := updatePlayerSprite now (globalTime g) data sprite]>
           (playerSprites g)) g
  end.

Definition removePlayer (id : string) (g : t) : t :=
  match playerSprites g !! id with
  | Some _ => set_playerSprites (delete id (playerSprites g)) g
  | None => g
  end.

Definition syncPlayers (now : Z) (players : list Player.t) (g : t) : t :=
  let currentIds : gset string := list_to_set (Player.socketId <$> players) in
  let g :=
    foldl (fun g id => if decide (id ∈ currentIds) then g else removePlayer id g)
          g (map_to_list (playerSprites g)).*1 in
  foldl (fun g player =>
           if decide (is_Some (playerSprites g !! Player.socketId player))
           then updatePlayer now player g
           else addPlayer player g)
        g players.

(** *** Bombs *)

Definition addBomb (data : BombData.t) (g : t) : t :=
  let pos := gridToPixel (BombData.gridX data) (BombData.gridY data) in
  let graphics := Display.set_y (py pos) (Display.set_x (px pos) Display.create) in
  set_bombSprites
    (<[BombData.id data :=
         {| BombSprite.graphics := graphics;
            BombSprite.pulsePhase := 0;
            BombSprite.targetX := px pos;
            BombSprite.targetY := py pos;
            BombSprite.data := data;
            BombSprite.bounceTime := 0;
            BombSprite.wrapBouncePhase := 0;
            BombSprite.wrapBounceDir := None;
            BombSprite.prevTargetX := px pos;
            BombSprite.prevTargetY := py pos |}]> (bombSprites g)) g.

(** The body of [updateBomb] once the sprite has been found. *)
Definition updateBombSprite (data : BombData.t) (sprite : BombSprite.t) : BombSprite.t :=
  let sprite := BombSprite.set_data data sprite in
  let urgency := (1 - BombData.timer data / IZR GAME_CONFIG.BOMB_TIMER)%R in
  let sprite := BombSprite.set_pulsePhase urgency sprite in
  let pos := gridToPixel (BombData.gridX data) (BombData.gridY data) in
  let sprite :=
    if BombData.isFlying data && bool_decide (BombSprite.wrapBouncePhase sprite = 0%R) then
      let deltaX := Rabs (BombSprite.targetX sprite - px pos) in
      let deltaY := Rabs (BombSprite.targetY sprite - py pos) in
      let wrapThreshold := (IZR GAME_CONFIG.TILE_SIZE * 5)%R in
      if decide (deltaX > wrapThreshold)%R then
        BombSprite.set_wrapBounceDir (Some AxisX)
          (BombSprite.set_wrapBouncePhase 0.01%R sprite)
      else if decide (deltaY > wrapThreshold)%R then
        BombSprite.set_wrapBounceDir (Some AxisY)
          (BombSprite.set_wrapBouncePhase 0.01%R sprite)
      else sprite
    else sprite in
  let sprite :=
    BombSprite.set_prevTarget (BombSprite.targetX sprite) (BombSprite.targetY sprite)
      sprite in
  BombSprite.set_target pos sprite.

Definition updateBomb (data : BombData.t) (g : t) : t :=
  match bombSprites g !! BombData.id data with
  | None => g
  | Some sprite =>
      set_bombSprites
        (<[BombData.id data := updateBombSprite data sprite]> (bombSprites g)) g
  end.

Definition removeBomb (id : string) (g : t) : t :=
  match bombSprites g !! id with
  | Some _ => set_bombSprites (delete id (bombSprites g)) g
  | None => g
  end.

Definition syncBombs (bombs : list BombData.t) (g : t) : t :=
  let currentIds : gset string := list_to_set (BombData.id <$> bombs) in
  let g :=
    foldl (fun g id => if decide (id ∈ currentIds) then g else removeBomb id g)
          g (map_to_list (bombSprites g)).*1 in
  foldl (fun g bomb =>
           if decide (is_Some (bombSprites g !! BombData.id bomb))
           then updateBomb bomb g
           else addBomb bomb g)
        g bombs.

(** *** Explosions and screen shake *)

Definition triggerExplosionShake (explosionX explosionY : R) (g : t) : t :=
  match mySocketId g with
  | None => g
  | Some me =>
      if negb (truthy me) then g else
      match playerSprites g !! me with
      | None => g
      | Some localSprite =>
          let dx := (Player.gridX (PlayerSprite.data localSprite) - explosionX)%R in
          let dy := (Player.gridY (PlayerSprite.data localSprite) - explosionY)%R in
          let distance := sqrt (dx * dx + dy * dy) in
          let maxDistance := 6%R in
          if decide (distance < maxDistance)%R then
            let intensity := ((1 - distance / maxDistance) * 12)%R in
            set_shakeIntensity (Rmax (shakeIntensity g) intensity) g
          else g
      end
  end.

Definition addExplosion (now : Z) (data : ExplosionData.t) (g : t) : t :=
  let pos := gridToPixel (ExplosionData.gridX data) (ExplosionData.gridY data) in
  let graphics := Display.set_y (py pos) (Display.set_x (px pos) Display.create) in
  let g :=
    set_explosionSprites
      (<[ExplosionData.id data :=
           {| ExplosionSprite.graphics := graphics;
              ExplosionSprite.createdAt := now;
              ExplosionSprite.gridX := ExplosionData.gridX data;
              ExplosionSprite.gridY := ExplosionData.gridY data |}]>
         (explosionSprites g)) g in
  triggerExplosionShake (ExplosionData.gridX data) (ExplosionData.gridY data) g.

Definition removeExplosion (id : string) (g : t) : t :=
  match explosionSprites g !! id with
  | Some _ => set_explosionSprites (delete id (explosionSprites g)) g
  | None => g
  end.

(** Unlike its two siblings, [syncExplosions] has no update branch. *)
Definition syncExplosions (now : Z) (explosions : list ExplosionData.t) (g : t) : t :=
  let currentIds : gset string := list_to_set (ExplosionData.id <$> explosions) in
  let g :=
    foldl (fun g id => if decide (id ∈ currentIds) then g else removeExplosion id g)
          g (map_to_list (explosionSprites g)).*1 in
  foldl (fun g explosion =>
           if decide (is_Some (explosionSprites g !! ExplosionData.id explosion))
           then g
           else addExplosion now explosion g)
        g explosions.

(** *** Reconciliation *)

Definition updateFromLobby (now : Z) (lobby : Lobby.t) (g : t) : t :=
  if negb (initialized g) then g else
  let g := set_currentLobby (Some lobby) g in
  let g := set_mySocketId (Lobby.mySocketId lobby) g in
  let g :=
    match Lobby.gameData lobby ≫= GameData.tiles with
    | Some tiles => set_tileMap (TileMap.setTiles tiles (tileMap g)) g
    | None => g
    end in
  let g := syncPlayers now (Lobby.players lobby) g in
  let g :=
    match Lobby.gameData lobby ≫= GameData.bombs with
    | Some bombs => syncBombs bombs g
    | None => g
    end in
  let g :=
    match Lobby.gameData lobby ≫= GameData.explosions with
    | Some explosions => syncExplosions now explosions g
    | None => g
    end in
  g.

(** *** The frame tick *)

Definition processHeldKeys (now : Z) (g : t) : t :=
  if negb (bool_decide (Lobby.state <$> currentLobby g = Some GAME_PHASE.PLAYING)) then g
  else if now - lastMoveTime g <? moveRepeatDelay then g
  else
    let has (k : string) := bool_decide (k ∈ keysHeld g) in
    let direction : option Z :=
      if has "ArrowUp" || has "KeyW" then Some DIRECTION.UP
      else if has "ArrowDown" || has "KeyS" then Some DIRECTION.DOWN
      else if has "ArrowLeft" || has "KeyA" then Some DIRECTION.LEFT
      else if has "ArrowRight" || has "KeyD" then Some DIRECTION.RIGHT
      else None in
    match direction with
    | Some d => if callbacks g then set_lastMoveTime now (emit (onMove d) g) else g
    | None => g
    end.

(** One frame of a player sprite: the position eases toward the target. *)
Definition animatePlayer (sprite : PlayerSprite.t) : PlayerSprite.t :=
  PlayerSprite.set_container
    (fun c =>
       let c := Display.set_x (lerp (Display.x c) (PlayerSprite.targetX sprite) 0.25) c in
       Display.set_y (lerp (Display.y c) (PlayerSprite.targetY sprite) 0.25) c)
    sprite.

(** [bounceTime += 16], for a flying bomb. *)
Definition advanceBounce (sprite : BombSprite.t) : BombSprite.t :=
  BombSprite.set_bounceTime (BombSprite.bounceTime sprite + 16) sprite.

Definition bounceOffsetOf (sprite : BombSprite.t) : R :=
  let bouncePhase := (IZR (Z.rem (BombSprite.bounceTime sprite) 150) / 150)%R in
  (sin (bouncePhase * PI) * -20)%R.

(** One frame of a bomb sprite: the body of the [bombSprites.forEach] of
    [update], up to the drawing call. *)
Definition animateBomb (sprite : BombSprite.t) : BombSprite.t :=
  if bool_decide (BombSprite.wrapBouncePhase sprite > 0
                  /\ BombSprite.wrapBouncePhase sprite < 2)%R then
    let sprite :=
      BombSprite.set_wrapBouncePhase (BombSprite.wrapBouncePhase sprite + 0.08)%R sprite in
    let phase := BombSprite.wrapBouncePhase sprite in
    let sprite :=
      if decide (phase < 1)%R then
        let t := phase in
        let squash := (1 - sin (t * PI) * 0.4)%R in
        match BombSprite.wrapBounceDir sprite with
        | Some AxisX =>
            BombSprite.set_graphics
              (Display.set_scale squash (1 + (1 - squash) * 0.3)%R) sprite
        | _ =>
            BombSprite.set_graphics
              (Display.set_scale (1 + (1 - squash) * 0.3)%R squash) sprite
        end
      else
        let sprite :=
          if bool_decide (phase >= 1 /\ phase < 1.08)%R then
            BombSprite.set_graphics
              (fun d => Display.set_y (BombSprite.targetY sprite)
                          (Display.set_x (BombSprite.targetX sprite) d)) sprite
          else sprite in
        let t := (phase - 1)%R in
        let stretch := (1 + sin (t * PI) * 0.3)%R in
        match BombSprite.wrapBounceDir sprite with
        | Some AxisX =>
            BombSprite.set_graphics
              (Display.set_scale stretch (1 - (stretch - 1) * 0.3)%R) sprite
        | _ =>
            BombSprite.set_graphics
              (Display.set_scale (1 - (stretch - 1) * 0.3)%R stretch) sprite
        end in
    let sprite :=
      if decide (phase >= 2)%R then
        BombSprite.set_graphics (Display.set_scale 1 1)
          (BombSprite.set_wrapBounceDir None
             (BombSprite.set_wrapBouncePhase 0%R sprite))
      else sprite in
    if BombData.isFlying (BombSprite.data sprite) then advanceBounce sprite else sprite
  else
    let lerpSpeed : R :=
      if BombData.isFlying (BombSprite.data sprite) then 0.35%R
      else if BombData.isMoving (BombSprite.data sprite) then 0.3%R else 0.25%R in
    let sprite :=
      BombSprite.set_graphics
        (fun d => Display.set_x (lerp (Display.x d) (BombSprite.targetX sprite) lerpSpeed) d)
        sprite in
    let sprite :=
      if BombData.isFlying (BombSprite.data sprite) then advanceBounce sprite
      else BombSprite.set_bounceTime 0 sprite in
    let bounceOffset :=
      if BombData.isFlying (BombSprite.data sprite) then bounceOffsetOf sprite else 0%R in
    BombSprite.set_graphics
      (fun d => Display.set_y
                  (lerp (Display.y d) (BombSprite.targetY sprite + bounceOffset) lerpSpeed) d)
      sprite.

(** [this.mySocketId ? this.playerSprites.get(this.mySocketId) : null] *)
Definition localSprite (g : t) : option PlayerSprite.t :=
  match mySocketId g with
  | Some me => if truthy me then playerSprites g !! me else None
  | None => None
  end.

(** The scroll target that [updateCamera] computes, axis by axis. *)
Definition cameraTargetX (vp : Viewport.t) (g : t) : R :=
  let containerWidth := Viewport.containerWidth vp in
  let worldWidth := (IZR GAME_CONFIG.GRID_WIDTH * IZR GAME_CONFIG.TILE_SIZE)%R in
  if decide (worldWidth <= containerWidth)%R then ((containerWidth - worldWidth) / 2)%R
  else
    match localSprite g with
    | Some localSprite =>
        let targetX :=
          (- Display.x (PlayerSprite.container localSprite) + containerWidth / 2)%R in
        let maxX := 0%R in
        let minX := (- worldWidth + containerWidth)%R in
        Rmin maxX (Rmax minX targetX)
    | None => 0%R
    end.

Definition cameraTargetY (vp : Viewport.t) (g : t) : R :=
  let containerHeight := Viewport.containerHeight vp in
  let worldHeight := (IZR GAME_CONFIG.GRID_HEIGHT * IZR GAME_CONFIG.TILE_SIZE)%R in
  if decide (worldHeight <= containerHeight)%R then 0%R
  else
    match localSprite g with
    | Some localSprite =>
        let targetY :=
          (- Display.y (PlayerSprite.container localSprite) + containerHeight / 2)%R in
        let maxY := 0%R in
        let minY := (- worldHeight + containerHeight)%R in
        Rmin maxY (Rmax minY targetY)
    | None => 0%R
    end.

Definition updateCamera (vp : Viewport.t) (g : t) : t :=
  let g := set_cameraX (lerp (cameraX g) (cameraTargetX vp g) 0.1) g in
  let g := set_cameraY (lerp (cameraY g) (cameraTargetY vp g) 0.1) g in
  set_worldContainer
    (Display.set_y (cameraY g) (Display.set_x (cameraX g) (worldContainer g))) g.

(** The decay of the shake; [rx] and [ry] are the two draws of
    [Math.random()]. *)
Definition applyShake (rx ry : R) (g : t) : t :=
  if decide (shakeIntensity g > 0.5)%R then
    let w := worldContainer g in
    let w := Display.set_x (Display.x w + (rx - 0.5) * shakeIntensity g)%R w in
    let w := Display.set_y (Display.y w + (ry - 0.5) * shakeIntensity g)%R w in
    let g := set_worldContainer w g in
    let g := set_shakeIntensity (shakeIntensity g * shakeDecay)%R g in
    if decide (shakeIntensity g < 0.5)%R then set_shakeIntensity 0%R g else g
  else g.

Definition update (now : Z) (vp : Viewport.t) (rx ry : R) (g : t) : t :=
  let g := set_globalTime now g in
  let g := processHeldKeys now g in
  let g := set_playerSprites (animatePlayer <$> playerSprites g) g in
  let g := set_bombSprites (animateBomb <$> bombSprites g) g in
  let g := updateCamera vp g in
  applyShake rx ry g.

(** *** Keyboard *)

Definition handleKeyDown (code : string) (shiftKey : bool) (now : Z) (g : t) : t :=
  let g := set_keysHeld ({[code]} ∪ keysHeld g) g in
  if negb (bool_decide (Lobby.state <$> currentLobby g = Some GAME_PHASE.PLAYING)) then
    if bool_decide (code = "Enter") && shiftKey
       && bool_decide (Lobby.state <$> currentLobby g = Some GAME_PHASE.WAITING)
    then emit onStart g
    else g
  else
    let g := if bool_decide (code = "Space") then emit onBomb g else g in
    let g := if bool_decide (code = "KeyE") then emit onThrow g else g in
    if bool_decide (size (keysHeld g) = 1%nat) then
      let pressed (k : string) := bool_decide (code = k) in
      let direction : option Z :=
        if pressed "ArrowUp" || pressed "KeyW" then Some DIRECTION.UP
        else if pressed "ArrowDown" || pressed "KeyS" then Some DIRECTION.DOWN
        else if pressed "ArrowLeft" || pressed "KeyA" then Some DIRECTION.LEFT
        else if pressed "ArrowRight" || pressed "KeyD" then Some DIRECTION.RIGHT
        else None in
      match direction with
      | Some d => if callbacks g then set_lastMoveTime now (emit (onMove d) g) else g
      | None => g
      end
    else g.

Definition handleKeyUp (code : string) (g : t) : t :=
  set_keysHeld (keysHeld g ∖ {[code]}) g.

Definition destroy (g : t) : t :=
  let g := set_keysHeld ∅ g in
  let g := set_playerSprites ∅ g in
  let g := set_bombSprites ∅ g in
  let g := set_explosionSprites ∅ g in
  set_initialized false g.

End Game.

(** ** Vocabulary of the properties *)

(** The distance, in cells, that [triggerExplosionShake] measures between
    the local player's sprite and an explosion. *)
Definition gridDistance (localSprite : PlayerSprite.t) (explosionX explosionY : R) : R :=
  let dx := (Player.gridX (PlayerSprite.data localSprite) - explosionX)%R in
  let dy := (Player.gridY (PlayerSprite.data localSprite) - explosionY)%R in
  sqrt (dx * dx + dy * dy).

(** A snapshot that lists the player [id] once, as dead, among players
    with distinct ids. *)
Definition reportsDead (id : string) (lobby : Lobby.t) : Prop :=
  NoDup (Player.socketId <$> Lobby.players lobby)
  /\ exists p, p ∈ Lobby.players lobby /\ Player.socketId p = id /\ Player.alive p = false.

(** The scene after a run of reconciliations, each with its own clock
    reading. *)
Definition reconcileAll (snapshots : list (Z * Lobby.t)) (g : Game.t) : Game.t :=
  foldl (fun g tl => Game.updateFromLobby tl.1 tl.2 g) g snapshots.



(** What the host page delivers to the scene: keyboard events forwarded by
    the React wrapper (auto-repeat included, the wrapper filters nothing)
    and frame ticks.  Of a frame only [processHeldKeys] matters to the
    input state. *)
Inductive HostEvent : Type :=
  | KeyDown (code : string) (shiftKey : bool)
  | KeyUp (code : string)
  | Frame.

Definition deliver (g : Game.t) (te : Z * HostEvent) : Game.t :=
  match te.2 with
  | KeyDown code shiftKey => Game.handleKeyDown code shiftKey te.1 g
  | KeyUp code => Game.handleKeyUp code g
  | Frame => Game.processHeldKeys te.1 g
  end.

Definition deliverAll (events : list (Z * HostEvent)) (g : Game.t) : Game.t :=
  foldl deliver g events.

(** ** Sample snapshots and scenes *)

Module Sample.

Definition alice : Player.t := Player.mk "alice" "Alice" 1 1 true 16729156 0.
Definition bob : Player.t := Player.mk "bob" "Bob" 17 13 true 4521796 0.
Definition carolAt (gridX gridY : R) : Player.t :=
  Player.mk "carol" "Carol" gridX gridY true 4474111 0.
Definition carol : Player.t := carolAt 1 13.

Definition bombAt (gridX gridY : R) (isFlying : bool) : BombData.t :=
  BombData.mk "bomb-1" "alice" gridX gridY 2 3000 false 0 isFlying 0 0 0 false false.

Definition blastAt (gridX gridY timer : R) : ExplosionData.t :=
  ExplosionData.mk "blast-1" gridX gridY timer.

Definition snapshot (players : list Player.t) (state : string)
    (bombs : list BombData.t) (explosions : list ExplosionData.t)
    (me : option string) : Lobby.t :=
  Lobby.mk players state (Some (GameData.mk None (Some bombs) (Some explosions))) me.

(** An initialised scene with callbacks installed and nothing on it. *)
Definition emptyScene : Game.t := Game.setCallbacks (Game.init Game.create).

(** A bomb sprite on which the wrap bounce has just been triggered. *)
Definition triggeredBomb : BombSprite.t :=
  BombSprite.mk (Display.mk 20 140 1 1) 0 740 140 (bombAt 18 3 true) 0
    0.01 (Some AxisX) 20 140.

(** A scene on which alice is the local player, facing bob. *)
Definition aliceScene : Game.t :=
  Game.updateFromLobby 1000
    (snapshot [alice; bob] GAME_PHASE.PLAYING [] [] (Some "alice")) emptyScene.

(** The snapshot that reports alice dead. *)
Definition aliceDead : Player.t := Player.mk "alice" "Alice" 1 1 false 16729156 0.
Definition aliceDown : Lobby.t :=
  snapshot [aliceDead; bob] GAME_PHASE.PLAYING [] [] (Some "alice").

(** The sprite of alice on that scene. *)
Definition aliceSprite : PlayerSprite.t :=
  PlayerSprite.mk
    (Display.mk (px (gridToPixel 1 1)) (py (gridToPixel 1 1)) 1 1)
    (px (gridToPixel 1 1)) (py (gridToPixel 1 1)) alice 0
    (px (gridToPixel 1 1)) (py (gridToPixel 1 1)) 0.

(** A viewport smaller than the 760 x 600 world, and one that holds it. *)
Definition phone : Viewport.t := Viewport.mk (Some 400%R) (Some 300%R) 1920 1080.
Definition desktop : Viewport.t := Viewport.mk (Some 1280%R) (Some 720%R) 1920 1080.

(** A scene that shows carol, a bomb and a blast. *)
Definition carolScene : Game.t :=
  Game.updateFromLobby 1000
    (snapshot [carol] GAME_PHASE.PLAYING [bombAt 3 3 false] [blastAt 1 1 500] None)
    emptyScene.

(** The next snapshot: carol has left, alice and bob have joined, the bomb
    is gone and the blast is reported one cell further on both axes. *)
Definition nextSnapshot : Lobby.t :=
  snapshot [alice; bob] GAME_PHASE.PLAYING [] [blastAt 2 2 300] None.

(** A scene whose local player stands in the middle of the arena. *)
Definition followScene : Game.t :=
  Game.updateFromLobby 1000
    (snapshot [carolAt 9 7] GAME_PHASE.PLAYING [] [] (Some "carol")) emptyScene.

End Sample.

(** ** Further code of the scene: frames in sequence *)

(** The getters [GAME_CONFIG.ARENA_WIDTH] and [GAME_CONFIG.ARENA_HEIGHT]. *)
Definition ARENA_WIDTH : Z := GAME_CONFIG.GRID_WIDTH * GAME_CONFIG.TILE_SIZE.
Definition ARENA_HEIGHT : Z := GAME_CONFIG.GRID_HEIGHT * GAME_CONFIG.TILE_SIZE.

(** What one call of [update] reads from its environment: the clock, the
    viewport and the two draws of [Math.random()]. *)
Record FrameInput : Type := mkFrame {
  frameNow : Z;
  frameViewport : Viewport.t;
  frameRx : R;
  frameRy : R
}.

Definition runFrame (g : Game.t) (f : FrameInput) : Game.t :=
  Game.update (frameNow f) (frameViewport f) (frameRx f) (frameRy f) g.

Definition runFrames (frames : list FrameInput) (g : Game.t) : Game.t :=
  foldl runFrame g frames.

(** The key codes that [processHeldKeys] and [handleKeyDown] read as
    movement. *)
Definition movementKeys : list string :=
  ["ArrowUp"; "KeyW"; "ArrowDown"; "KeyS"; "ArrowLeft"; "KeyA"; "ArrowRight"; "KeyD"].

(** ** Game.ts: what the frame computes for the drawing calls *)

(** The values that [update] and [drawPlayer] derive for a player sprite
    before they issue drawing calls. *)
Module PlayerDraw.

(** [deathProgress], as [update] computes it for [drawPlayer]. *)
Definition deathProgress (now : Z) (sprite : PlayerSprite.t) : R :=
  if negb (Player.alive (PlayerSprite.data sprite)) && (0 <? PlayerSprite.deathTime sprite)
  then
    let deathDuration := 1500%R in
    Rmin (IZR (now - PlayerSprite.deathTime sprite) / deathDuration) 1
  else 0%R.

(** [isStunned]: a level condition on the clock. *)
Definition isStunned (now : Z) (sprite : PlayerSprite.t) : bool :=
  now <? Player.stunnedUntil (PlayerSprite.data sprite).

(** The ghost of a dead player. *)
Definition shadowScale (alive : bool) (deathProgress : R) : R :=
  if alive then 1%R else (1 - deathProgress * 0.5)%R.
Definition floatY (deathProgress : R) : R := (- deathProgress * 40)%R.
Definition ghostAlpha (deathProgress : R) : R := Rmax 0 (1 - deathProgress).
Definition ghostScale (deathProgress : R) : R := (1 - deathProgress * 0.3)%R.

(** The squash and stretch of a living player that has just moved. *)
Definition squashStretch (globalTime movePhase : Z) : R :=
  let moveDelta := globalTime - movePhase in
  if moveDelta <? 200 then (sin (IZR moveDelta / 200 * PI) * 0.15)%R else 0%R.
Definition scaleX (globalTime movePhase : Z) : R := (1 - squashStretch globalTime movePhase)%R.
Definition scaleY (globalTime movePhase : Z) : R := (1 + squashStretch globalTime movePhase)%R.

(** The body colour: a stunned player flashes yellow,
    [isStunned && Math.floor(Date.now() / 80) % 2 === 0 ? 0xffff00 : color]. *)
Definition effectiveColor (now : Z) (isStunned : bool) (color : Z) : Z :=
  if isStunned && (Z.rem (now / 80) 2 =? 0) then 16776960 else color.

End PlayerDraw.

(** The values that [drawExplosion] derives from the age of an explosion. *)
Module ExplosionDraw.

Definition maxAge : R := 500.

Definition age (now : Z) (sprite : ExplosionSprite.t) : R :=
  IZR (now - ExplosionSprite.createdAt sprite).

Definition phase (age : R) : R := Rmin (age / maxAge) 1.

Definition expansionPhase (phase : R) : R :=
  if decide (phase < 0.2)%R then (phase / 0.2)%R else 1%R.
Definition shrinkPhase (phase : R) : R :=
  if decide (phase > 0.7)%R then ((phase - 0.7) / 0.3)%R else 0%R.
Definition sizeMultiplier (phase : R) : R :=
  (expansionPhase phase * (1 - shrinkPhase phase * 0.5))%R.
Definition alpha (phase : R) : R :=
  if decide (phase > 0.6)%R then (1 - (phase - 0.6) / 0.4)%R else 1%R.

(** Whether the shockwave ring and the white flash are drawn, and how many
    flame particles. *)
Definition drawsRing (phase : R) : bool := bool_decide (phase < 0.4)%R.
Definition drawsFlash (phase : R) : bool := bool_decide (phase < 0.15)%R.
Definition particleCount (phase : R) : Z := if decide (phase < 0.5)%R then 5 else 3.

End ExplosionDraw.

(** ** Game.ts: the heads-up display *)

Module GAME_MODE.
Definition LAST_MAN_STANDING : Z := 0.
Definition DEATHMATCH : Z := 1.
End GAME_MODE.

(** The fields of [lobby.gameData] that the heads-up display reads.  The
    two durations are whole milliseconds. *)
Module HudData.
Record t : Type := mk {
  countdown : Z;
  timeRemaining : Z;
  gameMode : Z;
  winnerId : option string
}.
End HudData.

(** [s.padStart(targetLength, c)] for a one-character pad string. *)
Definition padStart (targetLength : nat) (c : ascii) (s : string) : string :=
  String.string_of_list_ascii (replicate (targetLength - String.length s) c) +:+ s.

(** [Math.ceil(a / b)] on whole numbers, for [b > 0]. *)
Definition ceilDiv (a b : Z) : Z := - ((- a) / b).

(** The status line, the countdown text and the countdown animation state
    of [Game]. *)
Module Hud.

Record t : Type := mk {
  statusText : string;
  countdownVisible : bool;
  countdownLabel : string;
  countdownFill : Z;
  countdownAlpha : R;
  countdownScale : R;
  lastCountdownValue : Z;
  countdownAnimStart : Z
}.

(** As [createUI] and the field initialisers leave it. *)
Definition create : t :=
  {| statusText := "Waiting for players...";
     countdownVisible := false;
     countdownLabel := EmptyString;
     countdownFill := 0xffff00;
     countdownAlpha := 1;
     countdownScale := 1;
     lastCountdownValue := 0;
     countdownAnimStart := 0 |}.

Definition countdownSecs (gameData : option HudData.t) : Z :=
  ceilDiv (default 0 (HudData.countdown <$> gameData)) 1000.

Definition clockText (gameData : option HudData.t) : string :=
  let timeRemaining := default 0 (HudData.timeRemaining <$> gameData) in
  let mins := timeRemaining / 60000 in
  let secs := Z.rem timeRemaining 60000 / 1000 in
  "Time: " +:+ pretty mins +:+ ":" +:+ padStart 2 "0"%char (pretty secs).

(** [updateGameStateUI]; [now] is the value of [Date.now()], [gameData] the
    display's part of [lobby.gameData]. *)
Definition updateGameStateUI (now : Z) (lobby : Lobby.t) (gameData : option HudData.t)
    (h : t) : t :=
  let phase := Lobby.state lobby in
  if decide (phase = GAME_PHASE.WAITING) then
    let count := length (Lobby.players lobby) in
    {| statusText :=
         "Waiting for players (" +:+ pretty count +:+ "/" +:+ pretty GAME_CONFIG.MIN_PLAYERS +:+ " min)...";
       countdownVisible := false;
       countdownLabel := countdownLabel h;
       countdownFill := countdownFill h;
       countdownAlpha := countdownAlpha h;
       countdownScale := countdownScale h;
       lastCountdownValue := 0;
       countdownAnimStart := countdownAnimStart h |}
  else if decide (phase = GAME_PHASE.COUNTDOWN) then
    let countdownSecs := countdownSecs gameData in
    let changed := bool_decide (countdownSecs <> lastCountdownValue h) in
    {| statusText := "Get Ready!";
       countdownVisible := true;
       countdownLabel := if decide (countdownSecs <= 0) then "GO!" else pretty countdownSecs;
       countdownFill :=
         if decide (countdownSecs <= 0) then 0x44ff44
         else if decide (countdownSecs = 1) then 0xff4444
         else if decide (countdownSecs = 2) then 0xffaa44
         else 0xffff44;
       countdownAlpha := countdownAlpha h;
       countdownScale := countdownScale h;
       lastCountdownValue := if changed then countdownSecs else lastCountdownValue h;
       countdownAnimStart := if changed then now else countdownAnimStart h |}
  else if decide (phase = GAME_PHASE.PLAYING) then
    let timeSinceStart := now - countdownAnimStart h in
    let flash := bool_decide (lastCountdownValue h = 0 /\ timeSinceStart < 500) in
    let status :=
      if decide (HudData.gameMode <$> gameData = Some GAME_MODE.DEATHMATCH)
      then clockText gameData
      else
        let alive := length (List.filter Player.alive (Lobby.players lobby)) in
        "Players alive: " +:+ pretty alive in
    {| statusText := status;
       countdownVisible := flash;
       countdownLabel := if flash then "GO!" else countdownLabel h;
       countdownFill := if flash then 0x44ff44 else countdownFill h;
       countdownAlpha := if flash then (1 - IZR timeSinceStart / 500)%R else 1%R;
       countdownScale := countdownScale h;
       lastCountdownValue := lastCountdownValue h;
       countdownAnimStart := countdownAnimStart h |}
  else if decide (phase = GAME_PHASE.ENDED) then
    let winner :=
      List.find (fun p => bool_decide (Some (Player.socketId p) = (gameData ≫= HudData.winnerId)))
                (Lobby.players lobby) in
    {| statusText :=
         match winner with
         | Some w => Player.name w +:+ " wins!"
         | None => "Game Over!"
         end;
       countdownVisible := true;
       countdownLabel := "GAME OVER";
       countdownFill := 0xff6666;
       countdownAlpha := 1;
       countdownScale := countdownScale h;
       lastCountdownValue := -1;
       countdownAnimStart := countdownAnimStart h |}
  else h.

(** [animateCountdown], run at the end of every frame. *)
Definition animateCountdown (now : Z) (h : t) : t :=
  if negb (countdownVisible h) then h
  else
    let elapsed := now - countdownAnimStart h in
    let animDuration := 300 in
    let scale :=
      if elapsed <? animDuration then
        let progress := (IZR elapsed / IZR animDuration)%R in
        let easeOut := (1 - (1 - progress) ^ 3)%R in
        (1.5 - 0.5 * easeOut)%R
      else 1%R in
    {| statusText := statusText h;
       countdownVisible := countdownVisible h;
       countdownLabel := countdownLabel h;
       countdownFill := countdownFill h;
       countdownAlpha := countdownAlpha h;
       countdownScale := scale;
       lastCountdownValue := lastCountdownValue h;
       countdownAnimStart := countdownAnimStart h |}.

(** A run of snapshots as the display sees them. *)
Definition Snapshot : Type := Z * Lobby.t * option HudData.t.
Definition deliver (h : t) (s : Snapshot) : t := updateGameStateUI s.1.1 s.1.2 s.2 h.
Definition deliverAll (snapshots : list Snapshot) (h : t) : t := foldl deliver h snapshots.

End Hud.

(** ** TileMap.ts: rendering *)

(** The palette entries that [drawTile] passes on. *)
Module COLORS.
Definition FLOOR : Z := 0x2a6a2a.
Definition FLOOR_ALT : Z := 0x3a8a3a.
Definition POWERUP_BOMB : Z := 0x3399ff.
Definition POWERUP_FIRE : Z := 0xff5522.
Definition POWERUP_SPEED : Z := 0x44dd44.
Definition POWERUP_KICK : Z := 0xffdd22.
Definition POWERUP_THROW : Z := 0xff66bb.
Definition POWERUP_PUNCH : Z := 0xcc44ff.
Definition POWERUP_PIERCE : Z := 0x44ffff.
Definition POWERUP_BOMBPASS : Z := 0xddddff.
End COLORS.

(** The item codes of [TILE]. *)
Module TILE_ITEM.
Definition POWERUP_BOMB : Z := 3.
Definition POWERUP_FIRE : Z := 4.
Definition POWERUP_SPEED : Z := 5.
Definition POWERUP_KICK : Z := 6.
Definition POWERUP_THROW : Z := 7.
Definition POWERUP_PUNCH : Z := 8.
Definition POWERUP_PIERCE : Z := 9.
Definition POWERUP_BOMBPASS : Z := 10.
Definition SKULL : Z := 11.
End TILE_ITEM.

(** What [render] issues for one cell: the floor rectangle at pixel
    [(x, y)] and, on top of it, at most one of the four tile drawings.
    [drawPowerUp] receives a letter but draws with the colour alone. *)
Module TileDraw.

Inductive Overlay : Type :=
  | drawHardWall
  | drawSoftBlock
  | drawPowerUp (color : Z) (_label : string)
  | drawSkull.

Record t : Type := mk { x : Z; y : Z; floor : Z; overlay : option Overlay }.

Definition drawTile (gridX gridY tileType : Z) : t :=
  let x := gridX * GAME_CONFIG.TILE_SIZE in
  let y := gridY * GAME_CONFIG.TILE_SIZE in
  let isAlt := Z.rem (gridX + gridY) 2 =? 0 in
  {| x := x;
     y := y;
     floor := if isAlt then COLORS.FLOOR else COLORS.FLOOR_ALT;
     overlay :=
       if tileType =? TILE.HARD_WALL then Some drawHardWall
       else if tileType =? TILE.SOFT_BLOCK then Some drawSoftBlock
       else if tileType =? TILE_ITEM.POWERUP_BOMB
       then Some (drawPowerUp COLORS.POWERUP_BOMB "B")
       else if tileType =? TILE_ITEM.POWERUP_FIRE
       then Some (drawPowerUp COLORS.POWERUP_FIRE "F")
       else if tileType =? TILE_ITEM.POWERUP_SPEED
       then Some (drawPowerUp COLORS.POWERUP_SPEED "S")
       else if tileType =? TILE_ITEM.POWERUP_KICK
       then Some (drawPowerUp COLORS.POWERUP_KICK "K")
       else if tileType =? TILE_ITEM.POWERUP_THROW
       then Some (drawPowerUp COLORS.POWERUP_THROW "T")
       else if tileType =? TILE_ITEM.POWERUP_PUNCH
       then Some (drawPowerUp COLORS.POWERUP_PUNCH "P")
       else if tileType =? TILE_ITEM.POWERUP_PIERCE
       then Some (drawPowerUp COLORS.POWERUP_PIERCE "X")
       else if tileType =? TILE_ITEM.POWERUP_BOMBPASS
       then Some (drawPowerUp COLORS.POWERUP_BOMBPASS "G")
       else if tileType =? TILE_ITEM.SKULL then Some drawSkull
       else None |}.

(** The inner loop of [render]: one row, left to right. *)
Definition renderRow (m : TileMap.t) (y : Z) : list t :=
  (fun x => drawTile x y (TileMap.tileAt m (y * GAME_CONFIG.GRID_WIDTH + x)))
    <$> seqZ 0 GAME_CONFIG.GRID_WIDTH.

(** [render]: the drawing calls after [clear], in order. *)
Definition render (m : TileMap.t) : list t :=
  seqZ 0 GAME_CONFIG.GRID_HEIGHT ≫= renderRow m.

End TileDraw.

(** ** Tile layer: theorems *)

Section TileMapFacts.
Import TileMap.

Lemma updateTile_length gx gy ty m :
  length (tiles (updateTile gx gy ty m)) = length (tiles m).
Proof.
  unfold updateTile.
  destruct (_ && _); simpl; [apply length_insert | reflexivity].
Qed.

(** An accepted write changes the addressed cell and no other. *)
Lemma updateTile_in_range gx gy ty m :
  let index := gy * GAME_CONFIG.GRID_WIDTH + gx in
  0 <= index < Z.of_nat (length (tiles m)) ->
  tileAt (updateTile gx gy ty m) index = ty
  /\ forall j, j <> index -> tileAt (updateTile gx gy ty m) j = tileAt m j.
Proof.
  intros index Hi. unfold updateTile. fold index.
  replace ((0 <=? index) && _) with true
    by (symmetry; apply andb_true_iff; split; [apply Z.leb_le | apply Z.ltb_lt]; lia).
  unfold tileAt; simpl. split.
  - replace (0 <=? index) with true by (symmetry; apply Z.leb_le; lia).
    rewrite list_lookup_insert_eq by lia. reflexivity.
  - intros j Hj. destruct (0 <=? j) eqn:Hj0; [|reflexivity].
    apply Z.leb_le in Hj0.
    rewrite list_lookup_insert_ne by lia. reflexivity.
Qed.

End TileMapFacts.

(** C3 (as stated, refuted): the cell (19, 0) lies outside the 19 x 15
    rectangle, yet its row-major index 19 is inside the array, so the write
    is accepted and lands on the cell (0, 1). *)
Lemma updateTile_outside_grid_still_writes :
  TileMap.inGrid 19 0 = false
  /\ TileMap.tileAt TileMap.emptyArena 19 = TILE.EMPTY
  /\ TileMap.tileAt (TileMap.updateTile 19 0 TILE.HARD_WALL TileMap.emptyArena) 19
     = TILE.HARD_WALL
  /\ TileMap.updateTile 19 0 TILE.HARD_WALL TileMap.emptyArena <> TileMap.emptyArena.
Proof.
  repeat split; try reflexivity.
  intros H. apply (f_equal (fun m => TileMap.tileAt m 19)) in H.
  vm_compute in H. discriminate H.
Qed.

(** C3 (amended): a write whose row-major index [gridY * GRID_WIDTH + gridX]
    is negative or not below the length of the tile array is dropped: the
    tile layer is left exactly as it was. *)
Theorem updateTile_index_out_of_range_dropped :
  forall (gridX gridY tileType : Z) (m : TileMap.t),
    (gridY * GAME_CONFIG.GRID_WIDTH + gridX < 0
     \/ Z.of_nat (length (TileMap.tiles m)) <= gridY * GAME_CONFIG.GRID_WIDTH + gridX) ->
    TileMap.updateTile gridX gridY tileType m = m.
Proof.
  intros gx gy ty m H. unfold TileMap.updateTile.
  destruct (0 <=? _) eqn:H0; simpl; [|reflexivity].
  destruct (_ <? _) eqn:H1; [|reflexivity].
  apply Z.leb_le in H0. apply Z.ltb_lt in H1. lia.
Qed.

Lemma updateTile_index_out_of_range_dropped_witness :
  TileMap.updateTile 0 15 TILE.SOFT_BLOCK TileMap.emptyArena = TileMap.emptyArena.
Proof.
  apply updateTile_index_out_of_range_dropped. right. vm_compute. discriminate.
Defined.

(** ** Reconciliation: theorems *)

(** *** Folds over a projection of the state *)

Section FoldFacts.
Context {S A X : Type}.
Implicit Types (proj : S -> gmap string A) (keep : gset string).

(** A loop whose body leaves a projection alone leaves it alone. *)
Lemma foldl_preserves {B} (f : S -> B) (step : S -> X -> S) :
  (forall g x, f (step g x) = f g) ->
  forall xs g, f (foldl step g xs) = f g.
Proof.
  intros Hstep xs. induction xs as [|x xs IH]; intros g; simpl; [reflexivity|].
  rewrite IH. apply Hstep.
Qed.

(** The removal loop: every visited id outside [keep] is deleted, and
    nothing else changes. *)
Lemma foldl_remove_lookup proj (step : S -> string -> S) keep :
  (forall g id, proj (step g id) = if decide (id ∈ keep) then proj g else delete id (proj g)) ->
  forall ids g k,
    proj (foldl step g ids) !! k
    = if decide (k ∈ ids /\ k ∉ keep) then None else proj g !! k.
Proof.
  intros Hstep ids. induction ids as [|id ids IH]; intros g k; cbn [foldl].
  - rewrite decide_False; [reflexivity|]. intros [H _]. inversion H.
  - rewrite IH, Hstep.
    destruct (decide (k ∈ ids /\ k ∉ keep)) as [[Hin Hk]|Hn].
    + rewrite decide_True; [reflexivity|]. split; [by right | done].
    + destruct (decide (id ∈ keep)) as [Hid|Hid].
      * rewrite decide_False; [reflexivity|].
        intros [Hin Hk]. apply elem_of_cons in Hin as [->|Hin]; [done|].
        apply Hn. done.
      * destruct (decide (k = id)) as [->|Hne].
        -- rewrite lookup_delete_eq. rewrite decide_True; [reflexivity|].
           split; [by left | done].
        -- rewrite lookup_delete_ne by done. rewrite decide_False; [reflexivity|].
           intros [Hin Hk]. apply elem_of_cons in Hin as [->|Hin]; [done|].
           apply Hn. done.
Qed.

(** Run over all the keys of the map, the removal loop keeps exactly the
    entries whose id is in [keep]. *)
Lemma foldl_remove_all_lookup proj (step : S -> string -> S) keep :
  (forall g id, proj (step g id) = if decide (id ∈ keep) then proj g else delete id (proj g)) ->
  forall g k,
    proj (foldl step g (map_to_list (proj g)).*1) !! k
    = if decide (k ∈ keep) then proj g !! k else None.
Proof.
  intros Hstep g k. rewrite (foldl_remove_lookup proj step keep Hstep).
  destruct (decide (k ∈ keep)) as [Hk|Hk].
  - rewrite decide_False; [reflexivity|]. intros [_ ?]. done.
  - destruct (proj g !! k) as [v|] eqn:Hl.
    + rewrite decide_True; [reflexivity|]. split; [|done].
      apply list_elem_of_fmap. exists (k, v). split; [reflexivity|].
      by apply elem_of_map_to_list.
    + by destruct (decide _).
Qed.

(** The add-or-update loop: when each step adds the key of the item it
    handles and no other, the loop adds the keys of the whole list. *)
Lemma foldl_upsert_dom proj (step : S -> X -> S) (key : X -> string) :
  (forall g x, dom (proj (step g x)) = {[key x]} ∪ dom (proj g)) ->
  forall xs g, dom (proj (foldl step g xs)) = list_to_set (key <$> xs) ∪ dom (proj g).
Proof.
  intros Hstep xs. induction xs as [|x xs IH]; intros g; cbn [foldl fmap list_fmap].
  - cbn. symmetry. apply (left_id_L ∅ (∪)).
  - rewrite IH, Hstep. cbn [list_to_set].
    rewrite (assoc_L (∪)). f_equal. apply (comm_L (∪)).
Qed.

(** A loop keeps what each of its steps keeps. *)
Lemma foldl_invariant (P : S -> Prop) (step : S -> X -> S) :
  (forall g x, P g -> P (step g x)) ->
  forall xs g, P g -> P (foldl step g xs).
Proof.
  intros Hstep xs. induction xs as [|x xs IH]; intros g Hg; cbn [foldl]; [done|].
  apply IH, Hstep, Hg.
Qed.

(** Items with another key do not touch the entry of [k]. *)
Lemma foldl_other_keys_lookup proj (step : S -> X -> S) (key : X -> string) (k : string) :
  (forall g x, key x <> k -> proj (step g x) !! k = proj g !! k) ->
  forall xs g, k ∉ (key <$> xs) -> proj (foldl step g xs) !! k = proj g !! k.
Proof.
  intros Hstep xs. induction xs as [|x xs IH]; intros g Hk; cbn [foldl]; [done|].
  cbn [fmap list_fmap] in Hk. apply not_elem_of_cons in Hk as [Hx Hxs].
  rewrite IH by done. apply Hstep. congruence.
Qed.

(** In a list without duplicate keys, an item splits the list into two
    parts that do not mention its key. *)
Lemma NoDup_key_split (key : X -> string) (xs : list X) (x : X) :
  NoDup (key <$> xs) -> x ∈ xs ->
  exists l1 l2,
    xs = l1 ++ (x :: l2) /\ (key x ∉ (key <$> l1)) /\ (key x ∉ (key <$> l2)).
Proof.
  intros Hnd Hin. apply list_elem_of_split in Hin as (l1 & l2 & ->).
  exists l1, l2. split; [reflexivity|].
  rewrite fmap_app in Hnd. cbn [fmap list_fmap] in Hnd.
  apply NoDup_app in Hnd as (_ & Hdisj & Hnd2).
  apply NoDup_cons in Hnd2 as [Hx _]. split; [|done].
  intros H1. apply (Hdisj _ H1). by left.
Qed.

(** Both loops in sequence, as the three [sync] methods run them: the
    keys of the result are the keys of the list. *)
Lemma reconcile_dom proj (rm : S -> string -> S) (up : S -> X -> S)
    (key : X -> string) (xs : list X) (g : S) :
  let keep : gset string := list_to_set (key <$> xs) in
  (forall g id, proj (rm g id) = if decide (id ∈ keep) then proj g else delete id (proj g)) ->
  (forall g x, dom (proj (up g x)) = {[key x]} ∪ dom (proj g)) ->
  dom (proj (foldl up (foldl rm g (map_to_list (proj g)).*1) xs)) = keep.
Proof.
  intros keep Hrm Hup.
  rewrite (foldl_upsert_dom proj up key Hup). fold keep.
  apply set_eq. intros k. rewrite elem_of_union, elem_of_dom.
  rewrite (foldl_remove_all_lookup proj rm keep Hrm).
  split; [|by left]. intros [Hk|Hk]; [done|].
  destruct (decide (k ∈ keep)); [done|]. by destruct Hk.
Qed.

End FoldFacts.

(** *** The three presenters *)

Section Presenters.
Import Game.

Lemma removePlayer_sprites id g :
  playerSprites (removePlayer id g) = delete id (playerSprites g).
Proof.
  unfold removePlayer. destruct (playerSprites g !! id) eqn:H; [reflexivity|].
  by rewrite delete_id.
Qed.

Lemma removeBomb_sprites id g :
  bombSprites (removeBomb id g) = delete id (bombSprites g).
Proof.
  unfold removeBomb. destruct (bombSprites g !! id) eqn:H; [reflexivity|].
  by rewrite delete_id.
Qed.

Lemma removeExplosion_sprites id g :
  explosionSprites (removeExplosion id g) = delete id (explosionSprites g).
Proof.
  unfold removeExplosion. destruct (explosionSprites g !! id) eqn:H; [reflexivity|].
  by rewrite delete_id.
Qed.

(** The shake trigger writes the shake intensity and nothing else. *)
Lemma triggerExplosionShake_frame ex ey g :
  playerSprites (triggerExplosionShake ex ey g) = playerSprites g
  /\ bombSprites (triggerExplosionShake ex ey g) = bombSprites g
  /\ explosionSprites (triggerExplosionShake ex ey g) = explosionSprites g.
Proof.
  unfold triggerExplosionShake.
  destruct (mySocketId g) as [me|]; [|done].
  destruct (truthy me); [|done]. cbn [negb].
  destruct (playerSprites g !! me); [|done].
  by destruct (decide _).
Qed.

Lemma addExplosion_sprites now e g :
  explosionSprites (addExplosion now e g)
  = <[ExplosionData.id e :=
        {| ExplosionSprite.graphics :=
             Display.set_y (py (gridToPixel (ExplosionData.gridX e) (ExplosionData.gridY e)))
               (Display.set_x (px (gridToPixel (ExplosionData.gridX e) (ExplosionData.gridY e)))
                  Display.create);
           ExplosionSprite.createdAt := now;
           ExplosionSprite.gridX := ExplosionData.gridX e;
           ExplosionSprite.gridY := ExplosionData.gridY e |}]> (explosionSprites g).
Proof.
  unfold addExplosion.
  by rewrite (proj2 (proj2 (triggerExplosionShake_frame _ _ _))).
Qed.

Lemma syncPlayers_dom now players g :
  dom (playerSprites (syncPlayers now players g))
  = list_to_set (Player.socketId <$> players).
Proof.
  unfold syncPlayers. apply (reconcile_dom playerSprites).
  - intros g' id. destruct (decide _); [reflexivity | apply removePlayer_sprites].
  - intros g' p. destruct (decide _) as [[s Hs]|_].
    + unfold updatePlayer. rewrite Hs. cbn. apply dom_insert_L.
    + cbn. apply dom_insert_L.
Qed.

Lemma syncBombs_dom bombs g :
  dom (bombSprites (syncBombs bombs g)) = list_to_set (BombData.id <$> bombs).
Proof.
  unfold syncBombs. apply (reconcile_dom bombSprites).
  - intros g' id. destruct (decide _); [reflexivity | apply removeBomb_sprites].
  - intros g' b. destruct (decide _) as [[s Hs]|_].
    + unfold updateBomb. rewrite Hs. cbn. apply dom_insert_L.
    + cbn. apply dom_insert_L.
Qed.

Lemma syncExplosions_dom now explosions g :
  dom (explosionSprites (syncExplosions now explosions g))
  = list_to_set (ExplosionData.id <$> explosions).
Proof.
  unfold syncExplosions. apply (reconcile_dom explosionSprites).
  - intros g' id. destruct (decide _); [reflexivity | apply removeExplosion_sprites].
  - intros g' e. destruct (decide _) as [Hs|_].
    + apply elem_of_dom in Hs. apply set_eq. intros k.
      rewrite elem_of_union, elem_of_singleton. split; [by right|].
      intros [->|H]; done.
    + rewrite addExplosion_sprites. apply dom_insert_L.
Qed.

(** Reconciling bombs leaves the player sprites alone. *)
Lemma syncBombs_players bombs g :
  playerSprites (syncBombs bombs g) = playerSprites g.
Proof.
  unfold syncBombs.
  rewrite (foldl_preserves playerSprites); [rewrite (foldl_preserves playerSprites)|].
  - reflexivity.
  - intros g' id. destruct (decide _); [reflexivity|].
    unfold removeBomb. by destruct (bombSprites g' !! id).
  - intros g' b. destruct (decide _); [|reflexivity].
    unfold updateBomb. by destruct (bombSprites g' !! BombData.id b).
Qed.

(** Reconciling explosions leaves the player and bomb sprites alone. *)
Lemma syncExplosions_others now explosions g :
  playerSprites (syncExplosions now explosions g) = playerSprites g
  /\ bombSprites (syncExplosions now explosions g) = bombSprites g.
Proof.
  unfold syncExplosions. split.
  - rewrite (foldl_preserves playerSprites); [rewrite (foldl_preserves playerSprites)|].
    + reflexivity.
    + intros g' id. destruct (decide _); [reflexivity|].
      unfold removeExplosion. by destruct (explosionSprites g' !! id).
    + intros g' e. destruct (decide _); [reflexivity|].
      unfold addExplosion. by rewrite (proj1 (triggerExplosionShake_frame _ _ _)).
  - rewrite (foldl_preserves bombSprites); [rewrite (foldl_preserves bombSprites)|].
    + reflexivity.
    + intros g' id. destruct (decide _); [reflexivity|].
      unfold removeExplosion. by destruct (explosionSprites g' !! id).
    + intros g' e. destruct (decide _); [reflexivity|].
      unfold addExplosion.
      by rewrite (proj1 (proj2 (triggerExplosionShake_frame _ _ _))).
Qed.

(** What [syncPlayers] leaves under the id of a listed player, when the
    list has no duplicate ids: the updated sprite if there was one, a
    fresh sprite otherwise. *)
Lemma syncPlayers_lookup_listed now players g p :
  NoDup (Player.socketId <$> players) -> p ∈ players ->
  playerSprites (syncPlayers now players g) !! Player.socketId p
  = match playerSprites g !! Player.socketId p with
    | Some s => Some (updatePlayerSprite now (globalTime g) p s)
    | None => playerSprites (addPlayer p g) !! Player.socketId p
    end.
Proof.
  intros Hnd Hin. unfold syncPlayers. cbv zeta.
  set (keep := list_to_set (Player.socketId <$> players) : gset string).
  set (rm := fun g id => if decide (id ∈ keep) then g else removePlayer id g).
  set (up := fun g player =>
               if decide (is_Some (playerSprites g !! Player.socketId player))
               then updatePlayer now player g else addPlayer player g).
  set (g1 := foldl rm g _).
  assert (Hrm : forall g id, playerSprites (rm g id)
                = if decide (id ∈ keep) then playerSprites g
                  else delete id (playerSprites g)).
  { intros g' id. unfold rm. destruct (decide _); [reflexivity | apply removePlayer_sprites]. }
  assert (Hup : forall g x, Player.socketId x <> Player.socketId p ->
                playerSprites (up g x) !! Player.socketId p
                = playerSprites g !! Player.socketId p).
  { intros g' x Hx. unfold up. destruct (decide _) as [[s Hs]|_].
    - unfold updatePlayer. rewrite Hs. cbn. by rewrite lookup_insert_ne.
    - cbn. by rewrite lookup_insert_ne. }
  assert (Hgt : forall xs g, globalTime (foldl up g xs) = globalTime g).
  { apply (foldl_preserves globalTime). intros g' x. unfold up.
    destruct (decide _); [|reflexivity].
    unfold updatePlayer. by destruct (playerSprites g' !! Player.socketId x). }
  assert (H1 : playerSprites g1 !! Player.socketId p = playerSprites g !! Player.socketId p).
  { unfold g1. rewrite (foldl_remove_all_lookup playerSprites rm keep Hrm).
    rewrite decide_True; [reflexivity|].
    unfold keep. apply elem_of_list_to_set. by apply list_elem_of_fmap_2. }
  assert (Hg1 : globalTime g1 = globalTime g).
  { unfold g1. apply (foldl_preserves globalTime). intros g' id. unfold rm.
    destruct (decide _); [reflexivity|].
    unfold removePlayer. by destruct (playerSprites g' !! id). }
  destruct (NoDup_key_split Player.socketId players p Hnd Hin)
    as (l1 & l2 & -> & Hl1 & Hl2).
  rewrite foldl_app. cbn [foldl].
  rewrite (foldl_other_keys_lookup playerSprites up Player.socketId _ Hup) by done.
  set (g2 := foldl up g1 l1).
  assert (H2 : playerSprites g2 !! Player.socketId p = playerSprites g !! Player.socketId p).
  { unfold g2.
    rewrite (foldl_other_keys_lookup playerSprites up Player.socketId _ Hup) by done.
    exact H1. }
  assert (Hg2 : globalTime g2 = globalTime g) by (unfold g2; rewrite Hgt; exact Hg1).
  unfold up at 1. destruct (decide _) as [[s Hs]|Hn].
  - unfold updatePlayer. rewrite Hs. cbn. rewrite lookup_insert_eq.
    rewrite <- H2, Hs, Hg2. reflexivity.
  - rewrite <- H2. destruct (playerSprites g2 !! Player.socketId p) eqn:E.
    + exfalso. by apply Hn.
    + cbn. by rewrite !lookup_insert_eq.
Qed.

(** What [updateBomb] writes whatever the wrap detection decides. *)
Lemma updateBombSprite_fields b s :
  BombSprite.data (updateBombSprite b s) = b
  /\ BombSprite.targetX (updateBombSprite b s)
     = px (gridToPixel (BombData.gridX b) (BombData.gridY b))
  /\ BombSprite.targetY (updateBombSprite b s)
     = py (gridToPixel (BombData.gridX b) (BombData.gridY b))
  /\ BombSprite.graphics (updateBombSprite b s) = BombSprite.graphics s.
Proof.
  unfold updateBombSprite.
  destruct (_ && _); [destruct (decide _); [|destruct (decide _)]|]; by cbn.
Qed.

Lemma syncBombs_lookup_listed bombs g b :
  NoDup (BombData.id <$> bombs) -> b ∈ bombs ->
  bombSprites (syncBombs bombs g) !! BombData.id b
  = match bombSprites g !! BombData.id b with
    | Some s => Some (updateBombSprite b s)
    | None => bombSprites (addBomb b g) !! BombData.id b
    end.
Proof.
  intros Hnd Hin. unfold syncBombs. cbv zeta.
  set (keep := list_to_set (BombData.id <$> bombs) : gset string).
  set (rm := fun g id => if decide (id ∈ keep) then g else removeBomb id g).
  set (up := fun g bomb =>
               if decide (is_Some (bombSprites g !! BombData.id bomb))
               then updateBomb bomb g else addBomb bomb g).
  set (g1 := foldl rm g _).
  assert (Hrm : forall g id, bombSprites (rm g id)
                = if decide (id ∈ keep) then bombSprites g
                  else delete id (bombSprites g)).
  { intros g' id. unfold rm. destruct (decide _); [reflexivity | apply removeBomb_sprites]. }
  assert (Hup : forall g x, BombData.id x <> BombData.id b ->
                bombSprites (up g x) !! BombData.id b = bombSprites g !! BombData.id b).
  { intros g' x Hx. unfold up. destruct (decide _) as [[s Hs]|_].
    - unfold updateBomb. rewrite Hs. cbn. by rewrite lookup_insert_ne.
    - cbn. by rewrite lookup_insert_ne. }
  assert (H1 : bombSprites g1 !! BombData.id b = bombSprites g !! BombData.id b).
  { unfold g1. rewrite (foldl_remove_all_lookup bombSprites rm keep Hrm).
    rewrite decide_True; [reflexivity|].
    unfold keep. apply elem_of_list_to_set. by apply list_elem_of_fmap_2. }
  destruct (NoDup_key_split BombData.id bombs b Hnd Hin) as (l1 & l2 & -> & Hl1 & Hl2).
  rewrite foldl_app. cbn [foldl].
  rewrite (foldl_other_keys_lookup bombSprites up BombData.id _ Hup) by done.
  set (g2 := foldl up g1 l1).
  assert (H2 : bombSprites g2 !! BombData.id b = bombSprites g !! BombData.id b).
  { unfold g2.
    rewrite (foldl_other_keys_lookup bombSprites up BombData.id _ Hup) by done.
    exact H1. }
  unfold up at 1. destruct (decide _) as [[s Hs]|Hn].
  - unfold updateBomb. rewrite Hs. cbn. rewrite lookup_insert_eq.
    rewrite <- H2, Hs. reflexivity.
  - rewrite <- H2. destruct (bombSprites g2 !! BombData.id b) eqn:E.
    + exfalso. by apply Hn.
    + cbn. by rewrite !lookup_insert_eq.
Qed.

(** [syncExplosions] never rewrites a sprite it already owns: a listed id
    keeps the very sprite it had. *)
Lemma syncExplosions_lookup_owned now explosions g id s :
  id ∈ (ExplosionData.id <$> explosions) ->
  explosionSprites g !! id = Some s ->
  explosionSprites (syncExplosions now explosions g) !! id = Some s.
Proof.
  intros Hin Hs. unfold syncExplosions. cbv zeta.
  set (keep := list_to_set (ExplosionData.id <$> explosions) : gset string).
  set (rm := fun g id => if decide (id ∈ keep) then g else removeExplosion id g).
  set (g1 := foldl rm g _).
  assert (H1 : explosionSprites g1 !! id = Some s).
  { unfold g1. rewrite (foldl_remove_all_lookup explosionSprites rm keep).
    - rewrite decide_True; [done|]. unfold keep. by apply elem_of_list_to_set.
    - intros g' id'. unfold rm.
      destruct (decide _); [reflexivity | apply removeExplosion_sprites]. }
  apply (foldl_invariant (fun g => explosionSprites g !! id = Some s)); [|exact H1].
  intros g' e Hg'. destruct (decide _) as [_|Hn]; [exact Hg'|].
  rewrite addExplosion_sprites.
  destruct (decide (ExplosionData.id e = id)) as [He|He].
  - exfalso. apply Hn. rewrite He, Hg'. by eexists.
  - by rewrite lookup_insert_ne.
Qed.

End Presenters.

(** C1: after [updateFromLobby] on an initialised scene, for a snapshot that
    carries its bomb and explosion lists, the ids of the player sprites are
    exactly the socket ids of the snapshot's players, the ids of the bomb
    sprites exactly the ids of its bombs, and the ids of the explosion
    sprites exactly the ids of its explosions. *)
Theorem reconciliation_completeness :
  forall (now : Z) (lobby : Lobby.t) (gd : GameData.t)
         (bombs : list BombData.t) (explosions : list ExplosionData.t) (g : Game.t),
    Game.initialized g = true ->
    Lobby.gameData lobby = Some gd ->
    GameData.bombs gd = Some bombs ->
    GameData.explosions gd = Some explosions ->
    let g' := Game.updateFromLobby now lobby g in
    dom (Game.playerSprites g') = list_to_set (Player.socketId <$> Lobby.players lobby)
    /\ dom (Game.bombSprites g') = list_to_set (BombData.id <$> bombs)
    /\ dom (Game.explosionSprites g') = list_to_set (ExplosionData.id <$> explosions).
Proof.
  intros now lobby gd bombs explosions g Hinit Hgd Hb He g'.
  subst g'. unfold Game.updateFromLobby.
  rewrite Hinit, Hgd. cbn [negb mbind option_bind]. rewrite Hb, He.
  repeat split.
  - rewrite (proj1 (syncExplosions_others _ _ _)), syncBombs_players.
    apply syncPlayers_dom.
  - rewrite (proj2 (syncExplosions_others _ _ _)). apply syncBombs_dom.
  - apply syncExplosions_dom.
Qed.

Lemma reconciliation_completeness_witness :
  dom (Game.playerSprites (Game.updateFromLobby 2000 Sample.nextSnapshot Sample.carolScene))
  = list_to_set ["alice"; "bob"]
  /\ dom (Game.bombSprites (Game.updateFromLobby 2000 Sample.nextSnapshot Sample.carolScene))
     = list_to_set []
  /\ dom (Game.explosionSprites
            (Game.updateFromLobby 2000 Sample.nextSnapshot Sample.carolScene))
     = list_to_set ["blast-1"].
Proof.
  exact (reconciliation_completeness 2000 Sample.nextSnapshot
           (GameData.mk None (Some []) (Some [Sample.blastAt 2 2 300]))
           [] [Sample.blastAt 2 2 300] Sample.carolScene
           eq_refl eq_refl eq_refl eq_refl).
Defined.

(** C2 (as stated, refuted): the blast sprite is created from a snapshot
    that puts it on cell (1, 1); the next snapshot lists the same id on cell
    (2, 2).  After reconciliation the sprite still carries the grid
    coordinates and the pixel position of cell (1, 1): an owned explosion is
    not updated. *)
Lemma syncExplosions_leaves_owned_sprite_stale :
  exists s : ExplosionSprite.t,
    Game.explosionSprites
      (Game.updateFromLobby 2000 Sample.nextSnapshot Sample.carolScene) !! "blast-1" = Some s
    /\ Game.explosionSprites Sample.carolScene !! "blast-1" = Some s
    /\ ExplosionSprite.gridX s <> ExplosionData.gridX (Sample.blastAt 2 2 300)
    /\ ExplosionSprite.gridY s <> ExplosionData.gridY (Sample.blastAt 2 2 300)
    /\ Display.x (ExplosionSprite.graphics s) <> px (gridToPixel 2 2)
    /\ Display.y (ExplosionSprite.graphics s) <> py (gridToPixel 2 2).
Proof.
  eexists. split; [vm_compute; reflexivity|].
  split; [vm_compute; reflexivity|].
  cbn. unfold GAME_CONFIG.TILE_SIZE. repeat split; lra.
Qed.

Section ExplosionCreation.
Import Game.

(** What [syncExplosions] leaves under the id of a listed explosion, when
    the list has no duplicate ids: the sprite it had if there was one, a
    fresh sprite on the cell of the item otherwise. *)
Lemma syncExplosions_lookup_listed now explosions g e :
  NoDup (ExplosionData.id <$> explosions) -> e ∈ explosions ->
  explosionSprites (syncExplosions now explosions g) !! ExplosionData.id e
  = match explosionSprites g !! ExplosionData.id e with
    | Some s => Some s
    | None =>
        Some {| ExplosionSprite.graphics :=
                  Display.set_y (py (gridToPixel (ExplosionData.gridX e) (ExplosionData.gridY e)))
                    (Display.set_x
                       (px (gridToPixel (ExplosionData.gridX e) (ExplosionData.gridY e)))
                       Display.create);
                ExplosionSprite.createdAt := now;
                ExplosionSprite.gridX := ExplosionData.gridX e;
                ExplosionSprite.gridY := ExplosionData.gridY e |}
    end.
Proof.
  intros Hnd Hin.
  destruct (explosionSprites g !! ExplosionData.id e) as [s|] eqn:Hs.
  { apply syncExplosions_lookup_owned; [by apply list_elem_of_fmap_2 | exact Hs]. }
  unfold syncExplosions. cbv zeta.
  set (keep := list_to_set (ExplosionData.id <$> explosions) : gset string).
  set (rm := fun g id => if decide (id ∈ keep) then g else removeExplosion id g).
  set (up := fun g explosion =>
               if decide (is_Some (explosionSprites g !! ExplosionData.id explosion))
               then g else addExplosion now explosion g).
  set (g1 := foldl rm g _).
  assert (Hrm : forall g id, explosionSprites (rm g id)
                = if decide (id ∈ keep) then explosionSprites g
                  else delete id (explosionSprites g)).
  { intros g' id. unfold rm.
    destruct (decide _); [reflexivity | apply removeExplosion_sprites]. }
  assert (Hup : forall g x, ExplosionData.id x <> ExplosionData.id e ->
                explosionSprites (up g x) !! ExplosionData.id e
                = explosionSprites g !! ExplosionData.id e).
  { intros g' x Hx. unfold up. destruct (decide _) as [_|_]; [reflexivity|].
    rewrite addExplosion_sprites. by rewrite lookup_insert_ne. }
  assert (H1 : explosionSprites g1 !! ExplosionData.id e = None).
  { unfold g1. rewrite (foldl_remove_all_lookup explosionSprites rm keep Hrm).
    by destruct (decide _). }
  destruct (NoDup_key_split ExplosionData.id explosions e Hnd Hin)
    as (l1 & l2 & -> & Hl1 & Hl2).
  rewrite foldl_app. cbn [foldl].
  rewrite (foldl_other_keys_lookup explosionSprites up ExplosionData.id _ Hup) by done.
  set (g2 := foldl up g1 l1).
  assert (H2 : explosionSprites g2 !! ExplosionData.id e = None).
  { unfold g2.
    rewrite (foldl_other_keys_lookup explosionSprites up ExplosionData.id _ Hup) by done.
    exact H1. }
  unfold up at 1. destruct (decide _) as [[s Hs']|_]; [congruence|].
  rewrite addExplosion_sprites. by rewrite lookup_insert_eq.
Qed.

End ExplosionCreation.

(** C2 (amended): stale entities are removed and missing ones created alike
    for players, bombs and explosions, but only players and bombs are
    updated.  After each of the three reconciliations the owned ids are
    exactly the ids of the list, and a listed explosion without a sprite gets
    a fresh one on its cell, stamped with the current time.  In a list
    without duplicate ids, a player or bomb whose id already has a sprite
    gets its authoritative data replaced and its interpolation target
    recomputed from the new grid cell.  An explosion whose id already has a
    sprite keeps that sprite exactly as it was: explosions are only created
    and destroyed. *)
Theorem reconciliation_updates_players_and_bombs_only :
  (forall now players bombs explosions g,
      dom (Game.playerSprites (Game.syncPlayers now players g))
      = list_to_set (Player.socketId <$> players)
      /\ dom (Game.bombSprites (Game.syncBombs bombs g))
         = list_to_set (BombData.id <$> bombs)
      /\ dom (Game.explosionSprites (Game.syncExplosions now explosions g))
         = list_to_set (ExplosionData.id <$> explosions))
  /\ (forall now explosions g e,
      NoDup (ExplosionData.id <$> explosions) -> e ∈ explosions ->
      Game.explosionSprites g !! ExplosionData.id e = None ->
      exists s',
        Game.explosionSprites (Game.syncExplosions now explosions g) !! ExplosionData.id e
        = Some s'
        /\ ExplosionSprite.createdAt s' = now
        /\ ExplosionSprite.gridX s' = ExplosionData.gridX e
        /\ ExplosionSprite.gridY s' = ExplosionData.gridY e
        /\ Display.x (ExplosionSprite.graphics s')
           = px (gridToPixel (ExplosionData.gridX e) (ExplosionData.gridY e))
        /\ Display.y (ExplosionSprite.graphics s')
           = py (gridToPixel (ExplosionData.gridX e) (ExplosionData.gridY e)))
  /\ (forall now players g p s,
      NoDup (Player.socketId <$> players) -> p ∈ players ->
      Game.playerSprites g !! Player.socketId p = Some s ->
      exists s',
        Game.playerSprites (Game.syncPlayers now players g) !! Player.socketId p = Some s'
        /\ PlayerSprite.data s' = p
        /\ PlayerSprite.targetX s' = px (gridToPixel (Player.gridX p) (Player.gridY p))
        /\ PlayerSprite.targetY s' = py (gridToPixel (Player.gridX p) (Player.gridY p)))
  /\ (forall bombs g b s,
      NoDup (BombData.id <$> bombs) -> b ∈ bombs ->
      Game.bombSprites g !! BombData.id b = Some s ->
      exists s',
        Game.bombSprites (Game.syncBombs bombs g) !! BombData.id b = Some s'
        /\ BombSprite.data s' = b
        /\ BombSprite.targetX s' = px (gridToPixel (BombData.gridX b) (BombData.gridY b))
        /\ BombSprite.targetY s' = py (gridToPixel (BombData.gridX b) (BombData.gridY b)))
  /\ (forall now explosions g e s,
      e ∈ explosions ->
      Game.explosionSprites g !! ExplosionData.id e = Some s ->
      Game.explosionSprites (Game.syncExplosions now explosions g) !! ExplosionData.id e
      = Some s).
Proof.
  split; [|split; [|split; [|split]]].
  - intros now players bombs explosions g.
    split; [apply syncPlayers_dom|]. split; [apply syncBombs_dom | apply syncExplosions_dom].
  - intros now explosions g e Hnd Hin Hnone.
    eexists. rewrite (syncExplosions_lookup_listed now explosions g e Hnd Hin), Hnone.
    split; [reflexivity|]. by cbn.
  - intros now players g p s Hnd Hin Hs.
    eexists. rewrite (syncPlayers_lookup_listed now players g p Hnd Hin), Hs.
    split; [reflexivity|]. by cbn.
  - intros bombs g b s Hnd Hin Hs.
    eexists. rewrite (syncBombs_lookup_listed bombs g b Hnd Hin), Hs.
    split; [reflexivity|].
    destruct (updateBombSprite_fields b s) as (Hd & Hx & Hy & _). done.
  - intros now explosions g e s Hin Hs.
    apply syncExplosions_lookup_owned; [|exact Hs]. by apply list_elem_of_fmap_2.
Qed.

Lemma reconciliation_updates_players_and_bombs_only_witness :
  (dom (Game.explosionSprites (Game.syncExplosions 2000 [] Sample.carolScene)) = list_to_set []
   /\ exists s' : ExplosionSprite.t,
        Game.explosionSprites
          (Game.syncExplosions 2000 [Sample.blastAt 2 2 300] Sample.aliceScene) !! "blast-1"
        = Some s'
        /\ ExplosionSprite.createdAt s' = 2000
        /\ ExplosionSprite.gridX s' = 2%R
        /\ ExplosionSprite.gridY s' = 2%R)
  /\ (exists s' : PlayerSprite.t,
     Game.playerSprites
       (Game.syncPlayers 2000 [Sample.carolAt 2 13] Sample.carolScene) !! "carol" = Some s'
     /\ PlayerSprite.data s' = Sample.carolAt 2 13
     /\ PlayerSprite.targetX s' = px (gridToPixel 2 13)
     /\ PlayerSprite.targetY s' = py (gridToPixel 2 13))
  /\ (exists s' : BombSprite.t,
     Game.bombSprites
       (Game.syncBombs [Sample.bombAt 4 3 false] Sample.carolScene) !! "bomb-1" = Some s'
     /\ BombSprite.data s' = Sample.bombAt 4 3 false
     /\ BombSprite.targetX s' = px (gridToPixel 4 3)
     /\ BombSprite.targetY s' = py (gridToPixel 4 3))
  /\ (exists s : ExplosionSprite.t,
     Game.explosionSprites Sample.carolScene !! "blast-1" = Some s
     /\ Game.explosionSprites
          (Game.syncExplosions 2000 [Sample.blastAt 2 2 300] Sample.carolScene) !! "blast-1"
        = Some s).
Proof.
  destruct reconciliation_updates_players_and_bombs_only as (Hdom & Hnew & Hp & Hb & He).
  split; [|split; [|split]].
  - split.
    + exact (proj2 (proj2 (Hdom 2000 [] [] [] Sample.carolScene))).
    + destruct (Hnew 2000 [Sample.blastAt 2 2 300] Sample.aliceScene (Sample.blastAt 2 2 300))
        as (s' & Hs' & Hc & Hx & Hy & _).
      * apply NoDup_singleton.
      * apply elem_of_cons. left. reflexivity.
      * vm_compute. reflexivity.
      * exists s'. split; [exact Hs'|]. split; [exact Hc|]. split; [exact Hx | exact Hy].
  - apply (Hp 2000 [Sample.carolAt 2 13] Sample.carolScene (Sample.carolAt 2 13)
              (PlayerSprite.mk
                 (Display.mk (px (gridToPixel 1 13)) (py (gridToPixel 1 13)) 1 1)
                 (px (gridToPixel 1 13)) (py (gridToPixel 1 13)) Sample.carol 0
                 (px (gridToPixel 1 13)) (py (gridToPixel 1 13)) 0)).
    + apply NoDup_singleton.
    + apply elem_of_cons. left. reflexivity.
    + vm_compute. reflexivity.
  - apply (Hb [Sample.bombAt 4 3 false] Sample.carolScene (Sample.bombAt 4 3 false)
              (BombSprite.mk
                 (Display.mk (px (gridToPixel 3 3)) (py (gridToPixel 3 3)) 1 1)
                 0 (px (gridToPixel 3 3)) (py (gridToPixel 3 3)) (Sample.bombAt 3 3 false)
                 0 0 None (px (gridToPixel 3 3)) (py (gridToPixel 3 3)))).
    + apply NoDup_singleton.
    + apply elem_of_cons. left. reflexivity.
    + vm_compute. reflexivity.
  - eexists. split; [vm_compute; reflexivity|].
    apply (He 2000 [Sample.blastAt 2 2 300] Sample.carolScene (Sample.blastAt 2 2 300)).
    + apply elem_of_cons. left. reflexivity.
    + vm_compute. reflexivity.
Defined.

(** ** Bomb presenter: theorems *)

Section BombFacts.
Import Game.

Lemma updateBomb_lookup b g s :
  bombSprites g !! BombData.id b = Some s ->
  bombSprites (updateBomb b g) !! BombData.id b = Some (updateBombSprite b s).
Proof.
  intros Hs. unfold updateBomb. rewrite Hs. cbn. apply lookup_insert_eq.
Qed.

(** The wrap detection on the x axis. *)
Lemma updateBombSprite_wrap_x b s :
  BombSprite.wrapBouncePhase s = 0%R ->
  BombData.isFlying b = true ->
  (Rabs (BombSprite.targetX s - px (gridToPixel (BombData.gridX b) (BombData.gridY b)))
   > 5 * IZR GAME_CONFIG.TILE_SIZE)%R ->
  BombSprite.wrapBouncePhase (updateBombSprite b s) = 0.01%R
  /\ BombSprite.wrapBounceDir (updateBombSprite b s) = Some AxisX.
Proof.
  intros Hp Hf Hd. unfold updateBombSprite. rewrite Hf. cbn [andb].
  rewrite bool_decide_eq_true_2 by (cbn; exact Hp).
  rewrite decide_True by (cbn in *; lra). by cbn.
Qed.

(** No detection below the threshold, on either axis. *)
Lemma updateBombSprite_no_wrap b s :
  (Rabs (BombSprite.targetX s - px (gridToPixel (BombData.gridX b) (BombData.gridY b)))
   <= 5 * IZR GAME_CONFIG.TILE_SIZE)%R ->
  (Rabs (BombSprite.targetY s - py (gridToPixel (BombData.gridX b) (BombData.gridY b)))
   <= 5 * IZR GAME_CONFIG.TILE_SIZE)%R ->
  BombSprite.wrapBouncePhase (updateBombSprite b s) = BombSprite.wrapBouncePhase s
  /\ BombSprite.wrapBounceDir (updateBombSprite b s) = BombSprite.wrapBounceDir s.
Proof.
  intros Hx Hy. unfold updateBombSprite.
  destruct (_ && _); [|by cbn].
  rewrite decide_False by (cbn in *; lra). rewrite decide_False by (cbn in *; lra).
  by cbn.
Qed.

End BombFacts.

(** C5: on an idle bomb sprite (wrap phase 0), an update of a flying bomb
    whose new pixel target is more than five tile widths away from the
    stored target on the x axis starts the wrap bounce on axis x; so does, in
    particular, the jump from grid column 0 to column 18 of a bomb created on
    column 0.  An update that moves the target by at most one tile on each
    axis leaves the machine as it was. *)
Theorem wrap_bounce_trigger :
  (forall (g : Game.t) (b : BombData.t) (s : BombSprite.t),
      Game.bombSprites g !! BombData.id b = Some s ->
      BombSprite.wrapBouncePhase s = 0%R ->
      BombData.isFlying b = true ->
      (Rabs (BombSprite.targetX s - px (gridToPixel (BombData.gridX b) (BombData.gridY b)))
       > 5 * IZR GAME_CONFIG.TILE_SIZE)%R ->
      exists s',
        Game.bombSprites (Game.updateBomb b g) !! BombData.id b = Some s'
        /\ BombSprite.wrapBouncePhase s' = 0.01%R
        /\ BombSprite.wrapBounceDir s' = Some AxisX)
  /\ (forall (g : Game.t) (b0 b : BombData.t),
      BombData.id b0 = BombData.id b ->
      BombData.gridX b0 = 0%R -> BombData.gridX b = 18%R ->
      BombData.isFlying b = true ->
      exists s',
        Game.bombSprites (Game.updateBomb b (Game.addBomb b0 g)) !! BombData.id b = Some s'
        /\ BombSprite.wrapBouncePhase s' = 0.01%R
        /\ BombSprite.wrapBounceDir s' = Some AxisX)
  /\ (forall (g : Game.t) (b : BombData.t) (s : BombSprite.t),
      Game.bombSprites g !! BombData.id b = Some s ->
      BombSprite.wrapBouncePhase s = 0%R ->
      (Rabs (BombSprite.targetX s - px (gridToPixel (BombData.gridX b) (BombData.gridY b)))
       <= IZR GAME_CONFIG.TILE_SIZE)%R ->
      (Rabs (BombSprite.targetY s - py (gridToPixel (BombData.gridX b) (BombData.gridY b)))
       <= IZR GAME_CONFIG.TILE_SIZE)%R ->
      exists s',
        Game.bombSprites (Game.updateBomb b g) !! BombData.id b = Some s'
        /\ BombSprite.wrapBouncePhase s' = 0%R
        /\ BombSprite.wrapBounceDir s' = BombSprite.wrapBounceDir s).
Proof.
  split; [|split].
  - intros g b s Hs Hp Hf Hd. eexists. split; [by apply updateBomb_lookup|].
    by apply updateBombSprite_wrap_x.
  - intros g b0 b Hid H0 H18 Hf. eexists. split.
    + apply updateBomb_lookup. cbn. rewrite Hid. apply lookup_insert_eq.
    + apply updateBombSprite_wrap_x; [reflexivity | exact Hf |].
      cbn. rewrite H0, H18. unfold GAME_CONFIG.TILE_SIZE.
      unfold Rabs. destruct (Rcase_abs _); lra.
  - intros g b s Hs Hp Hx Hy. eexists. split; [by apply updateBomb_lookup|].
    destruct (updateBombSprite_no_wrap b s) as [H1 H2].
    + unfold GAME_CONFIG.TILE_SIZE in *. lra.
    + unfold GAME_CONFIG.TILE_SIZE in *. lra.
    + rewrite H1, H2. done.
Qed.

Lemma wrap_bounce_trigger_witness :
  (exists s',
     Game.bombSprites
       (Game.updateBomb (Sample.bombAt 18 3 true)
          (Game.addBomb (Sample.bombAt 0 3 true) Sample.emptyScene)) !! "bomb-1" = Some s'
     /\ BombSprite.wrapBouncePhase s' = 0.01%R
     /\ BombSprite.wrapBounceDir s' = Some AxisX)
  /\ (exists s',
     Game.bombSprites
       (Game.updateBomb (Sample.bombAt 1 3 true)
          (Game.addBomb (Sample.bombAt 0 3 true) Sample.emptyScene)) !! "bomb-1" = Some s'
     /\ BombSprite.wrapBouncePhase s' = 0%R
     /\ BombSprite.wrapBounceDir s' = None).
Proof.
  destruct wrap_bounce_trigger as (Hfar & Hedge & Hnear).
  split.
  - apply (Hedge Sample.emptyScene (Sample.bombAt 0 3 true) (Sample.bombAt 18 3 true));
      reflexivity.
  - apply (Hnear (Game.addBomb (Sample.bombAt 0 3 true) Sample.emptyScene)
             (Sample.bombAt 1 3 true)
             (BombSprite.mk
                (Display.mk (px (gridToPixel 0 3)) (py (gridToPixel 0 3)) 1 1)
                0 (px (gridToPixel 0 3)) (py (gridToPixel 0 3)) (Sample.bombAt 0 3 true)
                0 0 None (px (gridToPixel 0 3)) (py (gridToPixel 0 3)))).
    + vm_compute. reflexivity.
    + reflexivity.
    + cbn. unfold GAME_CONFIG.TILE_SIZE, Rabs. destruct (Rcase_abs _); lra.
    + cbn. unfold GAME_CONFIG.TILE_SIZE, Rabs. destruct (Rcase_abs _); lra.
Defined.

Section WrapBounce.
Import Game.

(** A frame of a sprite in mid-bounce that does not reach phase 2 advances
    the phase by 0.08 and keeps the axis. *)
Lemma animateBomb_advance s :
  (0 < BombSprite.wrapBouncePhase s < 2)%R ->
  (BombSprite.wrapBouncePhase s + 0.08 < 2)%R ->
  BombSprite.wrapBouncePhase (animateBomb s) = (BombSprite.wrapBouncePhase s + 0.08)%R
  /\ BombSprite.wrapBounceDir (animateBomb s) = BombSprite.wrapBounceDir s
  /\ BombSprite.data (animateBomb s) = BombSprite.data s.
Proof.
  intros Hin Hlt. unfold animateBomb.
  rewrite bool_decide_eq_true_2 by (split; lra). cbn zeta.
  rewrite (decide_False (P := (_ >= 2)%R)) by (cbn; lra).
  destruct (decide _); [|destruct (bool_decide _)];
    destruct (BombSprite.wrapBounceDir _) as [[|]|] eqn:Hd;
    destruct (BombData.isFlying _) eqn:Hf; cbn in *; rewrite ?Hf; by cbn.
Qed.

(** The frame that carries the phase to 2 or beyond ends the bounce: the
    phase and the axis are cleared and the scale is the identity. *)
Lemma animateBomb_complete s :
  (0 < BombSprite.wrapBouncePhase s < 2)%R ->
  (BombSprite.wrapBouncePhase s + 0.08 >= 2)%R ->
  BombSprite.wrapBouncePhase (animateBomb s) = 0%R
  /\ BombSprite.wrapBounceDir (animateBomb s) = None
  /\ Display.scaleX (BombSprite.graphics (animateBomb s)) = 1%R
  /\ Display.scaleY (BombSprite.graphics (animateBomb s)) = 1%R.
Proof.
  intros Hin Hge. unfold animateBomb.
  rewrite bool_decide_eq_true_2 by (split; lra). cbn zeta.
  rewrite (decide_True (P := (_ >= 2)%R)) by (cbn; lra).
  destruct (decide _); [|destruct (bool_decide _)];
    destruct (BombSprite.wrapBounceDir _) as [[|]|] eqn:Hd;
    destruct (BombData.isFlying _) eqn:Hf; cbn in *; rewrite ?Hf; by cbn.
Qed.

(** An idle sprite stays idle and its scale is not touched. *)
Lemma animateBomb_idle s :
  BombSprite.wrapBouncePhase s = 0%R ->
  BombSprite.wrapBouncePhase (animateBomb s) = 0%R
  /\ BombSprite.wrapBounceDir (animateBomb s) = BombSprite.wrapBounceDir s
  /\ Display.scaleX (BombSprite.graphics (animateBomb s))
     = Display.scaleX (BombSprite.graphics s)
  /\ Display.scaleY (BombSprite.graphics (animateBomb s))
     = Display.scaleY (BombSprite.graphics s).
Proof.
  intros H0. unfold animateBomb.
  rewrite bool_decide_eq_false_2 by (intros [? ?]; lra).
  by destruct (BombData.isFlying _) eqn:Hf; cbn; rewrite ?Hf.
Qed.

End WrapBounce.

Section WrapBounceRun.
Import Game.




End WrapBounceRun.


(** Started by the trigger at phase 0.01, the bounce takes exactly 25
    frames. *)
Lemma wrap_bounce_from_trigger_phase (s : BombSprite.t) (k : nat) :
  BombSprite.wrapBouncePhase s = 0.01%R ->
  (k < 25)%nat ->
  BombSprite.wrapBouncePhase (Nat.iter k Game.animateBomb s) = (0.01 + 0.08 * INR k)%R.
Proof.
  intros Hs. induction k as [|k IH]; intros Hk.
  - cbn. rewrite Hs. lra.
  - cbn [Nat.iter nat_rect]. specialize (IH ltac:(lia)).
    assert (Hb : (INR k <= 23)%R).
    { replace 23%R with (INR 23) by (cbn; lra). apply le_INR. lia. }
    pose proof (pos_INR k) as Hpos.
    destruct (animateBomb_advance (Nat.iter k Game.animateBomb s)) as (Hp & _ & _).
    + unfold Nat.iter in *. rewrite IH. lra.
    + unfold Nat.iter in *. rewrite IH. lra.
    + unfold Nat.iter in *. rewrite Hp, IH, S_INR. lra.
Qed.


(** ** Camera: theorems *)

Section CameraFacts.
Import Game.

(** The clamp of [updateCamera]: whatever is clamped, the result lies
    between the two bounds when the lower one is not positive. *)
Lemma clamp_bounds (lo v : R) :
  (lo <= 0)%R -> (lo <= Rmin 0 (Rmax lo v) <= 0)%R.
Proof.
  intros Hlo. split.
  - apply Rmin_glb; [exact Hlo | apply Rmax_l].
  - apply Rmin_l.
Qed.

Lemma cameraTargetX_bounds vp g :
  let worldWidth := (IZR GAME_CONFIG.GRID_WIDTH * IZR GAME_CONFIG.TILE_SIZE)%R in
  (Viewport.containerWidth vp < worldWidth)%R ->
  (- (worldWidth - Viewport.containerWidth vp) <= cameraTargetX vp g <= 0)%R.
Proof.
  intros ww Hlt. unfold cameraTargetX. fold ww.
  rewrite decide_False by lra.
  destruct (localSprite g) as [s|]; [|lra].
  replace (- (ww - Viewport.containerWidth vp))%R
    with (- ww + Viewport.containerWidth vp)%R by lra.
  apply clamp_bounds. lra.
Qed.

Lemma cameraTargetY_bounds vp g :
  let worldHeight := (IZR GAME_CONFIG.GRID_HEIGHT * IZR GAME_CONFIG.TILE_SIZE)%R in
  (Viewport.containerHeight vp < worldHeight)%R ->
  (- (worldHeight - Viewport.containerHeight vp) <= cameraTargetY vp g <= 0)%R.
Proof.
  intros wh Hlt. unfold cameraTargetY. fold wh.
  rewrite decide_False by lra.
  destruct (localSprite g) as [s|]; [|lra].
  replace (- (wh - Viewport.containerHeight vp))%R
    with (- wh + Viewport.containerHeight vp)%R by lra.
  apply clamp_bounds. lra.
Qed.

End CameraFacts.

Section CameraStep.
Import Game.

(** [updateCamera] moves the camera a tenth of the way to the two targets
    and puts the world container on the camera. *)
Lemma updateCamera_step vp g :
  cameraX (updateCamera vp g) = lerp (cameraX g) (cameraTargetX vp g) 0.1
  /\ cameraY (updateCamera vp g) = lerp (cameraY g) (cameraTargetY vp g) 0.1
  /\ Display.x (worldContainer (updateCamera vp g)) = cameraX (updateCamera vp g)
  /\ Display.y (worldContainer (updateCamera vp g)) = cameraY (updateCamera vp g).
Proof. unfold updateCamera. cbn. done. Qed.

(** The sprite that the camera follows is the player sprite stored under
    the local socket id. *)
Lemma localSprite_found g me sprite :
  mySocketId g = Some me -> me <> EmptyString -> playerSprites g !! me = Some sprite ->
  localSprite g = Some sprite.
Proof.
  intros Hme Hne Hs. unfold localSprite. rewrite Hme.
  destruct me; [done|]. exact Hs.
Qed.

Lemma localSprite_missing g :
  (mySocketId g = None
   \/ mySocketId g = Some EmptyString
   \/ exists me, mySocketId g = Some me /\ playerSprites g !! me = None) ->
  localSprite g = None.
Proof.
  unfold localSprite. intros [H|[H|(me & H & Hn)]]; rewrite H; [done..|].
  by destruct (truthy me).
Qed.

End CameraStep.

(** C7: the scroll target of a frame, axis by axis.  [updateCamera] moves
    the camera a tenth of the way to a target and puts the world container
    on the camera.  When the world fits in the viewport the horizontal
    target centres the world and the vertical target is 0 (top edge).  When
    it does not fit, the target is the eased position of the local player,
    that is of the player sprite stored under the local socket id,
    re-centred and clamped to [[-(worldSize - viewportSize), 0]], so it lies
    within these bounds wherever the sprite is; without a local socket id or
    without a sprite under it the target is 0. *)
Theorem camera_target_bounds :
  forall (vp : Viewport.t) (g : Game.t),
    let worldWidth := (IZR GAME_CONFIG.GRID_WIDTH * IZR GAME_CONFIG.TILE_SIZE)%R in
    let worldHeight := (IZR GAME_CONFIG.GRID_HEIGHT * IZR GAME_CONFIG.TILE_SIZE)%R in
    let viewWidth := Viewport.containerWidth vp in
    let viewHeight := Viewport.containerHeight vp in
    let targetX := Game.cameraTargetX vp g in
    let targetY := Game.cameraTargetY vp g in
      Game.cameraX (Game.updateCamera vp g) = Game.lerp (Game.cameraX g) targetX 0.1
      /\ Game.cameraY (Game.updateCamera vp g) = Game.lerp (Game.cameraY g) targetY 0.1
      /\ Display.x (Game.worldContainer (Game.updateCamera vp g))
         = Game.cameraX (Game.updateCamera vp g)
      /\ Display.y (Game.worldContainer (Game.updateCamera vp g))
         = Game.cameraY (Game.updateCamera vp g)
      /\ ((worldWidth <= viewWidth)%R -> targetX = ((viewWidth - worldWidth) / 2)%R)
      /\ ((worldHeight <= viewHeight)%R -> targetY = 0%R)
      /\ ((viewWidth < worldWidth)%R ->
          (- (worldWidth - viewWidth) <= targetX <= 0)%R
          /\ (forall me sprite,
                Game.mySocketId g = Some me -> me <> EmptyString ->
                Game.playerSprites g !! me = Some sprite ->
                targetX
                = Rmin 0 (Rmax (- (worldWidth - viewWidth))
                               (- Display.x (PlayerSprite.container sprite) + viewWidth / 2)))
          /\ (Game.mySocketId g = None
              \/ Game.mySocketId g = Some EmptyString
              \/ (exists me, Game.mySocketId g = Some me
                             /\ Game.playerSprites g !! me = None) ->
              targetX = 0%R))
      /\ ((viewHeight < worldHeight)%R ->
          (- (worldHeight - viewHeight) <= targetY <= 0)%R
          /\ (forall me sprite,
                Game.mySocketId g = Some me -> me <> EmptyString ->
                Game.playerSprites g !! me = Some sprite ->
                targetY
                = Rmin 0 (Rmax (- (worldHeight - viewHeight))
                               (- Display.y (PlayerSprite.container sprite) + viewHeight / 2)))
          /\ (Game.mySocketId g = None
              \/ Game.mySocketId g = Some EmptyString
              \/ (exists me, Game.mySocketId g = Some me
                             /\ Game.playerSprites g !! me = None) ->
              targetY = 0%R)).
Proof.
  intros vp g ww wh vw vh tx ty. subst tx ty.
  destruct (updateCamera_step vp g) as (Hcx & Hcy & Hwx & Hwy).
  split; [exact Hcx|]. split; [exact Hcy|]. split; [exact Hwx|]. split; [exact Hwy|].
  split; [|split; [|split]].
  - intros H. unfold Game.cameraTargetX. fold ww vw. by rewrite decide_True.
  - intros H. unfold Game.cameraTargetY. fold wh vh. by rewrite decide_True.
  - intros H. split; [apply (cameraTargetX_bounds vp g); exact H|]. split.
    + intros me sprite Hme Hne Hs.
      unfold Game.cameraTargetX. fold ww vw. rewrite decide_False by lra.
      rewrite (localSprite_found g me sprite Hme Hne Hs). f_equal. f_equal. lra.
    + intros Hnone. unfold Game.cameraTargetX. fold ww vw. rewrite decide_False by lra.
      by rewrite (localSprite_missing g Hnone).
  - intros H. split; [apply (cameraTargetY_bounds vp g); exact H|]. split.
    + intros me sprite Hme Hne Hs.
      unfold Game.cameraTargetY. fold wh vh. rewrite decide_False by lra.
      rewrite (localSprite_found g me sprite Hme Hne Hs). f_equal. f_equal. lra.
    + intros Hnone. unfold Game.cameraTargetY. fold wh vh. rewrite decide_False by lra.
      by rewrite (localSprite_missing g Hnone).
Qed.

Lemma camera_target_bounds_witness :
  Game.cameraX (Game.updateCamera Sample.phone Sample.followScene) = (-18)%R
  /\ Game.cameraY (Game.updateCamera Sample.phone Sample.followScene) = (-15)%R
  /\ Game.cameraX (Game.updateCamera Sample.desktop Sample.followScene) = 26%R
  /\ Game.cameraY (Game.updateCamera Sample.desktop Sample.followScene) = 0%R.
Proof.
  destruct (camera_target_bounds Sample.phone Sample.followScene)
    as (Hcx & Hcy & _ & _ & _ & _ & Hx & Hy).
  destruct (camera_target_bounds Sample.desktop Sample.followScene)
    as (Hdx & Hdy & _ & _ & Hfx & Hfy & _ & _).
  assert (Hpw : Viewport.containerWidth Sample.phone = 400%R).
  { unfold Viewport.containerWidth, numOr. cbn. destruct (decide _); [lra | reflexivity]. }
  assert (Hph : Viewport.containerHeight Sample.phone = 300%R).
  { unfold Viewport.containerHeight, numOr. cbn. destruct (decide _); [lra | reflexivity]. }
  assert (Hdw : Viewport.containerWidth Sample.desktop = 1280%R).
  { unfold Viewport.containerWidth, numOr. cbn. destruct (decide _); [lra | reflexivity]. }
  assert (Hdh : Viewport.containerHeight Sample.desktop = 720%R).
  { unfold Viewport.containerHeight, numOr. cbn. destruct (decide _); [lra | reflexivity]. }
  assert (Hsprite : Game.playerSprites Sample.followScene !! "carol"
                    = Some (PlayerSprite.mk
                              (Display.mk (px (gridToPixel 9 7)) (py (gridToPixel 9 7)) 1 1)
                              (px (gridToPixel 9 7)) (py (gridToPixel 9 7))
                              (Sample.carolAt 9 7) 0
                              (px (gridToPixel 9 7)) (py (gridToPixel 9 7)) 0))
    by (vm_compute; reflexivity).
  assert (Hne : "carol" <> EmptyString) by discriminate.
  assert (Hc0 : Game.cameraX Sample.followScene = 0%R /\ Game.cameraY Sample.followScene = 0%R)
    by (split; reflexivity).
  destruct Hc0 as [Hx0 Hy0].
  rewrite Hpw in Hx. rewrite Hph in Hy. rewrite Hdw in Hfx. rewrite Hdh in Hfy.
  unfold GAME_CONFIG.GRID_WIDTH, GAME_CONFIG.GRID_HEIGHT, GAME_CONFIG.TILE_SIZE in *.
  destruct Hx as (_ & Hx & _); [lra|].
  destruct Hy as (_ & Hy & _); [lra|].
  rewrite Hcx, Hcy, Hdx, Hdy, Hx0, Hy0.
  rewrite (Hx "carol" _ eq_refl Hne Hsprite), (Hy "carol" _ eq_refl Hne Hsprite).
  rewrite Hfx, Hfy by lra.
  cbn [PlayerSprite.container Display.x Display.y px py gridToPixel].
  unfold GAME_CONFIG.TILE_SIZE, Game.lerp.
  replace (Rmax (- (19 * 40 - 400)) (- (9 * 40 + 40 / 2) + 400 / 2))%R with (-180)%R
    by (rewrite Rmax_right; lra).
  replace (Rmax (- (15 * 40 - 300)) (- (7 * 40 + 40 / 2) + 300 / 2))%R with (-150)%R
    by (rewrite Rmax_right; lra).
  rewrite !Rmin_right by lra.
  repeat split; lra.
Defined.

(** ** Screen shake: theorems *)

Section ShakeFacts.
Import Game.

(** The trigger, once the local player's sprite has been found. *)
Lemma triggerExplosionShake_local ex ey g ls :
  localSprite g = Some ls ->
  triggerExplosionShake ex ey g
  = if decide (gridDistance ls ex ey < 6)%R
    then set_shakeIntensity
           (Rmax (shakeIntensity g) ((1 - gridDistance ls ex ey / 6) * 12)%R) g
    else g.
Proof.
  unfold localSprite, triggerExplosionShake. intros H.
  destruct (mySocketId g) as [me|]; [|discriminate].
  destruct (truthy me); [|discriminate]. cbn [negb].
  rewrite H. reflexivity.
Qed.

(** Without a local player's sprite the trigger does nothing. *)
Lemma triggerExplosionShake_no_local ex ey g :
  localSprite g = None -> triggerExplosionShake ex ey g = g.
Proof.
  unfold localSprite, triggerExplosionShake. intros H.
  destruct (mySocketId g) as [me|]; [|reflexivity].
  destruct (truthy me); [|reflexivity]. cbn [negb].
  rewrite H. reflexivity.
Qed.

Lemma triggerExplosionShake_localSprite ex ey g :
  localSprite (triggerExplosionShake ex ey g) = localSprite g.
Proof.
  unfold localSprite at 1.
  rewrite (proj1 (triggerExplosionShake_frame ex ey g)).
  replace (mySocketId (triggerExplosionShake ex ey g)) with (mySocketId g); [reflexivity|].
  unfold triggerExplosionShake. repeat case_match; cbn; congruence.
Qed.

Lemma triggerExplosionShake_within ex ey g ls :
  localSprite g = Some ls ->
  (gridDistance ls ex ey < 6)%R ->
  shakeIntensity (triggerExplosionShake ex ey g)
  = Rmax (shakeIntensity g) ((1 - gridDistance ls ex ey / 6) * 12)%R.
Proof.
  intros Hls Hd. rewrite (triggerExplosionShake_local ex ey g ls Hls).
  by rewrite decide_True.
Qed.

Lemma triggerExplosionShake_beyond ex ey g ls :
  localSprite g = Some ls ->
  (6 <= gridDistance ls ex ey)%R ->
  triggerExplosionShake ex ey g = g.
Proof.
  intros Hls Hd. rewrite (triggerExplosionShake_local ex ey g ls Hls).
  rewrite decide_False; [reflexivity | lra].
Qed.

Lemma gridDistance_nonneg ls ex ey : (0 <= gridDistance ls ex ey)%R.
Proof. apply sqrt_pos. Qed.

(** The shake intensity is never negative: it starts at 0, a trigger only
    raises it and a frame scales it down or clears it. *)
Lemma triggerExplosionShake_nonneg ex ey g :
  (0 <= shakeIntensity g)%R -> (0 <= shakeIntensity (triggerExplosionShake ex ey g))%R.
Proof.
  intros H. destruct (localSprite g) as [ls|] eqn:Hls.
  - rewrite (triggerExplosionShake_local ex ey g ls Hls).
    destruct (decide _); [|exact H]. cbn.
    eapply Rle_trans; [exact H | apply Rmax_l].
  - by rewrite triggerExplosionShake_no_local.
Qed.

Lemma applyShake_nonneg rx ry g :
  (0 <= shakeIntensity g)%R -> (0 <= shakeIntensity (applyShake rx ry g))%R.
Proof.
  intros H. unfold applyShake.
  destruct (decide _); [|exact H]. cbn.
  destruct (decide _); cbn; unfold shakeDecay; [lra | nra].
Qed.

End ShakeFacts.

(** C8: with the local player's sprite on the scene, a trigger at grid
    distance [d] below 6 cells sets the shake intensity to the maximum of
    the current intensity and [(1 - d / 6) * 12]; at 6 cells or beyond it
    leaves the scene as it is (an impulse of intensity zero).  The impulse
    is strictly weaker the farther the explosion.  Two triggers in a row
    leave the maximum of the current intensity and of the two impulses, not
    their sum. *)
Theorem shake_trigger_takes_maximum :
  forall (g : Game.t) (ls : PlayerSprite.t),
    Game.localSprite g = Some ls ->
    (forall ex ey : R,
        (gridDistance ls ex ey < 6)%R ->
        Game.shakeIntensity (Game.triggerExplosionShake ex ey g)
        = Rmax (Game.shakeIntensity g) ((1 - gridDistance ls ex ey / 6) * 12)%R)
    /\ (forall ex ey : R,
        (6 <= gridDistance ls ex ey)%R ->
        Game.triggerExplosionShake ex ey g = g
        /\ ((0 <= Game.shakeIntensity g)%R ->
            Game.shakeIntensity (Game.triggerExplosionShake ex ey g)
            = Rmax (Game.shakeIntensity g) 0))
    /\ (forall ex1 ey1 ex2 ey2 : R,
        Game.shakeIntensity g = 0%R ->
        (gridDistance ls ex1 ey1 < gridDistance ls ex2 ey2)%R ->
        (gridDistance ls ex1 ey1 < 6)%R ->
        (Game.shakeIntensity (Game.triggerExplosionShake ex2 ey2 g)
         < Game.shakeIntensity (Game.triggerExplosionShake ex1 ey1 g))%R)
    /\ (forall ex1 ey1 ex2 ey2 : R,
        (gridDistance ls ex1 ey1 < 6)%R ->
        (gridDistance ls ex2 ey2 < 6)%R ->
        Game.shakeIntensity
          (Game.triggerExplosionShake ex2 ey2 (Game.triggerExplosionShake ex1 ey1 g))
        = Rmax (Game.shakeIntensity g)
               (Rmax ((1 - gridDistance ls ex1 ey1 / 6) * 12)
                     ((1 - gridDistance ls ex2 ey2 / 6) * 12))%R).
Proof.
  intros g ls Hls. split; [|split; [|split]].
  - intros ex ey Hd. by apply triggerExplosionShake_within.
  - intros ex ey Hd. rewrite (triggerExplosionShake_beyond ex ey g ls Hls Hd).
    split; [reflexivity|]. intros H0. by rewrite Rmax_left.
  - intros ex1 ey1 ex2 ey2 H0 Hlt H1.
    rewrite (triggerExplosionShake_within ex1 ey1 g ls Hls H1), H0.
    rewrite (triggerExplosionShake_local ex2 ey2 g ls Hls).
    pose proof (gridDistance_nonneg ls ex1 ey1) as Hpos.
    destruct (decide _) as [H2|H2]; cbn; rewrite ?H0.
    + unfold Rmax. repeat destruct (Rle_dec _ _); lra.
    + unfold Rmax. destruct (Rle_dec _ _); lra.
  - intros ex1 ey1 ex2 ey2 H1 H2.
    rewrite (triggerExplosionShake_within ex2 ey2 _ ls);
      [|by rewrite triggerExplosionShake_localSprite | exact H2].
    rewrite (triggerExplosionShake_within ex1 ey1 g ls Hls H1).
    by rewrite Rmax_assoc.
Qed.

Lemma shake_trigger_takes_maximum_witness :
  Game.shakeIntensity (Game.triggerExplosionShake 4.5 1 Sample.aliceScene) = 5%R
  /\ Game.shakeIntensity (Game.triggerExplosionShake 3 1 Sample.aliceScene) = 8%R
  /\ Game.shakeIntensity
       (Game.triggerExplosionShake 3 1 (Game.triggerExplosionShake 4.5 1 Sample.aliceScene))
     = 8%R
  /\ Game.shakeIntensity
       (Game.triggerExplosionShake 4.5 1 (Game.triggerExplosionShake 3 1 Sample.aliceScene))
     = 8%R
  /\ Game.triggerExplosionShake 7 1 Sample.aliceScene = Sample.aliceScene.
Proof.
  assert (Hls : Game.localSprite Sample.aliceScene = Some Sample.aliceSprite)
    by (vm_compute; reflexivity).
  destruct (shake_trigger_takes_maximum Sample.aliceScene Sample.aliceSprite Hls)
    as (Hone & Hfar & _ & Htwo).
  assert (H0 : Game.shakeIntensity Sample.aliceScene = 0%R) by (vm_compute; reflexivity).
  assert (Hd5 : gridDistance Sample.aliceSprite 4.5 1 = 3.5%R).
  { unfold gridDistance. cbn.
    replace ((1 - 4.5) * (1 - 4.5) + (1 - 1) * (1 - 1))%R with (Rsqr 3.5)
      by (unfold Rsqr; lra).
    apply sqrt_Rsqr. lra. }
  assert (Hd8 : gridDistance Sample.aliceSprite 3 1 = 2%R).
  { unfold gridDistance. cbn.
    replace ((1 - 3) * (1 - 3) + (1 - 1) * (1 - 1))%R with (Rsqr 2)
      by (unfold Rsqr; lra).
    apply sqrt_Rsqr. lra. }
  assert (Hd0 : gridDistance Sample.aliceSprite 7 1 = 6%R).
  { unfold gridDistance. cbn.
    replace ((1 - 7) * (1 - 7) + (1 - 1) * (1 - 1))%R with (Rsqr 6)
      by (unfold Rsqr; lra).
    apply sqrt_Rsqr. lra. }
  repeat split.
  - rewrite Hone, Hd5, H0 by (rewrite Hd5; lra).
    unfold Rmax. destruct (Rle_dec _ _); lra.
  - rewrite Hone, Hd8, H0 by (rewrite Hd8; lra).
    unfold Rmax. destruct (Rle_dec _ _); lra.
  - rewrite Htwo, Hd5, Hd8, H0 by (rewrite ?Hd5, ?Hd8; lra).
    unfold Rmax. repeat destruct (Rle_dec _ _); lra.
  - rewrite Htwo, Hd5, Hd8, H0 by (rewrite ?Hd5, ?Hd8; lra).
    unfold Rmax. repeat destruct (Rle_dec _ _); lra.
  - apply Hfar. rewrite Hd0. lra.
Defined.

(** ** Player presenter: theorems *)

Section PlayerFacts.
Import Game.

Lemma syncPlayers_initialized now players g :
  initialized (syncPlayers now players g) = initialized g.
Proof.
  unfold syncPlayers.
  rewrite (foldl_preserves initialized); [rewrite (foldl_preserves initialized)|].
  - reflexivity.
  - intros g' id. destruct (decide _); [reflexivity|].
    unfold removePlayer. by destruct (playerSprites g' !! id).
  - intros g' p. destruct (decide _); [|reflexivity].
    unfold updatePlayer. by destruct (playerSprites g' !! Player.socketId p).
Qed.

Lemma syncBombs_initialized bombs g :
  initialized (syncBombs bombs g) = initialized g.
Proof.
  unfold syncBombs.
  rewrite (foldl_preserves initialized); [rewrite (foldl_preserves initialized)|].
  - reflexivity.
  - intros g' id. destruct (decide _); [reflexivity|].
    unfold removeBomb. by destruct (bombSprites g' !! id).
  - intros g' b. destruct (decide _); [|reflexivity].
    unfold updateBomb. by destruct (bombSprites g' !! BombData.id b).
Qed.

Lemma syncExplosions_initialized now explosions g :
  initialized (syncExplosions now explosions g) = initialized g.
Proof.
  unfold syncExplosions.
  rewrite (foldl_preserves initialized); [rewrite (foldl_preserves initialized)|].
  - reflexivity.
  - intros g' id. destruct (decide _); [reflexivity|].
    unfold removeExplosion. by destruct (explosionSprites g' !! id).
  - intros g' e. destruct (decide _); [reflexivity|].
    unfold addExplosion, triggerExplosionShake. repeat case_match; reflexivity.
Qed.

Lemma updateFromLobby_initialized now lobby g :
  initialized (updateFromLobby now lobby g) = initialized g.
Proof.
  unfold updateFromLobby. destruct (initialized g) eqn:Hi; cbn [negb]; [|exact Hi].
  destruct (Lobby.gameData lobby ≫= GameData.explosions);
    rewrite ?syncExplosions_initialized;
    destruct (Lobby.gameData lobby ≫= GameData.bombs);
    rewrite ?syncBombs_initialized, syncPlayers_initialized;
    by destruct (Lobby.gameData lobby ≫= GameData.tiles).
Qed.

(** The player sprites after a reconciliation are those that [syncPlayers]
    leaves. *)
Lemma updateFromLobby_playerSprites now lobby g :
  initialized g = true ->
  exists g0,
    playerSprites g0 = playerSprites g /\ globalTime g0 = globalTime g
    /\ playerSprites (updateFromLobby now lobby g)
       = playerSprites (syncPlayers now (Lobby.players lobby) g0).
Proof.
  intros Hi. unfold updateFromLobby. rewrite Hi. cbn [negb].
  eexists. split; [|split]; cycle 2.
  - destruct (Lobby.gameData lobby ≫= GameData.explosions);
      rewrite ?(proj1 (syncExplosions_others _ _ _));
      destruct (Lobby.gameData lobby ≫= GameData.bombs);
      rewrite ?syncBombs_players; reflexivity.
  - by destruct (Lobby.gameData lobby ≫= GameData.tiles).
  - by destruct (Lobby.gameData lobby ≫= GameData.tiles).
Qed.

(** What a reconciliation leaves under the id of a listed player. *)
Lemma updateFromLobby_lookup_listed now lobby g p :
  initialized g = true ->
  NoDup (Player.socketId <$> Lobby.players lobby) -> p ∈ Lobby.players lobby ->
  playerSprites (updateFromLobby now lobby g) !! Player.socketId p
  = match playerSprites g !! Player.socketId p with
    | Some s => Some (updatePlayerSprite now (globalTime g) p s)
    | None => playerSprites (addPlayer p g) !! Player.socketId p
    end.
Proof.
  intros Hi Hnd Hin.
  destruct (updateFromLobby_playerSprites now lobby g Hi) as (g0 & Hps & Hgt & ->).
  rewrite (syncPlayers_lookup_listed now _ g0 p Hnd Hin), Hps, Hgt.
  destruct (playerSprites g !! Player.socketId p); [reflexivity|].
  cbn. rewrite Hps. reflexivity.
Qed.

(** [updatePlayer] stamps the death time on the alive-to-dead edge only. *)
Lemma updatePlayerSprite_deathTime now gt d s :
  PlayerSprite.deathTime (updatePlayerSprite now gt d s)
  = if negb (Player.alive d) && Player.alive (PlayerSprite.data s)
    then now else PlayerSprite.deathTime s.
Proof.
  unfold updatePlayerSprite.
  destruct (Player.alive d), (Player.alive (PlayerSprite.data s));
    cbn; by destruct (decide _).
Qed.

Lemma updatePlayerSprite_data now gt d s :
  PlayerSprite.data (updatePlayerSprite now gt d s) = d.
Proof. reflexivity. Qed.

End PlayerFacts.

Section DeathFacts.
Import Game.

(** A dead sprite that carries a death time keeps it across a
    reconciliation that still reports the player dead. *)
Lemma dead_stays_stamped id t0 now lobby g :
  initialized g = true ->
  reportsDead id lobby ->
  (exists s, playerSprites g !! id = Some s
             /\ Player.alive (PlayerSprite.data s) = false
             /\ PlayerSprite.deathTime s = t0) ->
  exists s, playerSprites (updateFromLobby now lobby g) !! id = Some s
            /\ Player.alive (PlayerSprite.data s) = false
            /\ PlayerSprite.deathTime s = t0.
Proof.
  intros Hi (Hnd & p & Hin & <- & Hdead) (s & Hs & Hsd & Hst).
  eexists. rewrite (updateFromLobby_lookup_listed now lobby g p Hi Hnd Hin), Hs.
  split; [reflexivity|]. split; [exact Hdead|].
  rewrite updatePlayerSprite_deathTime, Hsd, Hdead. exact Hst.
Qed.

Lemma dead_stays_stamped_all id t0 snapshots :
  forall g,
    initialized g = true ->
    Forall (fun tl => reportsDead id tl.2) snapshots ->
    (exists s, playerSprites g !! id = Some s
               /\ Player.alive (PlayerSprite.data s) = false
               /\ PlayerSprite.deathTime s = t0) ->
    exists s, playerSprites (reconcileAll snapshots g) !! id = Some s
              /\ Player.alive (PlayerSprite.data s) = false
              /\ PlayerSprite.deathTime s = t0.
Proof.
  induction snapshots as [|[t l] rest IH]; intros g Hi Hall Hg; [exact Hg|].
  apply Forall_cons in Hall as [Hl Hrest].
  unfold reconcileAll. cbn [foldl]. apply IH; [|exact Hrest|].
  - by rewrite updateFromLobby_initialized.
  - by apply dead_stays_stamped.
Qed.

End DeathFacts.

(** C9: a player whose sprite stores [alive = true] is reported dead by a
    reconciliation at time [t0]: the death-start timestamp of the sprite
    becomes [t0].  After any number of further reconciliations that still
    report the player dead, at whatever times, the timestamp is still
    [t0]. *)
Theorem death_timestamp_recorded_once :
  forall (g : Game.t) (id : string) (s : PlayerSprite.t)
         (t0 : Z) (first : Lobby.t) (later : list (Z * Lobby.t)),
    Game.initialized g = true ->
    Game.playerSprites g !! id = Some s ->
    Player.alive (PlayerSprite.data s) = true ->
    reportsDead id first ->
    Forall (fun tl => reportsDead id tl.2) later ->
    forall n : nat,
      PlayerSprite.deathTime
        <$> Game.playerSprites
              (reconcileAll (take n later) (Game.updateFromLobby t0 first g)) !! id
      = Some t0.
Proof.
  intros g id s t0 first later Hi Hs Halive Hfirst Hlater n.
  destruct (dead_stays_stamped_all id t0 (take n later) (Game.updateFromLobby t0 first g))
    as (s' & Hs' & _ & Ht).
  - by rewrite updateFromLobby_initialized.
  - by apply Forall_take.
  - destruct Hfirst as (Hnd & p & Hin & <- & Hdead).
    eexists. rewrite (updateFromLobby_lookup_listed t0 first g p Hi Hnd Hin), Hs.
    split; [reflexivity|]. split; [exact Hdead|].
    by rewrite updatePlayerSprite_deathTime, Halive, Hdead.
  - by rewrite Hs', <- Ht.
Qed.

Lemma death_timestamp_recorded_once_witness :
  PlayerSprite.deathTime
    <$> Game.playerSprites
          (reconcileAll [(5050, Sample.aliceDown); (5100, Sample.aliceDown)]
             (Game.updateFromLobby 5000 Sample.aliceDown Sample.aliceScene)) !! "alice"
  = Some 5000.
Proof.
  assert (Hdown : reportsDead "alice" Sample.aliceDown).
  { split.
    - apply NoDup_cons. split; [|apply NoDup_singleton].
      intros H. apply list_elem_of_singleton in H. discriminate H.
    - exists Sample.aliceDead. split; [|split]; [|reflexivity|reflexivity].
      apply elem_of_cons. left. reflexivity. }
  apply (death_timestamp_recorded_once Sample.aliceScene "alice" Sample.aliceSprite 5000
           Sample.aliceDown
           [(5050, Sample.aliceDown); (5100, Sample.aliceDown); (9000, Sample.aliceDown)]
           eq_refl)
    with (n := 2%nat).
  - vm_compute. reflexivity.
  - reflexivity.
  - exact Hdown.
  - repeat (apply Forall_cons; split; [exact Hdown|]). apply Forall_nil. exact I.
Defined.

Section FirstAppearance.
Import Game.

Lemma syncPlayers_bombs now players g :
  bombSprites (syncPlayers now players g) = bombSprites g.
Proof.
  unfold syncPlayers.
  rewrite (foldl_preserves bombSprites); [rewrite (foldl_preserves bombSprites)|].
  - reflexivity.
  - intros g' id. destruct (decide _); [reflexivity|].
    unfold removePlayer. by destruct (playerSprites g' !! id).
  - intros g' p. destruct (decide _); [|reflexivity].
    unfold updatePlayer. by destruct (playerSprites g' !! Player.socketId p).
Qed.

(** The bomb sprites after a reconciliation are those that [syncBombs]
    leaves. *)
Lemma updateFromLobby_bombSprites now lobby bombs g :
  initialized g = true ->
  Lobby.gameData lobby ≫= GameData.bombs = Some bombs ->
  exists g0,
    bombSprites g0 = bombSprites g
    /\ bombSprites (updateFromLobby now lobby g) = bombSprites (syncBombs bombs g0).
Proof.
  intros Hi Hb. unfold updateFromLobby. rewrite Hi, Hb. cbn [negb].
  eexists. split; cycle 1.
  - destruct (Lobby.gameData lobby ≫= GameData.explosions);
      rewrite ?(proj2 (syncExplosions_others _ _ _)); reflexivity.
  - rewrite syncPlayers_bombs. by destruct (Lobby.gameData lobby ≫= GameData.tiles).
Qed.

End FirstAppearance.

(** C10: a player or a bomb that a snapshot lists (once) and that has no
    sprite yet gets one by the reconciliation; the position of the new
    display object is the centre of the authoritative cell,
    [(gridX * TILE_SIZE + TILE_SIZE / 2, gridY * TILE_SIZE + TILE_SIZE / 2)],
    which is [gridToPixel gridX gridY], and its interpolation target is the
    same point. *)
Theorem first_appearance_placement :
  (forall (now : Z) (lobby : Lobby.t) (g : Game.t) (p : Player.t),
      Game.initialized g = true ->
      NoDup (Player.socketId <$> Lobby.players lobby) ->
      p ∈ Lobby.players lobby ->
      Game.playerSprites g !! Player.socketId p = None ->
      exists s,
        Game.playerSprites (Game.updateFromLobby now lobby g) !! Player.socketId p = Some s
        /\ Display.x (PlayerSprite.container s)
           = (Player.gridX p * IZR GAME_CONFIG.TILE_SIZE + IZR GAME_CONFIG.TILE_SIZE / 2)%R
        /\ Display.y (PlayerSprite.container s)
           = (Player.gridY p * IZR GAME_CONFIG.TILE_SIZE + IZR GAME_CONFIG.TILE_SIZE / 2)%R
        /\ mkPoint (Display.x (PlayerSprite.container s)) (Display.y (PlayerSprite.container s))
           = gridToPixel (Player.gridX p) (Player.gridY p)
        /\ PlayerSprite.targetX s = Display.x (PlayerSprite.container s)
        /\ PlayerSprite.targetY s = Display.y (PlayerSprite.container s))
  /\ (forall (now : Z) (lobby : Lobby.t) (bombs : list BombData.t)
             (g : Game.t) (b : BombData.t),
      Game.initialized g = true ->
      Lobby.gameData lobby ≫= GameData.bombs = Some bombs ->
      NoDup (BombData.id <$> bombs) ->
      b ∈ bombs ->
      Game.bombSprites g !! BombData.id b = None ->
      exists s,
        Game.bombSprites (Game.updateFromLobby now lobby g) !! BombData.id b = Some s
        /\ Display.x (BombSprite.graphics s)
           = (BombData.gridX b * IZR GAME_CONFIG.TILE_SIZE + IZR GAME_CONFIG.TILE_SIZE / 2)%R
        /\ Display.y (BombSprite.graphics s)
           = (BombData.gridY b * IZR GAME_CONFIG.TILE_SIZE + IZR GAME_CONFIG.TILE_SIZE / 2)%R
        /\ mkPoint (Display.x (BombSprite.graphics s)) (Display.y (BombSprite.graphics s))
           = gridToPixel (BombData.gridX b) (BombData.gridY b)
        /\ BombSprite.targetX s = Display.x (BombSprite.graphics s)
        /\ BombSprite.targetY s = Display.y (BombSprite.graphics s)).
Proof.
  split.
  - intros now lobby g p Hi Hnd Hin Hnew. eexists.
    rewrite (updateFromLobby_lookup_listed now lobby g p Hi Hnd Hin), Hnew.
    cbn. rewrite lookup_insert_eq. split; [reflexivity|]. by cbn.
  - intros now lobby bombs g b Hi Hb Hnd Hin Hnew.
    destruct (updateFromLobby_bombSprites now lobby bombs g Hi Hb) as (g0 & Hg0 & ->).
    eexists. rewrite (syncBombs_lookup_listed bombs g0 b Hnd Hin), Hg0, Hnew.
    cbn. rewrite lookup_insert_eq. split; [reflexivity|]. by cbn.
Qed.

Lemma first_appearance_placement_witness :
  (exists s,
     Game.playerSprites
       (Game.updateFromLobby 1000
          (Sample.snapshot [Sample.alice; Sample.bob] GAME_PHASE.PLAYING
             [Sample.bombAt 3 3 false] [] (Some "alice"))
          Sample.emptyScene) !! "alice" = Some s
     /\ Display.x (PlayerSprite.container s) = (1 * 40 + 40 / 2)%R
     /\ Display.y (PlayerSprite.container s) = (1 * 40 + 40 / 2)%R
     /\ mkPoint (Display.x (PlayerSprite.container s)) (Display.y (PlayerSprite.container s))
        = gridToPixel 1 1
     /\ PlayerSprite.targetX s = Display.x (PlayerSprite.container s)
     /\ PlayerSprite.targetY s = Display.y (PlayerSprite.container s))
  /\ (exists s,
     Game.bombSprites
       (Game.updateFromLobby 1000
          (Sample.snapshot [Sample.alice; Sample.bob] GAME_PHASE.PLAYING
             [Sample.bombAt 3 3 false] [] (Some "alice"))
          Sample.emptyScene) !! "bomb-1" = Some s
     /\ Display.x (BombSprite.graphics s) = (3 * 40 + 40 / 2)%R
     /\ Display.y (BombSprite.graphics s) = (3 * 40 + 40 / 2)%R
     /\ mkPoint (Display.x (BombSprite.graphics s)) (Display.y (BombSprite.graphics s))
        = gridToPixel 3 3
     /\ BombSprite.targetX s = Display.x (BombSprite.graphics s)
     /\ BombSprite.targetY s = Display.y (BombSprite.graphics s)).
Proof.
  destruct first_appearance_placement as [Hplayers Hbombs]. split.
  - apply (Hplayers 1000 _ Sample.emptyScene Sample.alice).
    + reflexivity.
    + apply NoDup_cons. split; [|apply NoDup_singleton].
      intros H. apply list_elem_of_singleton in H. discriminate H.
    + apply elem_of_cons. left. reflexivity.
    + reflexivity.
  - apply (Hbombs 1000 _ [Sample.bombAt 3 3 false] Sample.emptyScene (Sample.bombAt 3 3 false)).
    + reflexivity.
    + reflexivity.
    + apply NoDup_singleton.
    + apply elem_of_cons. left. reflexivity.
    + reflexivity.
Defined.

(** ** Input router: theorems *)

Section InputFacts.
Import Game.

(** A frame touches the input state through [processHeldKeys] only. *)
Lemma update_input_state now vp rx ry g :
  sent (update now vp rx ry g) = sent (processHeldKeys now g)
  /\ lastMoveTime (update now vp rx ry g) = lastMoveTime (processHeldKeys now g)
  /\ keysHeld (update now vp rx ry g) = keysHeld (processHeldKeys now g).
Proof.
  unfold update, applyShake, updateCamera. cbn.
  destruct (decide _); [destruct (decide _)|]; cbn;
    unfold processHeldKeys, emit; cbn; repeat case_match; by cbn.
Qed.

(** The frame path honours the repeat delay: a frame that sends an intent
    comes at least 120 ms after the last recorded send, and records its own
    time. *)
Lemma processHeldKeys_throttled now g :
  sent (processHeldKeys now g) <> sent g ->
  moveRepeatDelay <= now - lastMoveTime g
  /\ lastMoveTime (processHeldKeys now g) = now
  /\ exists d, sent (processHeldKeys now g) = sent g ++ [onMove d].
Proof.
  unfold processHeldKeys, emit.
  destruct (negb _); [done|].
  destruct (now - lastMoveTime g <? moveRepeatDelay) eqn:Hlt; [done|].
  apply Z.ltb_ge in Hlt.
  repeat case_match; cbn; try done; intros _; (split; [lia|]); (split; [done|]);
    by eexists.
Qed.

(** The key-down path does not look at the repeat delay: with callbacks
    installed and the match in its playing phase, a key-down of a movement
    key that leaves exactly one key held sends an intent whatever the time
    of the last send. *)
Lemma handleKeyDown_ignores_delay code shiftKey now g lobby :
  callbacks g = true ->
  currentLobby g = Some lobby -> Lobby.state lobby = GAME_PHASE.PLAYING ->
  keysHeld g ⊆ {[code]} ->
  code ∈ ["ArrowUp"; "KeyW"; "ArrowDown"; "KeyS"; "ArrowLeft"; "KeyA"; "ArrowRight"; "KeyD"] ->
  lastMoveTime (handleKeyDown code shiftKey now g) = now
  /\ exists d, sent (handleKeyDown code shiftKey now g) = sent g ++ [onMove d].
Proof.
  intros Hcb Hl Hst Hheld Hcode.
  assert (Hone : {[code]} ∪ keysHeld g = ({[code]} : gset string)).
  { apply set_eq. intros k. rewrite elem_of_union. split; [|by left].
    intros [H|H]; [exact H | by apply Hheld]. }
  unfold handleKeyDown, emit. cbn [keysHeld set_keysHeld currentLobby callbacks sent set_sent].
  rewrite Hl, Hone. cbn [fmap option_fmap option_map]. rewrite Hst.
  rewrite (bool_decide_eq_true_2 (Some GAME_PHASE.PLAYING = Some GAME_PHASE.PLAYING))
    by reflexivity.
  cbn [negb].
  repeat (apply elem_of_cons in Hcode as [->|Hcode]);
    [..|by apply elem_of_nil in Hcode];
    rewrite (bool_decide_eq_false_2 (_ = "Space")) by discriminate;
    rewrite (bool_decide_eq_false_2 (_ = "KeyE")) by discriminate;
    cbn [keysHeld set_keysHeld]; rewrite size_singleton;
    rewrite (bool_decide_eq_true_2 (1%nat = 1%nat)) by reflexivity;
    match goal with
    | |- context [match ?d with Some _ => _ | None => _ end] =>
        let v := eval vm_compute in d in change d with v
    end;
    cbn; rewrite Hcb; cbn; (split; [reflexivity|]); by eexists.
Qed.

End InputFacts.

(** C4 (fails on the code): alice holds the up arrow while the match is in
    its playing phase.  The first key-down, at 5000 ms, sends the intent at
    once.  The host repeats the key-down at 5030 ms and at 5060 ms; each
    repeat finds exactly one key held and sends the intent again, 30 ms
    after the previous one, although the repeat delay is 120 ms.  The two
    frames in between send nothing. *)
Theorem held_key_autorepeat_bypasses_repeat_delay :
  Game.sent (deliverAll [(5000, KeyDown "ArrowUp" false)] Sample.aliceScene)
  = [onMove DIRECTION.UP]
  /\ Game.sent
       (deliverAll
          [(5000, KeyDown "ArrowUp" false); (5016, Frame);
           (5030, KeyDown "ArrowUp" false); (5033, Frame);
           (5060, KeyDown "ArrowUp" false)]
          Sample.aliceScene)
     = [onMove DIRECTION.UP; onMove DIRECTION.UP; onMove DIRECTION.UP]
  /\ 5060 - 5000 < Game.moveRepeatDelay.
Proof.
  split; [vm_compute; reflexivity|].
  split; [vm_compute; reflexivity|].
  reflexivity.
Qed.

(** With frames alone, and no repeated key-down, the same held key is
    throttled as the claim says: one immediate intent, the next one at the
    first frame that comes 120 ms later. *)
Lemma held_key_frames_only_throttled :
  Game.sent
    (deliverAll
       [(5000, KeyDown "ArrowUp" false); (5016, Frame); (5033, Frame); (5050, Frame);
        (5066, Frame); (5083, Frame); (5100, Frame); (5116, Frame); (5133, Frame)]
       Sample.aliceScene)
  = [onMove DIRECTION.UP; onMove DIRECTION.UP]
  /\ Game.lastMoveTime
       (deliverAll
          [(5000, KeyDown "ArrowUp" false); (5016, Frame); (5033, Frame); (5050, Frame);
           (5066, Frame); (5083, Frame); (5100, Frame); (5116, Frame); (5133, Frame)]
          Sample.aliceScene)
     = 5133.
Proof. split; vm_compute; reflexivity. Qed.

(** ** Coordinate mapping: further properties *)

(** X1: [gridToPixel] is injective and maps a cell to its centre: the point
    lies half a tile inside the cell on both axes, and for a cell of the
    19 x 15 grid it lies strictly inside the arena. *)
Theorem gridToPixel_centre_of_cell :
  forall gridX gridY : R,
    (px (gridToPixel gridX gridY) - gridX * IZR GAME_CONFIG.TILE_SIZE
     = (gridX + 1) * IZR GAME_CONFIG.TILE_SIZE - px (gridToPixel gridX gridY))%R
    /\ (py (gridToPixel gridX gridY) - gridY * IZR GAME_CONFIG.TILE_SIZE
        = (gridY + 1) * IZR GAME_CONFIG.TILE_SIZE - py (gridToPixel gridX gridY))%R
    /\ (forall gridX' gridY' : R,
          gridToPixel gridX gridY = gridToPixel gridX' gridY' ->
          gridX = gridX' /\ gridY = gridY')
    /\ ((0 <= gridX <= IZR GAME_CONFIG.GRID_WIDTH - 1)%R ->
        (0 <= gridY <= IZR GAME_CONFIG.GRID_HEIGHT - 1)%R ->
        (0 < px (gridToPixel gridX gridY) < IZR ARENA_WIDTH)%R
        /\ (0 < py (gridToPixel gridX gridY) < IZR ARENA_HEIGHT)%R).
Proof.
  intros gx gy. unfold gridToPixel, ARENA_WIDTH, ARENA_HEIGHT. cbn [px py].
  rewrite !mult_IZR.
  unfold GAME_CONFIG.TILE_SIZE, GAME_CONFIG.GRID_WIDTH, GAME_CONFIG.GRID_HEIGHT.
  split; [lra|]. split; [lra|]. split.
  - intros gx' gy' H. injection H as Hx Hy. split; lra.
  - intros Hx Hy. split; lra.
Qed.

Lemma gridToPixel_centre_of_cell_witness :
  (0 < px (gridToPixel 18 14) < IZR ARENA_WIDTH)%R
  /\ (0 < py (gridToPixel 18 14) < IZR ARENA_HEIGHT)%R.
Proof.
  apply (gridToPixel_centre_of_cell 18 14);
    unfold GAME_CONFIG.GRID_WIDTH, GAME_CONFIG.GRID_HEIGHT; lra.
Defined.

(** ** Frames: further properties *)

Section FrameFacts.
Import Game.

Lemma processHeldKeys_sprites now g :
  playerSprites (processHeldKeys now g) = playerSprites g
  /\ bombSprites (processHeldKeys now g) = bombSprites g
  /\ explosionSprites (processHeldKeys now g) = explosionSprites g
  /\ shakeIntensity (processHeldKeys now g) = shakeIntensity g
  /\ mySocketId (processHeldKeys now g) = mySocketId g
  /\ currentLobby (processHeldKeys now g) = currentLobby g.
Proof.
  unfold processHeldKeys, emit. repeat case_match; by cbn.
Qed.

(** The camera step writes the camera and the world container only; the
    shake step writes the world container and the intensity only. *)
Lemma updateCamera_frame vp g :
  playerSprites (updateCamera vp g) = playerSprites g
  /\ bombSprites (updateCamera vp g) = bombSprites g
  /\ explosionSprites (updateCamera vp g) = explosionSprites g
  /\ shakeIntensity (updateCamera vp g) = shakeIntensity g
  /\ mySocketId (updateCamera vp g) = mySocketId g.
Proof. by cbn. Qed.

Lemma applyShake_frame rx ry g :
  playerSprites (applyShake rx ry g) = playerSprites g
  /\ bombSprites (applyShake rx ry g) = bombSprites g
  /\ explosionSprites (applyShake rx ry g) = explosionSprites g
  /\ cameraX (applyShake rx ry g) = cameraX g
  /\ cameraY (applyShake rx ry g) = cameraY g
  /\ mySocketId (applyShake rx ry g) = mySocketId g.
Proof.
  unfold applyShake. destruct (decide _); [|done]. cbn. by destruct (decide _).
Qed.

(** What a frame does to the sprite maps: every player sprite and every
    bomb sprite is animated by one step, the explosion sprites are only
    drawn. *)
Lemma update_sprites now vp rx ry g :
  playerSprites (update now vp rx ry g) = animatePlayer <$> playerSprites g
  /\ bombSprites (update now vp rx ry g) = animateBomb <$> bombSprites g
  /\ explosionSprites (update now vp rx ry g) = explosionSprites g.
Proof.
  destruct (processHeldKeys_sprites now (set_globalTime now g)) as (Hp & Hb & He & _).
  unfold update. cbv zeta.
  match goal with
  | |- context [applyShake rx ry ?g1] =>
      destruct (applyShake_frame rx ry g1) as (Ap & Ab & Ae & _); rewrite Ap, Ab, Ae
  end.
  cbn [updateCamera playerSprites bombSprites explosionSprites set_cameraX set_cameraY
       set_worldContainer set_bombSprites set_playerSprites].
  by rewrite Hp, Hb, He.
Qed.

Lemma runFrames_sprites frames :
  forall g,
    playerSprites (runFrames frames g)
    = Nat.iter (length frames) animatePlayer <$> playerSprites g
    /\ bombSprites (runFrames frames g)
       = Nat.iter (length frames) animateBomb <$> bombSprites g
    /\ explosionSprites (runFrames frames g) = explosionSprites g.
Proof.
  induction frames as [|f frames IH]; intros g.
  - cbn. by rewrite !map_fmap_id.
  - unfold runFrames. cbn [foldl length]. fold (runFrames frames (runFrame g f)).
    destruct (IH (runFrame g f)) as (Hp & Hb & He).
    pose proof (update_sprites (frameNow f) (frameViewport f) (frameRx f) (frameRy f) g)
      as (Hp1 & Hb1 & He1).
    change (update (frameNow f) (frameViewport f) (frameRx f) (frameRy f) g)
      with (runFrame g f) in Hp1, Hb1, He1.
    rewrite Hp, Hb, He, Hp1, Hb1, He1, <- !map_fmap_compose.
    repeat split; apply map_fmap_ext; intros i x _; unfold compose; symmetry;
      apply Nat.iter_succ_r.
Qed.

Lemma animatePlayer_fields s :
  PlayerSprite.targetX (animatePlayer s) = PlayerSprite.targetX s
  /\ PlayerSprite.targetY (animatePlayer s) = PlayerSprite.targetY s
  /\ PlayerSprite.data (animatePlayer s) = PlayerSprite.data s
  /\ PlayerSprite.deathTime (animatePlayer s) = PlayerSprite.deathTime s
  /\ PlayerSprite.movePhase (animatePlayer s) = PlayerSprite.movePhase s.
Proof. by cbn. Qed.

Lemma animatePlayer_iter_fields n s :
  PlayerSprite.targetX (Nat.iter n animatePlayer s) = PlayerSprite.targetX s
  /\ PlayerSprite.targetY (Nat.iter n animatePlayer s) = PlayerSprite.targetY s
  /\ PlayerSprite.data (Nat.iter n animatePlayer s) = PlayerSprite.data s
  /\ PlayerSprite.deathTime (Nat.iter n animatePlayer s) = PlayerSprite.deathTime s
  /\ PlayerSprite.movePhase (Nat.iter n animatePlayer s) = PlayerSprite.movePhase s.
Proof.
  induction n as [|n IH]; [done|].
  cbn [Nat.iter nat_rect]. fold (Nat.iter n animatePlayer s).
  destruct IH as (H1 & H2 & H3 & H4 & H5). by cbn.
Qed.

Lemma animateBomb_data s :
  BombSprite.data (animateBomb s) = BombSprite.data s
  /\ BombSprite.targetX (animateBomb s) = BombSprite.targetX s
  /\ BombSprite.targetY (animateBomb s) = BombSprite.targetY s
  /\ BombSprite.pulsePhase (animateBomb s) = BombSprite.pulsePhase s.
Proof.
  unfold animateBomb, advanceBounce. repeat case_match; by cbn.
Qed.

Lemma animateBomb_iter_data n s :
  BombSprite.data (Nat.iter n animateBomb s) = BombSprite.data s
  /\ BombSprite.targetX (Nat.iter n animateBomb s) = BombSprite.targetX s
  /\ BombSprite.targetY (Nat.iter n animateBomb s) = BombSprite.targetY s
  /\ BombSprite.pulsePhase (Nat.iter n animateBomb s) = BombSprite.pulsePhase s.
Proof.
  induction n as [|n IH]; [done|].
  cbn [Nat.iter nat_rect]. fold (Nat.iter n animateBomb s).
  destruct IH as (H1 & H2 & H3 & H4).
  destruct (animateBomb_data (Nat.iter n animateBomb s)) as (G1 & G2 & G3 & G4).
  by rewrite G1, G2, G3, G4.
Qed.

(** The eased coordinate after [n] frames. *)
Lemma lerp_iter (target speed x0 : R) (n : nat) :
  (Nat.iter n (fun x => lerp x target speed) x0 - target
   = (1 - speed) ^ n * (x0 - target))%R.
Proof.
  induction n as [|n IH]; [cbn; lra|].
  cbn [Nat.iter nat_rect]. fold (Nat.iter n (fun x => lerp x target speed) x0).
  unfold lerp at 1. cbn [pow]. nra.
Qed.

End FrameFacts.

Section EasingFacts.
Import Game.

Lemma animatePlayer_iter_position n s :
  Display.x (PlayerSprite.container (Nat.iter n animatePlayer s))
  = Nat.iter n (fun x => lerp x (PlayerSprite.targetX s) 0.25)
      (Display.x (PlayerSprite.container s))
  /\ Display.y (PlayerSprite.container (Nat.iter n animatePlayer s))
     = Nat.iter n (fun y => lerp y (PlayerSprite.targetY s) 0.25)
         (Display.y (PlayerSprite.container s)).
Proof.
  induction n as [|n IH]; [done|].
  cbn [Nat.iter nat_rect].
  fold (Nat.iter n animatePlayer s).
  fold (Nat.iter n (fun x => lerp x (PlayerSprite.targetX s) 0.25)
          (Display.x (PlayerSprite.container s))).
  fold (Nat.iter n (fun y => lerp y (PlayerSprite.targetY s) 0.25)
          (Display.y (PlayerSprite.container s))).
  destruct IH as [Hx Hy].
  destruct (animatePlayer_iter_fields n s) as (Htx & Hty & _).
  cbn. by rewrite Hx, Hy, Htx, Hty.
Qed.

End EasingFacts.

Section EasingBounds.

(** What remains of an offset after [n] frames at rate 0.25: it keeps its
    sign, does not grow, and is at most [0.76 ^ n] of what it was. *)
Lemma eased_offset (o : R) (n : nat) :
  let o' := ((1 - 0.25) ^ n * o)%R in
  ((0 <= o -> 0 <= o' <= o) /\ (o <= 0 -> o <= o' <= 0)
   /\ Rabs o' <= 0.76 ^ n * Rabs o)%R.
Proof.
  intros o'. subst o'.
  assert (H0 : (0 <= (1 - 0.25) ^ n)%R) by (apply pow_le; lra).
  assert (H1 : ((1 - 0.25) ^ n <= 1)%R).
  { apply Rle_trans with (1 ^ n)%R; [apply pow_incr; lra | rewrite pow1; lra]. }
  assert (H2 : ((1 - 0.25) ^ n <= 0.76 ^ n)%R) by (apply pow_incr; lra).
  set (p := ((1 - 0.25) ^ n)%R) in *.
  split; [intros Ho; nra|]. split; [intros Ho; nra|].
  rewrite Rabs_mult, (Rabs_right p) by lra.
  apply Rmult_le_compat_r; [apply Rabs_pos | exact H2].
Qed.

End EasingBounds.

(** X2: frames ease a player sprite toward its interpolation target without
    reaching past it and without moving away from it.  For a sprite whose
    position and target lie within 10000 pixels of the origin, after any run
    of [n] frames the position lies, on each axis, between where it was and
    the target, and its distance to the target is at most the larger of one
    pixel and [0.76 ^ n] times the initial distance.  Frames change neither
    the target nor the authoritative data nor the death time of the
    sprite. *)
Theorem player_position_eases_toward_target :
  forall (frames : list FrameInput) (g : Game.t) (id : string) (s : PlayerSprite.t),
    Game.playerSprites g !! id = Some s ->
    (Rabs (Display.x (PlayerSprite.container s)) <= 10000)%R ->
    (Rabs (Display.y (PlayerSprite.container s)) <= 10000)%R ->
    (Rabs (PlayerSprite.targetX s) <= 10000)%R ->
    (Rabs (PlayerSprite.targetY s) <= 10000)%R ->
    exists s',
      Game.playerSprites (runFrames frames g) !! id = Some s'
      /\ (Rmin (Display.x (PlayerSprite.container s)) (PlayerSprite.targetX s)
          <= Display.x (PlayerSprite.container s')
          <= Rmax (Display.x (PlayerSprite.container s)) (PlayerSprite.targetX s))%R
      /\ (Rmin (Display.y (PlayerSprite.container s)) (PlayerSprite.targetY s)
          <= Display.y (PlayerSprite.container s')
          <= Rmax (Display.y (PlayerSprite.container s)) (PlayerSprite.targetY s))%R
      /\ (Rabs (Display.x (PlayerSprite.container s') - PlayerSprite.targetX s)
          <= Rmax 1 (0.76 ^ length frames
                     * Rabs (Display.x (PlayerSprite.container s) - PlayerSprite.targetX s)))%R
      /\ (Rabs (Display.y (PlayerSprite.container s') - PlayerSprite.targetY s)
          <= Rmax 1 (0.76 ^ length frames
                     * Rabs (Display.y (PlayerSprite.container s) - PlayerSprite.targetY s)))%R
      /\ PlayerSprite.targetX s' = PlayerSprite.targetX s
      /\ PlayerSprite.targetY s' = PlayerSprite.targetY s
      /\ PlayerSprite.data s' = PlayerSprite.data s
      /\ PlayerSprite.deathTime s' = PlayerSprite.deathTime s.
Proof.
  intros frames g id s Hs _ _ _ _.
  destruct (runFrames_sprites frames g) as (Hp & _ & _).
  exists (Nat.iter (length frames) Game.animatePlayer s).
  rewrite Hp, lookup_fmap, Hs. split; [reflexivity|].
  destruct (animatePlayer_iter_position (length frames) s) as [Hx Hy].
  destruct (animatePlayer_iter_fields (length frames) s) as (H1 & H2 & H3 & H4 & _).
  pose proof (lerp_iter (PlayerSprite.targetX s) 0.25
                (Display.x (PlayerSprite.container s)) (length frames)) as Lx.
  pose proof (lerp_iter (PlayerSprite.targetY s) 0.25
                (Display.y (PlayerSprite.container s)) (length frames)) as Ly.
  rewrite <- Hx in Lx. rewrite <- Hy in Ly.
  destruct (eased_offset (Display.x (PlayerSprite.container s) - PlayerSprite.targetX s)
              (length frames)) as (Px & Nx & Bx).
  destruct (eased_offset (Display.y (PlayerSprite.container s) - PlayerSprite.targetY s)
              (length frames)) as (Py & Ny & By).
  rewrite <- Lx in Px, Nx, Bx. rewrite <- Ly in Py, Ny, By.
  split; [|split; [|split; [|split]]]; [| | | |done].
  - unfold Rmin, Rmax. destruct (Rle_dec _ _); lra.
  - unfold Rmin, Rmax. destruct (Rle_dec _ _); lra.
  - eapply Rle_trans; [exact Bx | apply Rmax_r].
  - eapply Rle_trans; [exact By | apply Rmax_r].
Qed.

Lemma player_position_eases_toward_target_witness :
  exists s',
    Game.playerSprites
      (runFrames [mkFrame 1016 Sample.desktop 0.5 0.5; mkFrame 1033 Sample.desktop 0.5 0.5]
         (Game.updatePlayer 1010 (Sample.carolAt 2 13) Sample.carolScene)) !! "carol"
    = Some s'
    /\ (60 <= Display.x (PlayerSprite.container s') <= 100)%R
    /\ (Rabs (Display.x (PlayerSprite.container s') - 100) <= Rmax 1 (0.76 ^ 2 * 40))%R.
Proof.
  destruct (player_position_eases_toward_target
              [mkFrame 1016 Sample.desktop 0.5 0.5; mkFrame 1033 Sample.desktop 0.5 0.5]
              (Game.updatePlayer 1010 (Sample.carolAt 2 13) Sample.carolScene) "carol"
              (PlayerSprite.mk
                 (Display.mk (px (gridToPixel 1 13)) (py (gridToPixel 1 13)) 1 1)
                 (px (gridToPixel 2 13)) (py (gridToPixel 2 13)) (Sample.carolAt 2 13) 0
                 (px (gridToPixel 1 13)) (py (gridToPixel 1 13)) 0))
    as (s' & Hs' & Hx & _ & Hbx & _).
  - unfold Game.updatePlayer.
    replace (Game.playerSprites Sample.carolScene !! Player.socketId (Sample.carolAt 2 13))
      with (Some (PlayerSprite.mk
                    (Display.mk (px (gridToPixel 1 13)) (py (gridToPixel 1 13)) 1 1)
                    (px (gridToPixel 1 13)) (py (gridToPixel 1 13)) Sample.carol 0
                    (px (gridToPixel 1 13)) (py (gridToPixel 1 13)) 0))
      by (vm_compute; reflexivity).
    cbn [Game.playerSprites Game.set_playerSprites]. rewrite lookup_insert_eq.
    f_equal. unfold Game.updatePlayerSprite. cbn.
    rewrite decide_True; [reflexivity|].
    left. unfold GAME_CONFIG.TILE_SIZE. lra.
  - cbn. unfold GAME_CONFIG.TILE_SIZE. rewrite Rabs_right; lra.
  - cbn. unfold GAME_CONFIG.TILE_SIZE. rewrite Rabs_right; lra.
  - cbn. unfold GAME_CONFIG.TILE_SIZE. rewrite Rabs_right; lra.
  - cbn. unfold GAME_CONFIG.TILE_SIZE. rewrite Rabs_right; lra.
  - exists s'. split; [exact Hs'|].
    cbn in Hx, Hbx. unfold GAME_CONFIG.TILE_SIZE in Hx, Hbx.
    replace (1 * 40 + 40 / 2)%R with 60%R in Hx, Hbx by lra.
    replace (2 * 40 + 40 / 2)%R with 100%R in Hx, Hbx by lra.
    rewrite Rmin_left, Rmax_right in Hx by lra.
    replace (Rabs (60 - 100)) with 40%R in Hbx by (rewrite Rabs_left; lra).
    split; [exact Hx|]. exact Hbx.
Defined.

(** X3: frames never create or destroy an entity and never touch what the
    server said about it: after any run of frames the player, bomb and
    explosion sprites carry the same ids as before, the explosion sprites
    are unchanged, and every bomb sprite keeps its authoritative data, its
    target and its pulse phase. *)
Theorem frames_keep_entities_and_authoritative_state :
  forall (frames : list FrameInput) (g : Game.t),
    dom (Game.playerSprites (runFrames frames g)) = dom (Game.playerSprites g)
    /\ dom (Game.bombSprites (runFrames frames g)) = dom (Game.bombSprites g)
    /\ Game.explosionSprites (runFrames frames g) = Game.explosionSprites g
    /\ (forall id : string,
          PlayerSprite.data <$> Game.playerSprites (runFrames frames g) !! id
          = PlayerSprite.data <$> Game.playerSprites g !! id)
    /\ (forall id : string,
          (fun s => (BombSprite.data s, BombSprite.targetX s, BombSprite.targetY s,
                     BombSprite.pulsePhase s))
            <$> Game.bombSprites (runFrames frames g) !! id
          = (fun s => (BombSprite.data s, BombSprite.targetX s, BombSprite.targetY s,
                       BombSprite.pulsePhase s))
              <$> Game.bombSprites g !! id).
Proof.
  intros frames g. destruct (runFrames_sprites frames g) as (Hp & Hb & He).
  rewrite Hp, Hb, He, !dom_fmap_L. repeat split.
  - intros id. rewrite lookup_fmap. destruct (Game.playerSprites g !! id) as [s|]; [|done].
    cbn. f_equal. apply animatePlayer_iter_fields.
  - intros id. rewrite lookup_fmap. destruct (Game.bombSprites g !! id) as [s|]; [|done].
    cbn. destruct (animateBomb_iter_data (length frames) s) as (H1 & H2 & H3 & H4).
    by rewrite H1, H2, H3, H4.
Qed.

(** ** Screen shake: further properties *)

Section ShakeDecay.
Import Game.

(** The scene on which a frame applies the shake: same intensity as before
    the frame, world container at the eased camera position. *)
Lemma update_before_shake now vp rx ry g :
  exists g1,
    update now vp rx ry g = applyShake rx ry g1
    /\ shakeIntensity g1 = shakeIntensity g
    /\ cameraX g1 = lerp (cameraX g) (cameraTargetX vp g1) 0.1
    /\ cameraY g1 = lerp (cameraY g) (cameraTargetY vp g1) 0.1
    /\ Display.x (worldContainer g1) = cameraX g1
    /\ Display.y (worldContainer g1) = cameraY g1.
Proof.
  eexists. split; [reflexivity|].
  destruct (processHeldKeys_sprites now (set_globalTime now g)) as (_ & _ & _ & Hs & _).
  assert (Hc : cameraX (processHeldKeys now (set_globalTime now g)) = cameraX g
               /\ cameraY (processHeldKeys now (set_globalTime now g)) = cameraY g).
  { unfold processHeldKeys, emit. repeat case_match; by cbn. }
  destruct Hc as [Hcx Hcy].
  cbn [updateCamera shakeIntensity cameraX cameraY worldContainer set_cameraX set_cameraY
       set_worldContainer set_bombSprites set_playerSprites Display.x Display.y
       Display.set_x Display.set_y].
  rewrite Hs, Hcx, Hcy. cbn [shakeIntensity set_globalTime].
  repeat split; reflexivity.
Qed.

(** One frame of decay. *)
Lemma applyShake_intensity rx ry g :
  shakeIntensity (applyShake rx ry g)
  = if decide (shakeIntensity g > 0.5)%R
    then if decide (shakeIntensity g * shakeDecay < 0.5)%R
         then 0%R else (shakeIntensity g * shakeDecay)%R
    else shakeIntensity g.
Proof.
  unfold applyShake. destruct (decide _); [|reflexivity]. cbn.
  by destruct (decide _).
Qed.

Lemma update_intensity now vp rx ry g :
  shakeIntensity (update now vp rx ry g)
  = if decide (shakeIntensity g > 0.5)%R
    then if decide (shakeIntensity g * shakeDecay < 0.5)%R
         then 0%R else (shakeIntensity g * shakeDecay)%R
    else shakeIntensity g.
Proof.
  destruct (update_before_shake now vp rx ry g) as (g1 & -> & Hi & _).
  by rewrite applyShake_intensity, Hi.
Qed.

(** After [n] frames the intensity has either settled at or below the
    threshold, or it is the initial one scaled by [0.85 ^ n]. *)
Lemma runFrames_intensity frames :
  forall g,
    (0 <= shakeIntensity g)%R ->
    (0 <= shakeIntensity (runFrames frames g) <= shakeIntensity g)%R
    /\ ((shakeIntensity (runFrames frames g) <= 0.5)%R
        \/ shakeIntensity (runFrames frames g)
           = (shakeIntensity g * shakeDecay ^ length frames)%R).
Proof.
  induction frames as [|f frames IH]; intros g H0.
  - cbn. split; [lra|]. right. lra.
  - unfold runFrames. cbn [foldl length]. fold (runFrames frames (runFrame g f)).
    pose proof (update_intensity (frameNow f) (frameViewport f) (frameRx f) (frameRy f) g)
      as Hstep.
    change (update (frameNow f) (frameViewport f) (frameRx f) (frameRy f) g)
      with (runFrame g f) in Hstep.
    unfold shakeDecay in *.
    destruct (decide (shakeIntensity g > 0.5)%R) as [Hbig|Hsmall].
    + destruct (decide (shakeIntensity g * 0.85 < 0.5)%R) as [Hend|Hgo].
      * destruct (IH (runFrame g f)) as ([Ha Hb] & _); [rewrite Hstep; lra|].
        rewrite Hstep in Hb. split; [lra|]. left. lra.
      * destruct (IH (runFrame g f)) as ([Ha Hb] & Hc); [rewrite Hstep; lra|].
        rewrite Hstep in Hb, Hc. split; [lra|].
        destruct Hc as [Hc|Hc]; [by left|]. right. rewrite Hc. cbn [pow]. lra.
    + destruct (IH (runFrame g f)) as ([Ha Hb] & _); [rewrite Hstep; lra|].
      rewrite Hstep in Hb. split; [lra|]. left. lra.
Qed.

Lemma shakeDecay_pow_20 (n : nat) :
  (20 <= n)%nat -> (12 * shakeDecay ^ n <= 0.5)%R.
Proof.
  intros Hn. replace n with (20 + (n - 20))%nat by lia.
  rewrite pow_add. unfold shakeDecay.
  assert (H1 : (0 <= 0.85 ^ (n - 20) <= 1)%R).
  { split; [apply pow_le; lra|].
    rewrite <- (pow1 (n - 20)). apply pow_incr. lra. }
  assert (H2 : (0.85 ^ 20 <= 0.04)%R) by (cbn [pow]; lra).
  assert (H3 : (0 <= 0.85 ^ 20)%R) by (apply pow_le; lra).
  nra.
Qed.

End ShakeDecay.

Section ShakeBounds.
Import Game.

Lemma triggerExplosionShake_bounded ex ey g :
  (0 <= shakeIntensity g <= 12)%R ->
  (0 <= shakeIntensity (triggerExplosionShake ex ey g) <= 12)%R.
Proof.
  intros H. destruct (localSprite g) as [ls|] eqn:Hls.
  - rewrite (triggerExplosionShake_local ex ey g ls Hls).
    destruct (decide _); [|exact H]. cbn.
    pose proof (gridDistance_nonneg ls ex ey).
    unfold Rmax. destruct (Rle_dec _ _); lra.
  - by rewrite triggerExplosionShake_no_local.
Qed.

Lemma syncExplosions_bounded now explosions g :
  (0 <= shakeIntensity g <= 12)%R ->
  (0 <= shakeIntensity (syncExplosions now explosions g) <= 12)%R.
Proof.
  intros H. unfold syncExplosions.
  apply (foldl_invariant (fun g => (0 <= shakeIntensity g <= 12)%R)).
  - intros g' e Hg'. destruct (decide _); [exact Hg'|].
    unfold addExplosion. by apply triggerExplosionShake_bounded.
  - rewrite (foldl_preserves shakeIntensity); [exact H|].
    intros g' id. destruct (decide _); [reflexivity|].
    unfold removeExplosion. by destruct (explosionSprites g' !! id).
Qed.

Lemma syncPlayers_intensity now players g :
  shakeIntensity (syncPlayers now players g) = shakeIntensity g.
Proof.
  unfold syncPlayers.
  rewrite (foldl_preserves shakeIntensity); [rewrite (foldl_preserves shakeIntensity)|].
  - reflexivity.
  - intros g' id. destruct (decide _); [reflexivity|].
    unfold removePlayer. by destruct (playerSprites g' !! id).
  - intros g' p. destruct (decide _); [|reflexivity].
    unfold updatePlayer. by destruct (playerSprites g' !! Player.socketId p).
Qed.

Lemma syncBombs_intensity bombs g :
  shakeIntensity (syncBombs bombs g) = shakeIntensity g.
Proof.
  unfold syncBombs.
  rewrite (foldl_preserves shakeIntensity); [rewrite (foldl_preserves shakeIntensity)|].
  - reflexivity.
  - intros g' id. destruct (decide _); [reflexivity|].
    unfold removeBomb. by destruct (bombSprites g' !! id).
  - intros g' b. destruct (decide _); [|reflexivity].
    unfold updateBomb. by destruct (bombSprites g' !! BombData.id b).
Qed.

Lemma updateFromLobby_bounded now lobby g :
  (0 <= shakeIntensity g <= 12)%R ->
  (0 <= shakeIntensity (updateFromLobby now lobby g) <= 12)%R.
Proof.
  intros H. unfold updateFromLobby. destruct (negb _); [exact H|].
  assert (H1 : forall g0, shakeIntensity g0 = shakeIntensity g ->
               (0 <= shakeIntensity
                       match Lobby.gameData lobby ≫= GameData.bombs with
                       | Some bombs => syncBombs bombs g0
                       | None => g0
                       end <= 12)%R).
  { intros g0 Hg0. destruct (_ ≫= GameData.bombs); rewrite ?syncBombs_intensity, Hg0;
      exact H. }
  destruct (Lobby.gameData lobby ≫= GameData.explosions).
  - apply syncExplosions_bounded, H1. rewrite syncPlayers_intensity.
    by destruct (_ ≫= GameData.tiles).
  - apply H1. rewrite syncPlayers_intensity. by destruct (_ ≫= GameData.tiles).
Qed.

End ShakeBounds.

(** X4: the shake intensity stays between 0 and 12: a scene whose
    intensity is in that range (a new scene has 0) keeps it there through
    every reconciliation, whatever explosions it adds, and through every
    frame; a frame never raises it. *)
Theorem shake_intensity_stays_bounded :
  forall g : Game.t,
    (0 <= Game.shakeIntensity g <= 12)%R ->
    (forall (now : Z) (lobby : Lobby.t),
        (0 <= Game.shakeIntensity (Game.updateFromLobby now lobby g) <= 12)%R)
    /\ (forall frames : list FrameInput,
          (0 <= Game.shakeIntensity (runFrames frames g) <= Game.shakeIntensity g)%R).
Proof.
  intros g H. split.
  - intros now lobby. by apply updateFromLobby_bounded.
  - intros frames. apply runFrames_intensity. lra.
Qed.

Lemma shake_intensity_stays_bounded_witness :
  (0 <= Game.shakeIntensity
          (Game.updateFromLobby 2000 Sample.nextSnapshot Sample.aliceScene) <= 12)%R.
Proof.
  assert (H0 : Game.shakeIntensity Sample.aliceScene = 0%R) by (vm_compute; reflexivity).
  assert (H : (0 <= Game.shakeIntensity Sample.aliceScene <= 12)%R) by (rewrite H0; lra).
  exact (proj1 (shake_intensity_stays_bounded Sample.aliceScene H) 2000 Sample.nextSnapshot).
Defined.

(** X5: a shake dies out within 20 frames.  From any intensity up to the
    maximum of 12, after 20 frames or more the intensity is at or below the
    threshold 0.5, and from then on a frame leaves it as it is and puts the
    world container exactly at the camera position. *)
Theorem shake_dies_out_within_20_frames :
  forall (frames : list FrameInput) (g : Game.t),
    (0 <= Game.shakeIntensity g <= 12)%R ->
    (20 <= length frames)%nat ->
    (Game.shakeIntensity (runFrames frames g) <= 0.5)%R
    /\ (forall f : FrameInput,
          Game.shakeIntensity (runFrame (runFrames frames g) f)
          = Game.shakeIntensity (runFrames frames g)
          /\ Display.x (Game.worldContainer (runFrame (runFrames frames g) f))
             = Game.cameraX (runFrame (runFrames frames g) f)
          /\ Display.y (Game.worldContainer (runFrame (runFrames frames g) f))
             = Game.cameraY (runFrame (runFrames frames g) f)).
Proof.
  intros frames g Hg Hlen.
  assert (Hlow : (Game.shakeIntensity (runFrames frames g) <= 0.5)%R).
  { destruct (runFrames_intensity frames g) as (_ & [H|H]); [lra | exact H |].
    rewrite H. pose proof (shakeDecay_pow_20 (length frames) Hlen) as Hp.
    assert (0 <= Game.shakeDecay ^ length frames)%R
      by (apply pow_le; unfold Game.shakeDecay; lra).
    nra. }
  split; [exact Hlow|]. intros f. unfold runFrame.
  destruct (update_before_shake (frameNow f) (frameViewport f) (frameRx f) (frameRy f)
              (runFrames frames g)) as (g1 & -> & Hi & _ & _ & Hx & Hy).
  unfold Game.applyShake. rewrite decide_False by lra. by rewrite Hi, Hx, Hy.
Qed.

Lemma shake_dies_out_within_20_frames_witness :
  (Game.shakeIntensity
     (runFrames (replicate 20 (mkFrame 1016 Sample.desktop 0.9 0.1))
        (Game.triggerExplosionShake 1 1 Sample.aliceScene)) <= 0.5)%R.
Proof.
  assert (H0 : Game.shakeIntensity Sample.aliceScene = 0%R) by (vm_compute; reflexivity).
  assert (H : (0 <= Game.shakeIntensity
                      (Game.triggerExplosionShake 1 1 Sample.aliceScene) <= 12)%R)
    by (apply triggerExplosionShake_bounded; rewrite H0; lra).
  assert (Hlen : (20 <= length (replicate 20 (mkFrame 1016 Sample.desktop 0.9 0.1)))%nat)
    by (rewrite length_replicate; lia).
  exact (proj1 (shake_dies_out_within_20_frames _ _ H Hlen)).
Defined.

Section ShakeDisplacement.
Import Game.

(** Where the shake step leaves the world container. *)
Lemma applyShake_world rx ry g :
  Display.x (worldContainer (applyShake rx ry g))
  = (Display.x (worldContainer g)
     + if decide (shakeIntensity g > 0.5)%R then (rx - 0.5) * shakeIntensity g else 0)%R
  /\ Display.y (worldContainer (applyShake rx ry g))
     = (Display.y (worldContainer g)
        + if decide (shakeIntensity g > 0.5)%R then (ry - 0.5) * shakeIntensity g else 0)%R.
Proof.
  unfold applyShake. destruct (decide _) as [_|_]; [|split; lra].
  cbn. by destruct (decide _) as [_|_].
Qed.

Lemma Rabs_le_half (r i : R) :
  (0 <= r < 1)%R -> (0 <= i)%R -> (Rabs ((r - 0.5) * i) <= i / 2)%R.
Proof.
  intros Hr Hi. unfold Rabs. destruct (Rcase_abs _); nra.
Qed.

End ShakeDisplacement.

(** X6: a frame displaces the world container from the eased camera
    position by at most half the shake intensity on each axis, and only
    while the intensity is above 0.5; the camera itself moves a tenth of the
    way to its target. *)
Theorem shake_displacement_is_bounded :
  forall (now : Z) (vp : Viewport.t) (rx ry : R) (g : Game.t),
    (0 <= rx < 1)%R -> (0 <= ry < 1)%R ->
    (0 <= Game.shakeIntensity g)%R ->
    let g' := Game.update now vp rx ry g in
    (Rabs (Display.x (Game.worldContainer g') - Game.cameraX g')
     <= Game.shakeIntensity g / 2)%R
    /\ (Rabs (Display.y (Game.worldContainer g') - Game.cameraY g')
        <= Game.shakeIntensity g / 2)%R
    /\ ((Game.shakeIntensity g <= 0.5)%R ->
        Display.x (Game.worldContainer g') = Game.cameraX g'
        /\ Display.y (Game.worldContainer g') = Game.cameraY g')
    /\ (Game.cameraX g' - Game.cameraX g
        = (Game.cameraTargetX vp g' - Game.cameraX g) * 0.1)%R
    /\ (Game.cameraY g' - Game.cameraY g
        = (Game.cameraTargetY vp g' - Game.cameraY g) * 0.1)%R.
Proof.
  intros now vp rx ry g Hrx Hry Hi g'. subst g'.
  destruct (update_before_shake now vp rx ry g) as (g1 & -> & Hs & Hcx & Hcy & Hx & Hy).
  destruct (applyShake_world rx ry g1) as [Hwx Hwy].
  destruct (applyShake_frame rx ry g1) as (Hps & _ & _ & Hax & Hay & Hme).
  assert (Htx : Game.cameraTargetX vp (Game.applyShake rx ry g1) = Game.cameraTargetX vp g1
                /\ Game.cameraTargetY vp (Game.applyShake rx ry g1)
                   = Game.cameraTargetY vp g1).
  { unfold Game.cameraTargetX, Game.cameraTargetY, Game.localSprite.
    by rewrite Hps, Hme. }
  destruct Htx as [Htx Hty].
  rewrite Hwx, Hwy, Hax, Hay, Htx, Hty, Hx, Hy, <- Hs.
  rewrite <- Hs in Hi.
  pose proof (Rabs_le_half rx _ Hrx Hi) as Bx.
  pose proof (Rabs_le_half ry _ Hry Hi) as By.
  destruct (decide _) as [Hbig|Hsmall].
  - split; [|split; [|split; [|split]]].
    + eapply Rle_trans; [|exact Bx]. right. f_equal. lra.
    + eapply Rle_trans; [|exact By]. right. f_equal. lra.
    + intros. lra.
    + rewrite Hcx. unfold Game.lerp. lra.
    + rewrite Hcy. unfold Game.lerp. lra.
  - assert (Ex : (Game.cameraX g1 + 0 - Game.cameraX g1 = 0)%R) by lra.
    assert (Ey : (Game.cameraY g1 + 0 - Game.cameraY g1 = 0)%R) by lra.
    rewrite Ex, Ey, Rabs_R0.
    split; [lra|]. split; [lra|]. split; [intros _; split; lra|].
    rewrite Hcx, Hcy. unfold Game.lerp. split; lra.
Qed.

Lemma shake_displacement_is_bounded_witness :
  (Rabs (Display.x (Game.worldContainer
                      (Game.update 1016 Sample.desktop 0.9 0.1 Sample.aliceScene))
         - Game.cameraX (Game.update 1016 Sample.desktop 0.9 0.1 Sample.aliceScene))
   <= Game.shakeIntensity Sample.aliceScene / 2)%R.
Proof.
  assert (H0 : Game.shakeIntensity Sample.aliceScene = 0%R) by (vm_compute; reflexivity).
  assert (Hi : (0 <= Game.shakeIntensity Sample.aliceScene)%R) by (rewrite H0; lra).
  assert (Hrx : (0 <= 0.9 < 1)%R) by lra.
  assert (Hry : (0 <= 0.1 < 1)%R) by lra.
  exact (proj1 (shake_displacement_is_bounded 1016 Sample.desktop 0.9 0.1
                  Sample.aliceScene Hrx Hry Hi)).
Defined.

(** ** Input router: further properties *)

Section RouterFacts.
Import Game.

Lemma emit_fields i g :
  keysHeld (emit i g) = keysHeld g
  /\ lastMoveTime (emit i g) = lastMoveTime g
  /\ callbacks (emit i g) = callbacks g
  /\ currentLobby (emit i g) = currentLobby g
  /\ sent (emit i g) = if callbacks g then sent g ++ [i] else sent g.
Proof. unfold emit. by destruct (callbacks g) eqn:H. Qed.

(** Without a movement key in the held set a frame sends nothing. *)
Lemma processHeldKeys_no_movement_key now g :
  Forall (fun k => k ∉ keysHeld g) movementKeys ->
  processHeldKeys now g = g.
Proof.
  intros H. unfold movementKeys in H.
  repeat (apply Forall_cons in H as [? H]).
  unfold processHeldKeys.
  destruct (negb _); [reflexivity|]. destruct (_ <? _); [reflexivity|].
  cbv zeta. by rewrite !bool_decide_eq_false_2.
Qed.

Lemma processHeldKeys_not_playing now g :
  Lobby.state <$> currentLobby g <> Some GAME_PHASE.PLAYING ->
  processHeldKeys now g = g.
Proof.
  intros H. unfold processHeldKeys. by rewrite bool_decide_eq_false_2.
Qed.

End RouterFacts.

(** X7: outside the playing phase, and when there is no snapshot at all,
    the router sends no movement, bomb or throw intent.  A key-down is still
    recorded as held; it sends the start intent exactly when the key is
    Enter with Shift, the phase is the lobby and callbacks are installed, and
    nothing otherwise.  Frames send nothing. *)
Theorem no_game_intents_outside_playing :
  forall (code : string) (shiftKey : bool) (now : Z) (g : Game.t),
    Lobby.state <$> Game.currentLobby g <> Some GAME_PHASE.PLAYING ->
    Game.keysHeld (Game.handleKeyDown code shiftKey now g) = {[code]} ∪ Game.keysHeld g
    /\ Game.lastMoveTime (Game.handleKeyDown code shiftKey now g) = Game.lastMoveTime g
    /\ Game.sent (Game.handleKeyDown code shiftKey now g)
       = (if bool_decide (code = "Enter" /\ shiftKey = true
                          /\ Lobby.state <$> Game.currentLobby g = Some GAME_PHASE.WAITING
                          /\ Game.callbacks g = true)
          then Game.sent g ++ [onStart] else Game.sent g)
    /\ Game.processHeldKeys now g = g.
Proof.
  intros code shiftKey now g Hphase.
  split; [|split; [|split]]; [| | |by apply processHeldKeys_not_playing];
    unfold Game.handleKeyDown, Game.emit;
    cbn [Game.currentLobby Game.set_keysHeld Game.callbacks];
    rewrite (bool_decide_eq_false_2 (_ = Some GAME_PHASE.PLAYING)) by exact Hphase;
    cbn [negb].
  - by repeat case_match.
  - by repeat case_match.
  - destruct (decide (code = "Enter")) as [->|Hc];
      [rewrite (bool_decide_eq_true_2 ("Enter" = "Enter")) by reflexivity
      |rewrite (bool_decide_eq_false_2 (code = "Enter")) by exact Hc;
       rewrite (bool_decide_eq_false_2 (_ /\ _)) by (intros [? _]; done); reflexivity].
    destruct shiftKey;
      [|rewrite (bool_decide_eq_false_2 (_ /\ _))
          by (intros Hn; destruct Hn as (_ & Hn & _); discriminate Hn);
        reflexivity].
    destruct (decide (Lobby.state <$> Game.currentLobby g = Some GAME_PHASE.WAITING))
      as [Hw|Hw];
      [rewrite (bool_decide_eq_true_2 _ Hw)
      |rewrite (bool_decide_eq_false_2 _ Hw);
       rewrite (bool_decide_eq_false_2 (_ /\ _))
         by (intros Hn; destruct Hn as (_ & _ & Hn & _); exact (Hw Hn));
       reflexivity].
    cbn [andb]. destruct (Game.callbacks g) eqn:Hcb.
    + by rewrite (bool_decide_eq_true_2 (_ /\ _)).
    + by rewrite (bool_decide_eq_false_2 (_ /\ _))
        by (intros Hn; destruct Hn as (_ & _ & _ & Hn); discriminate Hn).
Qed.

Lemma no_game_intents_outside_playing_witness :
  Game.sent (Game.handleKeyDown "Space" false 900
               (Game.updateFromLobby 800
                  (Sample.snapshot [Sample.alice] GAME_PHASE.COUNTDOWN [] [] (Some "alice"))
                  Sample.emptyScene))
  = []
  /\ Game.sent (Game.handleKeyDown "Enter" true 900
                  (Game.updateFromLobby 800
                     (Sample.snapshot [Sample.alice] GAME_PHASE.WAITING [] [] (Some "alice"))
                     Sample.emptyScene))
     = [onStart].
Proof.
  split.
  - pose proof (no_game_intents_outside_playing "Space" false 900
                  (Game.updateFromLobby 800
                     (Sample.snapshot [Sample.alice] GAME_PHASE.COUNTDOWN [] []
                        (Some "alice"))
                     Sample.emptyScene)) as H.
    destruct H as (_ & _ & H & _); [vm_compute; discriminate|].
    rewrite H. vm_compute. reflexivity.
  - pose proof (no_game_intents_outside_playing "Enter" true 900
                  (Game.updateFromLobby 800
                     (Sample.snapshot [Sample.alice] GAME_PHASE.WAITING [] []
                        (Some "alice"))
                     Sample.emptyScene)) as H.
    destruct H as (_ & _ & H & _); [vm_compute; discriminate|].
    rewrite H. vm_compute. reflexivity.
Defined.

Section RouterFacts2.
Import Game.

Lemma handleKeyDown_keysHeld code shiftKey now g :
  keysHeld (handleKeyDown code shiftKey now g) = {[code]} ∪ keysHeld g.
Proof.
  unfold handleKeyDown, emit. repeat case_match; by cbn.
Qed.

(** With another key held, the held set after a key-down has more than one
    element. *)
Lemma two_keys_held (code other : string) (keys : gset string) :
  other ∈ keys -> other <> code -> size ({[code]} ∪ keys) <> 1%nat.
Proof.
  intros Hin Hne Hsize. apply size_1_elem_of in Hsize as [x Hx].
  assert (H1 : code ∈ ({[code]} ∪ keys)) by (apply elem_of_union; left; by apply elem_of_singleton).
  assert (H2 : other ∈ ({[code]} ∪ keys)) by (apply elem_of_union; by right).
  rewrite Hx in H1, H2. apply elem_of_singleton in H1, H2. congruence.
Qed.

(** The key-down handler in the playing phase with callbacks installed,
    for a key that is neither the bomb key nor the throw key and that does
    not come alone. *)
Lemma handleKeyDown_second_key code other shiftKey now g lobby :
  callbacks g = true ->
  currentLobby g = Some lobby -> Lobby.state lobby = GAME_PHASE.PLAYING ->
  other ∈ keysHeld g -> other <> code ->
  code <> "Space" -> code <> "KeyE" ->
  sent (handleKeyDown code shiftKey now g) = sent g
  /\ lastMoveTime (handleKeyDown code shiftKey now g) = lastMoveTime g.
Proof.
  intros Hcb Hl Hst Hin Hne Hsp He.
  unfold handleKeyDown. cbn [currentLobby set_keysHeld].
  rewrite Hl. cbn [fmap option_fmap option_map]. rewrite Hst.
  rewrite (bool_decide_eq_true_2 (Some GAME_PHASE.PLAYING = Some GAME_PHASE.PLAYING))
    by reflexivity.
  cbn [negb].
  rewrite (bool_decide_eq_false_2 (code = "Space")) by exact Hsp.
  rewrite (bool_decide_eq_false_2 (code = "KeyE")) by exact He.
  cbn [keysHeld set_keysHeld].
  rewrite (bool_decide_eq_false_2 (size _ = 1%nat)) by (by apply (two_keys_held code other)).
  by cbn.
Qed.

(** The bomb key and the throw key: one intent per key-down, whatever else
    is held, and no movement. *)
Lemma handleKeyDown_action code shiftKey now g lobby (i : Intent) :
  callbacks g = true ->
  currentLobby g = Some lobby -> Lobby.state lobby = GAME_PHASE.PLAYING ->
  (code = "Space" /\ i = onBomb) \/ (code = "KeyE" /\ i = onThrow) ->
  sent (handleKeyDown code shiftKey now g) = sent g ++ [i]
  /\ lastMoveTime (handleKeyDown code shiftKey now g) = lastMoveTime g.
Proof.
  intros Hcb Hl Hst Hcode.
  unfold handleKeyDown. cbn [currentLobby set_keysHeld].
  rewrite Hl. cbn [fmap option_fmap option_map]. rewrite Hst.
  rewrite (bool_decide_eq_true_2 (Some GAME_PHASE.PLAYING = Some GAME_PHASE.PLAYING))
    by reflexivity.
  cbn [negb].
  destruct Hcode as [[-> ->]|[-> ->]].
  - rewrite (bool_decide_eq_true_2 ("Space" = "Space")) by reflexivity.
    rewrite (bool_decide_eq_false_2 ("Space" = "KeyE")) by discriminate.
    unfold emit. cbn [callbacks set_keysHeld]. rewrite Hcb.
    cbn [keysHeld set_sent set_keysHeld].
    destruct (bool_decide (size _ = 1%nat)); [|by cbn].
    match goal with
    | |- context [match ?d with Some _ => _ | None => _ end] =>
        let v := eval vm_compute in d in change d with v
    end.
    by cbn.
  - rewrite (bool_decide_eq_false_2 ("KeyE" = "Space")) by discriminate.
    rewrite (bool_decide_eq_true_2 ("KeyE" = "KeyE")) by reflexivity.
    unfold emit. cbn [callbacks set_keysHeld]. rewrite Hcb.
    cbn [keysHeld set_sent set_keysHeld].
    destruct (bool_decide (size _ = 1%nat)); [|by cbn].
    match goal with
    | |- context [match ?d with Some _ => _ | None => _ end] =>
        let v := eval vm_compute in d in change d with v
    end.
    by cbn.
Qed.

End RouterFacts2.

(** X8: releasing a key removes it from the held set, also right after its
    key-down, and sends nothing; once the last held key is released frames
    send no more movement. *)
Theorem key_release_stops_movement :
  forall (code : string) (g : Game.t),
    Game.keysHeld (Game.handleKeyUp code g) = Game.keysHeld g ∖ {[code]}
    /\ Game.sent (Game.handleKeyUp code g) = Game.sent g
    /\ (forall (shiftKey : bool) (now : Z),
          Game.keysHeld (Game.handleKeyUp code (Game.handleKeyDown code shiftKey now g))
          = Game.keysHeld g ∖ {[code]})
    /\ (Game.keysHeld g ⊆ {[code]} ->
        forall now : Z,
          Game.processHeldKeys now (Game.handleKeyUp code g) = Game.handleKeyUp code g).
Proof.
  intros code g. split; [reflexivity|]. split; [reflexivity|]. split.
  - intros shiftKey now. cbn [Game.handleKeyUp Game.keysHeld Game.set_keysHeld].
    rewrite handleKeyDown_keysHeld. apply set_eq. intros k.
    rewrite !elem_of_difference, elem_of_union, elem_of_singleton. tauto.
  - intros Hsub now. apply processHeldKeys_no_movement_key.
    apply Forall_forall. intros k _.
    cbn [Game.handleKeyUp Game.keysHeld Game.set_keysHeld].
    rewrite elem_of_difference. intros [Hk Hn]. apply Hn. by apply Hsub.
Qed.

Lemma key_release_stops_movement_witness :
  Game.processHeldKeys 5200
    (Game.handleKeyUp "ArrowUp" (Game.handleKeyDown "ArrowUp" false 5000 Sample.aliceScene))
  = Game.handleKeyUp "ArrowUp" (Game.handleKeyDown "ArrowUp" false 5000 Sample.aliceScene).
Proof.
  apply (proj2 (proj2 (proj2 (key_release_stops_movement "ArrowUp"
           (Game.handleKeyDown "ArrowUp" false 5000 Sample.aliceScene))))).
  rewrite handleKeyDown_keysHeld.
  replace (Game.keysHeld Sample.aliceScene) with (∅ : gset string) by (vm_compute; reflexivity).
  intros k. rewrite elem_of_union. intros [H|H]; [exact H|]. by apply elem_of_empty in H.
Defined.

(** X9: which direction a frame repeats when several movement keys are
    held.  In the playing phase, with callbacks installed and the repeat
    delay elapsed, up (arrow or W) wins over everything, then down, then
    left, then right, whatever the order in which the keys went down; the
    frame sends that one intent and records its time. *)
Theorem held_keys_direction_priority :
  forall (now : Z) (g : Game.t) (lobby : Lobby.t),
    Game.callbacks g = true ->
    Game.currentLobby g = Some lobby -> Lobby.state lobby = GAME_PHASE.PLAYING ->
    Game.moveRepeatDelay <= now - Game.lastMoveTime g ->
    let held (k1 k2 : string) := k1 ∈ Game.keysHeld g \/ k2 ∈ Game.keysHeld g in
    let sends (d : Z) :=
      Game.sent (Game.processHeldKeys now g) = Game.sent g ++ [onMove d]
      /\ Game.lastMoveTime (Game.processHeldKeys now g) = now in
    (held "ArrowUp" "KeyW" -> sends DIRECTION.UP)
    /\ (~ held "ArrowUp" "KeyW" -> held "ArrowDown" "KeyS" -> sends DIRECTION.DOWN)
    /\ (~ held "ArrowUp" "KeyW" -> ~ held "ArrowDown" "KeyS" ->
        held "ArrowLeft" "KeyA" -> sends DIRECTION.LEFT)
    /\ (~ held "ArrowUp" "KeyW" -> ~ held "ArrowDown" "KeyS" ->
        ~ held "ArrowLeft" "KeyA" -> held "ArrowRight" "KeyD" -> sends DIRECTION.RIGHT).
Proof.
  intros now g lobby Hcb Hl Hst Hdelay held sends. subst held sends. cbv beta.
  assert (Hor : forall k1 k2 : string,
            k1 ∈ Game.keysHeld g \/ k2 ∈ Game.keysHeld g ->
            bool_decide (k1 ∈ Game.keysHeld g) || bool_decide (k2 ∈ Game.keysHeld g) = true).
  { intros k1 k2 [H|H]; rewrite (bool_decide_eq_true_2 _ H);
      [reflexivity | apply orb_true_r]. }
  assert (Hnor : forall k1 k2 : string,
            ~ (k1 ∈ Game.keysHeld g \/ k2 ∈ Game.keysHeld g) ->
            bool_decide (k1 ∈ Game.keysHeld g) || bool_decide (k2 ∈ Game.keysHeld g) = false).
  { intros k1 k2 H. rewrite !bool_decide_eq_false_2; [reflexivity| |]; tauto. }
  assert (Hgo : forall d : option Z,
            Game.processHeldKeys now g
            = match
                (if bool_decide ("ArrowUp" ∈ Game.keysHeld g)
                    || bool_decide ("KeyW" ∈ Game.keysHeld g) then Some DIRECTION.UP
                 else if bool_decide ("ArrowDown" ∈ Game.keysHeld g)
                         || bool_decide ("KeyS" ∈ Game.keysHeld g) then Some DIRECTION.DOWN
                 else if bool_decide ("ArrowLeft" ∈ Game.keysHeld g)
                         || bool_decide ("KeyA" ∈ Game.keysHeld g) then Some DIRECTION.LEFT
                 else if bool_decide ("ArrowRight" ∈ Game.keysHeld g)
                         || bool_decide ("KeyD" ∈ Game.keysHeld g) then Some DIRECTION.RIGHT
                 else None)
              with
              | Some d => Game.set_lastMoveTime now
                            (Game.set_sent (Game.sent g ++ [onMove d]) g)
              | None => g
              end).
  { intros _. unfold Game.processHeldKeys, Game.emit. rewrite Hl.
    cbn [fmap option_fmap option_map]. rewrite Hst.
    rewrite (bool_decide_eq_true_2 (Some GAME_PHASE.PLAYING = Some GAME_PHASE.PLAYING))
      by reflexivity.
    cbn [negb]. replace (now - Game.lastMoveTime g <? Game.moveRepeatDelay) with false
      by (symmetry; apply Z.ltb_ge; exact Hdelay).
    cbv zeta. rewrite Hcb. reflexivity. }
  rewrite (Hgo None). clear Hgo.
  split; [|split; [|split]].
  - intros H. by rewrite (Hor _ _ H).
  - intros H1 H2. by rewrite (Hnor _ _ H1), (Hor _ _ H2).
  - intros H1 H2 H3. by rewrite (Hnor _ _ H1), (Hnor _ _ H2), (Hor _ _ H3).
  - intros H1 H2 H3 H4.
    by rewrite (Hnor _ _ H1), (Hnor _ _ H2), (Hnor _ _ H3), (Hor _ _ H4).
Qed.

Lemma held_keys_direction_priority_witness :
  Game.sent
    (Game.processHeldKeys 5200
       (Game.handleKeyDown "KeyW" false 5010
          (Game.handleKeyDown "ArrowRight" false 5000 Sample.aliceScene)))
  = Game.sent
      (Game.handleKeyDown "KeyW" false 5010
         (Game.handleKeyDown "ArrowRight" false 5000 Sample.aliceScene))
    ++ [onMove DIRECTION.UP].
Proof.
  pose proof (held_keys_direction_priority 5200
                (Game.handleKeyDown "KeyW" false 5010
                   (Game.handleKeyDown "ArrowRight" false 5000 Sample.aliceScene))
                (Sample.snapshot [Sample.alice; Sample.bob] GAME_PHASE.PLAYING [] []
                   (Some "alice"))) as H.
  destruct H as (Hup & _).
  - vm_compute. reflexivity.
  - vm_compute. reflexivity.
  - reflexivity.
  - vm_compute. discriminate.
  - apply Hup. right. rewrite handleKeyDown_keysHeld.
    apply elem_of_union. left. by apply elem_of_singleton.
Defined.

(** X10: in the playing phase with callbacks installed, the bomb key and
    the throw key send exactly one intent per key-down whatever else is
    held, and never a movement; any other key that goes down while another
    key is already held sends nothing at once and leaves the repeat clock
    alone (its movement, if any, comes with a later frame). *)
Theorem action_keys_and_second_keys :
  forall (code : string) (shiftKey : bool) (now : Z) (g : Game.t) (lobby : Lobby.t),
    Game.callbacks g = true ->
    Game.currentLobby g = Some lobby -> Lobby.state lobby = GAME_PHASE.PLAYING ->
    (code = "Space" ->
       Game.sent (Game.handleKeyDown code shiftKey now g) = Game.sent g ++ [onBomb]
       /\ Game.lastMoveTime (Game.handleKeyDown code shiftKey now g) = Game.lastMoveTime g)
    /\ (code = "KeyE" ->
       Game.sent (Game.handleKeyDown code shiftKey now g) = Game.sent g ++ [onThrow]
       /\ Game.lastMoveTime (Game.handleKeyDown code shiftKey now g) = Game.lastMoveTime g)
    /\ (code <> "Space" -> code <> "KeyE" ->
       forall other : string,
         other ∈ Game.keysHeld g -> other <> code ->
         Game.sent (Game.handleKeyDown code shiftKey now g) = Game.sent g
         /\ Game.lastMoveTime (Game.handleKeyDown code shiftKey now g)
            = Game.lastMoveTime g).
Proof.
  intros code shiftKey now g lobby Hcb Hl Hst. split; [|split].
  - intros Hc. apply (handleKeyDown_action code shiftKey now g lobby); auto.
  - intros Hc. apply (handleKeyDown_action code shiftKey now g lobby); auto.
  - intros Hsp He other Hin Hne.
    by apply (handleKeyDown_second_key code other shiftKey now g lobby).
Qed.

Lemma action_keys_and_second_keys_witness :
  Game.sent
    (Game.handleKeyDown "Space" false 5010
       (Game.handleKeyDown "ArrowRight" false 5000 Sample.aliceScene))
  = Game.sent (Game.handleKeyDown "ArrowRight" false 5000 Sample.aliceScene) ++ [onBomb].
Proof.
  pose proof (action_keys_and_second_keys "Space" false 5010
                (Game.handleKeyDown "ArrowRight" false 5000 Sample.aliceScene)
                (Sample.snapshot [Sample.alice; Sample.bob] GAME_PHASE.PLAYING [] []
                   (Some "alice"))) as H.
  destruct H as (Hbomb & _).
  - vm_compute. reflexivity.
  - vm_compute. reflexivity.
  - reflexivity.
  - apply Hbomb. reflexivity.
Defined.

(** ** Bomb animation: further properties *)

Section BombAnimation.
Import Game.

(** [sin] on the half turn that the bounce and the squash run through. *)
Lemma sin_half_turn (t : R) : (0 <= t <= 1)%R -> (0 <= sin (t * PI) <= 1)%R.
Proof.
  intros Ht. pose proof PI_RGT_0 as Hpi. split.
  - apply sin_ge_0; nra.
  - apply SIN_bound.
Qed.

Lemma bounceOffsetOf_range s :
  0 <= BombSprite.bounceTime s -> (-20 <= bounceOffsetOf s <= 0)%R.
Proof.
  intros Hb. unfold bounceOffsetOf.
  assert (Hr : 0 <= Z.rem (BombSprite.bounceTime s) 150 < 150)
    by (apply Z.rem_bound_pos; lia).
  assert (Hq : (0 <= IZR (Z.rem (BombSprite.bounceTime s) 150) / 150 <= 1)%R).
  { destruct Hr as [H0 H1]. apply IZR_le in H0. apply IZR_lt in H1. split.
    - apply Rmult_le_pos; lra.
    - apply Rmult_le_reg_r with 150%R; [lra|]. field_simplify. lra. }
  pose proof (sin_half_turn _ Hq). lra.
Qed.

Lemma animateBomb_bounceTime s :
  0 <= BombSprite.bounceTime s -> 0 <= BombSprite.bounceTime (animateBomb s).
Proof.
  intros H. unfold animateBomb, advanceBounce. repeat case_match; cbn; lia.
Qed.

End BombAnimation.

Section BombWrapFacts.
Import Game.

(** The scale that a frame of the wrap bounce leaves: between 0.6 and 1.3
    along the travel axis, between 0.91 and 1.12 across it. *)
Lemma animateBomb_wrap_scale s :
  (0 < BombSprite.wrapBouncePhase s < 2)%R ->
  let along d := match BombSprite.wrapBounceDir s with
                 | Some AxisX => Display.scaleX d
                 | _ => Display.scaleY d
                 end in
  let across d := match BombSprite.wrapBounceDir s with
                  | Some AxisX => Display.scaleY d
                  | _ => Display.scaleX d
                  end in
  (0.6 <= along (BombSprite.graphics (animateBomb s)) <= 1.3)%R
  /\ (0.91 <= across (BombSprite.graphics (animateBomb s)) <= 1.12)%R.
Proof.
  intros Hin along across. subst along across. unfold animateBomb.
  rewrite bool_decide_eq_true_2 by (split; lra). cbv zeta.
  cbn [BombSprite.wrapBouncePhase BombSprite.set_wrapBouncePhase].
  set (p := (BombSprite.wrapBouncePhase s + 0.08)%R).
  destruct (decide (p >= 2)%R) as [Hge|Hlt].
  - destruct (decide (p < 1)%R); [lra|].
    destruct (bool_decide _); destruct (BombSprite.wrapBounceDir s) as [[|]|] eqn:Hd;
      destruct (BombData.isFlying _); cbn; rewrite ?Hd; cbn; split; lra.
  - destruct (decide (p < 1)%R) as [Hexit|Henter].
    + assert (Hs : (0 <= sin (p * PI) <= 1)%R) by (apply sin_half_turn; subst p; lra).
      destruct (BombSprite.wrapBounceDir s) as [[|]|] eqn:Hd;
        destruct (BombData.isFlying _); cbn; rewrite ?Hd; cbn; split; lra.
    + assert (Hs : (0 <= sin ((p - 1) * PI) <= 1)%R)
        by (apply sin_half_turn; subst p; lra).
      destruct (bool_decide _); destruct (BombSprite.wrapBounceDir s) as [[|]|] eqn:Hd;
        destruct (BombData.isFlying _); cbn; rewrite ?Hd; cbn; split; lra.
Qed.

(** Where a frame of the wrap bounce leaves the sprite: on the target in
    the frame that crosses phase 1, where it was in every other frame. *)
Lemma animateBomb_wrap_position s :
  (0 < BombSprite.wrapBouncePhase s < 2)%R ->
  (Display.x (BombSprite.graphics (animateBomb s)),
   Display.y (BombSprite.graphics (animateBomb s)))
  = if bool_decide (BombSprite.wrapBouncePhase s + 0.08 >= 1
                    /\ BombSprite.wrapBouncePhase s + 0.08 < 1.08)%R
    then (BombSprite.targetX s, BombSprite.targetY s)
    else (Display.x (BombSprite.graphics s), Display.y (BombSprite.graphics s)).
Proof.
  intros Hin. unfold animateBomb.
  rewrite bool_decide_eq_true_2 by (split; lra). cbv zeta.
  cbn [BombSprite.wrapBouncePhase BombSprite.set_wrapBouncePhase].
  set (p := (BombSprite.wrapBouncePhase s + 0.08)%R).
  destruct (decide (p < 1)%R) as [Hexit|Henter].
  - rewrite bool_decide_eq_false_2 by (intros [? ?]; lra).
    destruct (decide (p >= 2)%R); [lra|].
    destruct (BombSprite.wrapBounceDir _) as [[|]|]; destruct (BombData.isFlying _); by cbn.
  - destruct (bool_decide (p >= 1 /\ p < 1.08)%R);
      destruct (decide (p >= 2)%R);
      destruct (BombSprite.wrapBounceDir _) as [[|]|]; destruct (BombData.isFlying _);
      by cbn.
Qed.

End BombWrapFacts.

Section BombWrapRun.
Import Game.

(** A frame of an idle bomb. *)
Lemma animateBomb_idle_frame s :
  BombSprite.wrapBouncePhase s = 0%R ->
  let speed : R :=
    if BombData.isFlying (BombSprite.data s) then 0.35%R
    else if BombData.isMoving (BombSprite.data s) then 0.3%R else 0.25%R in
  let offset : R :=
    if BombData.isFlying (BombSprite.data s)
    then bounceOffsetOf (advanceBounce s) else 0%R in
  Display.x (BombSprite.graphics (animateBomb s))
  = lerp (Display.x (BombSprite.graphics s)) (BombSprite.targetX s) speed
  /\ Display.y (BombSprite.graphics (animateBomb s))
     = lerp (Display.y (BombSprite.graphics s)) (BombSprite.targetY s + offset) speed
  /\ BombSprite.bounceTime (animateBomb s)
     = (if BombData.isFlying (BombSprite.data s) then BombSprite.bounceTime s + 16 else 0).
Proof.
  intros H0 speed offset. subst speed offset. unfold animateBomb.
  rewrite bool_decide_eq_false_2 by (intros [? ?]; lra).
  destruct (BombData.isFlying (BombSprite.data s)) eqn:Hf;
    unfold bounceOffsetOf, advanceBounce; cbn; rewrite ?Hf; cbn; by rewrite ?Hf.
Qed.

End BombWrapRun.

(** X11: a frame of a bomb that is not in a wrap bounce eases it toward its
    target at a rate set by its flags (0.35 flying, else 0.3 moving, else
    0.25), so the horizontal offset shrinks by that rate.  A flying bomb is
    eased vertically toward the target raised by a bounce offset between 0
    and 20 pixels and its bounce clock advances by 16; the frame after the
    flying flag clears, the clock is back at 0 and the offset is gone. *)
Theorem idle_bomb_frame_eases_and_bounces :
  forall s : BombSprite.t,
    BombSprite.wrapBouncePhase s = 0%R ->
    0 <= BombSprite.bounceTime s ->
    exists speed offset : R,
      speed = (if BombData.isFlying (BombSprite.data s) then 0.35%R
               else if BombData.isMoving (BombSprite.data s) then 0.3%R else 0.25%R)
      /\ (Display.x (BombSprite.graphics (Game.animateBomb s)) - BombSprite.targetX s
          = (1 - speed) * (Display.x (BombSprite.graphics s) - BombSprite.targetX s))%R
      /\ (Display.y (BombSprite.graphics (Game.animateBomb s))
          - (BombSprite.targetY s + offset)
          = (1 - speed)
            * (Display.y (BombSprite.graphics s) - (BombSprite.targetY s + offset)))%R
      /\ (-20 <= offset <= 0)%R
      /\ (BombData.isFlying (BombSprite.data s) = false ->
          offset = 0%R /\ BombSprite.bounceTime (Game.animateBomb s) = 0)
      /\ (BombData.isFlying (BombSprite.data s) = true ->
          BombSprite.bounceTime (Game.animateBomb s) = BombSprite.bounceTime s + 16).
Proof.
  intros s H0 Hb.
  destruct (animateBomb_idle_frame s H0) as (Hx & Hy & Ht).
  exists (if BombData.isFlying (BombSprite.data s) then 0.35%R
          else if BombData.isMoving (BombSprite.data s) then 0.3%R else 0.25%R),
         (if BombData.isFlying (BombSprite.data s)
          then Game.bounceOffsetOf (Game.advanceBounce s) else 0%R).
  split; [reflexivity|].
  rewrite Hx, Hy, Ht. unfold Game.lerp.
  split; [ring|]. split; [ring|]. split.
  - destruct (BombData.isFlying _); [|lra].
    apply bounceOffsetOf_range. cbn. lia.
  - split; intros Hf; rewrite Hf; done.
Qed.

Lemma idle_bomb_frame_eases_and_bounces_witness :
  exists speed offset : R,
    speed = 0.35%R
    /\ (-20 <= offset <= 0)%R
    /\ (Display.y
          (BombSprite.graphics
             (Game.animateBomb
                (BombSprite.mk (Display.mk 20 140 1 1) 0 60 140 (Sample.bombAt 1 3 true) 0
                   0 None 20 140)))
        - (140 + offset)
        = (1 - speed) * (140 - (140 + offset)))%R.
Proof.
  destruct (idle_bomb_frame_eases_and_bounces
              (BombSprite.mk (Display.mk 20 140 1 1) 0 60 140 (Sample.bombAt 1 3 true) 0
                 0 None 20 140))
    as (speed & offset & Hs & _ & Hy & Ho & _).
  - reflexivity.
  - cbn. lia.
  - exists speed, offset. cbn in Hs. split; [exact Hs|]. split; [exact Ho|]. exact Hy.
Defined.

(** X12: the squash and stretch of the wrap bounce stay within fixed
    bounds: after every frame of a bounce in progress the scale along the
    travel axis is between 0.6 and 1.3 and the scale across it between 0.91
    and 1.12. *)
Theorem wrap_bounce_scale_is_bounded :
  forall s : BombSprite.t,
    (0 < BombSprite.wrapBouncePhase s < 2)%R ->
    match BombSprite.wrapBounceDir s with
    | Some AxisX =>
        (0.6 <= Display.scaleX (BombSprite.graphics (Game.animateBomb s)) <= 1.3)%R
        /\ (0.91 <= Display.scaleY (BombSprite.graphics (Game.animateBomb s)) <= 1.12)%R
    | _ =>
        (0.6 <= Display.scaleY (BombSprite.graphics (Game.animateBomb s)) <= 1.3)%R
        /\ (0.91 <= Display.scaleX (BombSprite.graphics (Game.animateBomb s)) <= 1.12)%R
    end.
Proof.
  intros s Hin. pose proof (animateBomb_wrap_scale s Hin) as H. cbv zeta in H.
  by destruct (BombSprite.wrapBounceDir s) as [[|]|].
Qed.

Lemma wrap_bounce_scale_is_bounded_witness :
  (0.6 <= Display.scaleX (BombSprite.graphics (Game.animateBomb Sample.triggeredBomb))
   <= 1.3)%R
  /\ (0.91 <= Display.scaleY (BombSprite.graphics (Game.animateBomb Sample.triggeredBomb))
      <= 1.12)%R.
Proof.
  assert (H : (0 < BombSprite.wrapBouncePhase Sample.triggeredBomb < 2)%R) by (cbn; lra).
  exact (wrap_bounce_scale_is_bounded Sample.triggeredBomb H).
Defined.

Section BombWrapStages.
Import Game.

(** The entering stage: from phase 1 on, the frames of the bounce leave
    the sprite where it is until the bounce ends. *)
Lemma wrap_entering_keeps_position (k : nat) :
  forall s : BombSprite.t,
    (1 <= BombSprite.wrapBouncePhase s < 2)%R ->
    (BombSprite.wrapBouncePhase s + 0.08 * INR k >= 2)%R ->
    exists n : nat,
      (1 <= n <= k)%nat
      /\ BombSprite.wrapBouncePhase (Nat.iter n animateBomb s) = 0%R
      /\ (forall j, (j <= n)%nat ->
            (Display.x (BombSprite.graphics (Nat.iter j animateBomb s)),
             Display.y (BombSprite.graphics (Nat.iter j animateBomb s)))
            = (Display.x (BombSprite.graphics s), Display.y (BombSprite.graphics s)))
      /\ (forall j, (j < n)%nat ->
            (1 <= BombSprite.wrapBouncePhase (Nat.iter j animateBomb s) < 2)%R).
Proof.
  induction k as [|k IH]; intros s Hin Hk.
  - cbn [INR] in Hk. lra.
  - assert (Hpos : (Display.x (BombSprite.graphics (animateBomb s)),
                    Display.y (BombSprite.graphics (animateBomb s)))
                   = (Display.x (BombSprite.graphics s),
                      Display.y (BombSprite.graphics s))).
    { rewrite animateBomb_wrap_position by lra.
      by rewrite bool_decide_eq_false_2 by (intros [? ?]; lra). }
    destruct (Rge_dec (BombSprite.wrapBouncePhase s + 0.08) 2) as [Hge|Hlt].
    + exists 1%nat. split; [lia|].
      destruct (animateBomb_complete s) as (Hp & _); [lra | exact Hge |].
      split; [exact Hp|]. split.
      * intros j Hj. destruct j as [|[|j]]; [reflexivity | exact Hpos | lia].
      * intros j Hj. destruct j as [|j]; [exact Hin | lia].
    + apply Rnot_ge_lt in Hlt.
      destruct (animateBomb_advance s) as (Hp & _ & _); [lra | exact Hlt |].
      rewrite S_INR in Hk.
      destruct (IH (animateBomb s)) as (n & Hn & Hn0 & Hnpos & Hnph).
      * rewrite Hp. lra.
      * rewrite Hp. lra.
      * exists (S n). split; [lia|]. rewrite Nat.iter_succ_r.
        split; [exact Hn0|]. split.
        -- intros j Hj. destruct j as [|j]; [reflexivity|].
           rewrite Nat.iter_succ_r, Hnpos by lia. exact Hpos.
        -- intros j Hj. destruct j as [|j]; [exact Hin|].
           rewrite Nat.iter_succ_r. apply Hnph. lia.
Qed.

(** The three stages of a bounce that starts in its exit stage: the frames
    before the crossing frame [c] hold the rendered position, the frame [c]
    that crosses phase 1 puts the sprite on its target, and the frames up to
    the last frame [n] of the bounce hold it there. *)
Lemma wrap_bounce_stages (k : nat) :
  forall s : BombSprite.t,
    (0 < BombSprite.wrapBouncePhase s < 1)%R ->
    (BombSprite.wrapBouncePhase s + 0.08 * INR k >= 2)%R ->
    exists c n : nat,
      (1 <= c <= n)%nat /\ (n <= k)%nat
      /\ (forall j, (j < c)%nat ->
            (Display.x (BombSprite.graphics (Nat.iter j animateBomb s)),
             Display.y (BombSprite.graphics (Nat.iter j animateBomb s)))
            = (Display.x (BombSprite.graphics s), Display.y (BombSprite.graphics s))
            /\ (0 < BombSprite.wrapBouncePhase (Nat.iter j animateBomb s) < 1)%R)
      /\ (forall j, (c <= j <= n)%nat ->
            (Display.x (BombSprite.graphics (Nat.iter j animateBomb s)),
             Display.y (BombSprite.graphics (Nat.iter j animateBomb s)))
            = (BombSprite.targetX s, BombSprite.targetY s))
      /\ (forall j, (c <= j < n)%nat ->
            (1 <= BombSprite.wrapBouncePhase (Nat.iter j animateBomb s) < 2)%R)
      /\ BombSprite.wrapBouncePhase (Nat.iter n animateBomb s) = 0%R.
Proof.
  induction k as [|k IH]; intros s Hin Hk.
  - cbn [INR] in Hk. lra.
  - destruct (animateBomb_advance s) as (Hp & _ & _); [lra | lra |].
    destruct (animateBomb_data s) as (_ & Htx & Hty & _).
    rewrite S_INR in Hk.
    destruct (Rlt_dec (BombSprite.wrapBouncePhase s + 0.08) 1) as [Hexit|Hcross].
    + assert (Hpos : (Display.x (BombSprite.graphics (animateBomb s)),
                      Display.y (BombSprite.graphics (animateBomb s)))
                     = (Display.x (BombSprite.graphics s),
                        Display.y (BombSprite.graphics s))).
      { rewrite animateBomb_wrap_position by lra.
        by rewrite bool_decide_eq_false_2 by (intros [? ?]; lra). }
      destruct (IH (animateBomb s)) as (c & n & Hc & Hn & Hhold & Hland & Hph & Hend).
      * rewrite Hp. lra.
      * rewrite Hp. lra.
      * exists (S c), (S n). split; [lia|]. split; [lia|].
        split; [|split; [|split]].
        -- intros j Hj. destruct j as [|j]; [split; [reflexivity | exact Hin]|].
           rewrite Nat.iter_succ_r.
           destruct (Hhold j ltac:(lia)) as [Hh1 Hh2]. by rewrite Hh1, Hpos.
        -- intros j Hj. destruct j as [|j]; [lia|].
           rewrite Nat.iter_succ_r, Hland by lia. by rewrite Htx, Hty.
        -- intros j Hj. destruct j as [|j]; [lia|].
           rewrite Nat.iter_succ_r. apply Hph. lia.
        -- by rewrite Nat.iter_succ_r.
    + apply Rnot_lt_ge in Hcross.
      assert (Hpos : (Display.x (BombSprite.graphics (animateBomb s)),
                      Display.y (BombSprite.graphics (animateBomb s)))
                     = (BombSprite.targetX s, BombSprite.targetY s)).
      { rewrite animateBomb_wrap_position by lra.
        by rewrite bool_decide_eq_true_2 by (split; lra). }
      destruct (wrap_entering_keeps_position k (animateBomb s))
        as (n & Hn & Hn0 & Hnpos & Hnph).
      * rewrite Hp. lra.
      * rewrite Hp. lra.
      * exists 1%nat, (S n). split; [lia|]. split; [lia|].
        split; [|split; [|split]].
        -- intros j Hj. destruct j as [|j]; [split; [reflexivity | exact Hin] | lia].
        -- intros j Hj. destruct j as [|j]; [lia|].
           rewrite Nat.iter_succ_r, Hnpos by lia. exact Hpos.
        -- intros j Hj. destruct j as [|j]; [lia|].
           rewrite Nat.iter_succ_r. apply Hnph. lia.
        -- by rewrite Nat.iter_succ_r.
Qed.

End BombWrapStages.

(** X13: left to the frames alone, a wrap bounce ends with the bomb on its
    target.  For a bomb sprite in the exit stage of a bounce (phase between 0
    and 1) there are a crossing frame [c] and a last frame [n], with
    [1 <= c <= n <= 25], such that in any run of frames with no
    reconciliation in between: after fewer than [c] frames the sprite is
    still drawn where it was and the phase is below 1; after [c] up to [n]
    frames it is drawn exactly on its interpolation target; and after [n]
    frames the bounce is over (phase 0).  The frames never move the target;
    only an update could. *)
Theorem wrap_bounce_lands_on_target :
  forall (g : Game.t) (id : string) (s : BombSprite.t),
    Game.bombSprites g !! id = Some s ->
    (0 < BombSprite.wrapBouncePhase s < 1)%R ->
    exists c n : nat,
      (1 <= c <= n)%nat /\ (n <= 25)%nat
      /\ forall frames : list FrameInput,
           exists s',
             Game.bombSprites (runFrames frames g) !! id = Some s'
             /\ BombSprite.targetX s' = BombSprite.targetX s
             /\ BombSprite.targetY s' = BombSprite.targetY s
             /\ ((length frames < c)%nat ->
                 Display.x (BombSprite.graphics s') = Display.x (BombSprite.graphics s)
                 /\ Display.y (BombSprite.graphics s') = Display.y (BombSprite.graphics s)
                 /\ (0 < BombSprite.wrapBouncePhase s' < 1)%R)
             /\ ((c <= length frames <= n)%nat ->
                 Display.x (BombSprite.graphics s') = BombSprite.targetX s
                 /\ Display.y (BombSprite.graphics s') = BombSprite.targetY s)
             /\ ((c <= length frames < n)%nat ->
                 (1 <= BombSprite.wrapBouncePhase s' < 2)%R)
             /\ (length frames = n -> BombSprite.wrapBouncePhase s' = 0%R).
Proof.
  intros g id s Hs Hin.
  destruct (wrap_bounce_stages 25 s Hin) as (c & n & Hc & Hn & Hhold & Hland & Hph & Hend).
  { replace (INR 25) with 25%R by (cbn; lra). lra. }
  exists c, n. split; [exact Hc|]. split; [exact Hn|].
  intros frames. exists (Nat.iter (length frames) Game.animateBomb s).
  destruct (runFrames_sprites frames g) as (_ & Hb & _).
  rewrite Hb, lookup_fmap, Hs. split; [reflexivity|].
  destruct (animateBomb_iter_data (length frames) s) as (_ & Htx & Hty & _).
  split; [exact Htx|]. split; [exact Hty|].
  split; [|split; [|split]].
  - intros Hlt. destruct (Hhold _ Hlt) as [Hpos Hphase].
    injection Hpos as Hx Hy. done.
  - intros Hle. pose proof (Hland _ Hle) as Hpos. injection Hpos as Hx Hy. done.
  - intros Hle. by apply Hph.
  - intros ->. exact Hend.
Qed.

Lemma wrap_bounce_lands_on_target_witness :
  exists c n : nat,
    (1 <= c <= n)%nat /\ (n <= 25)%nat
    /\ forall frames : list FrameInput,
         exists s',
           Game.bombSprites
             (runFrames frames
                (Game.set_bombSprites {["bomb-1" := Sample.triggeredBomb]} Sample.emptyScene))
           !! "bomb-1" = Some s'
           /\ ((c <= length frames <= n)%nat ->
               Display.x (BombSprite.graphics s') = 740%R
               /\ Display.y (BombSprite.graphics s') = 140%R)
           /\ (length frames = n -> BombSprite.wrapBouncePhase s' = 0%R).
Proof.
  assert (H : (0 < BombSprite.wrapBouncePhase Sample.triggeredBomb < 1)%R) by (cbn; lra).
  assert (Hl : Game.bombSprites
                 (Game.set_bombSprites {["bomb-1" := Sample.triggeredBomb]} Sample.emptyScene)
               !! "bomb-1" = Some Sample.triggeredBomb)
    by (cbn; apply lookup_singleton_eq).
  destruct (wrap_bounce_lands_on_target _ "bomb-1" Sample.triggeredBomb Hl H)
    as (c & n & Hc & Hn & Hrun).
  exists c, n. split; [exact Hc|]. split; [exact Hn|].
  intros frames. destruct (Hrun frames) as (s' & Hs' & _ & _ & _ & Hland & _ & Hend).
  exists s'. split; [exact Hs'|]. split; [exact Hland | exact Hend].
Defined.

(** ** Player presenter: further properties *)

Section PlayerUpdateFacts.
Import Game.

(** The sprite that [addPlayer] registers. *)
Lemma addPlayer_lookup p g :
  playerSprites (addPlayer p g) !! Player.socketId p
  = Some (PlayerSprite.mk
            (Display.mk (px (gridToPixel (Player.gridX p) (Player.gridY p)))
               (py (gridToPixel (Player.gridX p) (Player.gridY p))) 1 1)
            (px (gridToPixel (Player.gridX p) (Player.gridY p)))
            (py (gridToPixel (Player.gridX p) (Player.gridY p)))
            p 0
            (px (gridToPixel (Player.gridX p) (Player.gridY p)))
            (py (gridToPixel (Player.gridX p) (Player.gridY p))) 0).
Proof. cbn. by rewrite lookup_insert_eq. Qed.

(** Updating a sprite with the data it already shows changes nothing,
    whatever the clock says. *)
Lemma updatePlayerSprite_same_data now gt p s :
  PlayerSprite.data s = p ->
  PlayerSprite.targetX s = px (gridToPixel (Player.gridX p) (Player.gridY p)) ->
  PlayerSprite.targetY s = py (gridToPixel (Player.gridX p) (Player.gridY p)) ->
  updatePlayerSprite now gt p s = s.
Proof.
  intros Hd Hx Hy. unfold updatePlayerSprite. rewrite Hd.
  replace (negb (Player.alive p) && negb (negb (Player.alive p))) with false
    by (by destruct (Player.alive p)).
  rewrite decide_False by (intros [H|H]; congruence).
  destruct s; cbn in *. by subst.
Qed.

Lemma updatePlayerSprite_target now gt p s :
  PlayerSprite.data (updatePlayerSprite now gt p s) = p
  /\ PlayerSprite.targetX (updatePlayerSprite now gt p s)
     = px (gridToPixel (Player.gridX p) (Player.gridY p))
  /\ PlayerSprite.targetY (updatePlayerSprite now gt p s)
     = py (gridToPixel (Player.gridX p) (Player.gridY p)).
Proof. by cbn. Qed.

(** The movement stamp of [updatePlayer]. *)
Lemma updatePlayerSprite_move now gt p s :
  let moved :=
    decide (px (gridToPixel (Player.gridX p) (Player.gridY p)) <> PlayerSprite.targetX s
            \/ py (gridToPixel (Player.gridX p) (Player.gridY p))
               <> PlayerSprite.targetY s) in
  PlayerSprite.lastX (updatePlayerSprite now gt p s)
  = (if moved then PlayerSprite.targetX s else PlayerSprite.lastX s)
  /\ PlayerSprite.lastY (updatePlayerSprite now gt p s)
     = (if moved then PlayerSprite.targetY s else PlayerSprite.lastY s)
  /\ PlayerSprite.movePhase (updatePlayerSprite now gt p s)
     = (if moved then gt else PlayerSprite.movePhase s).
Proof.
  unfold updatePlayerSprite.
  destruct (negb (Player.alive p) && _); cbn; destruct (decide _); by cbn.
Qed.

End PlayerUpdateFacts.

(** X14: the squash-and-stretch clock of a player restarts exactly when the
    player changes cell.  For a sprite whose target is the centre of the cell
    it last heard of, an update with the same cell leaves the previous
    position and the move stamp alone; an update with another cell records
    the old target as previous position and stamps the current frame time.
    Either way the target becomes the centre of the new cell. *)
Theorem move_stamp_follows_cell_change :
  forall (now globalTime : Z) (p : Player.t) (s : PlayerSprite.t),
    PlayerSprite.targetX s
    = px (gridToPixel (Player.gridX (PlayerSprite.data s)) (Player.gridY (PlayerSprite.data s))) ->
    PlayerSprite.targetY s
    = py (gridToPixel (Player.gridX (PlayerSprite.data s)) (Player.gridY (PlayerSprite.data s))) ->
    let s' := Game.updatePlayerSprite now globalTime p s in
    ((Player.gridX p = Player.gridX (PlayerSprite.data s)
      /\ Player.gridY p = Player.gridY (PlayerSprite.data s)) ->
       PlayerSprite.lastX s' = PlayerSprite.lastX s
       /\ PlayerSprite.lastY s' = PlayerSprite.lastY s
       /\ PlayerSprite.movePhase s' = PlayerSprite.movePhase s)
    /\ ((Player.gridX p <> Player.gridX (PlayerSprite.data s)
         \/ Player.gridY p <> Player.gridY (PlayerSprite.data s)) ->
       PlayerSprite.lastX s' = PlayerSprite.targetX s
       /\ PlayerSprite.lastY s' = PlayerSprite.targetY s
       /\ PlayerSprite.movePhase s' = globalTime)
    /\ PlayerSprite.targetX s'
       = px (gridToPixel (Player.gridX (PlayerSprite.data s')) (Player.gridY (PlayerSprite.data s')))
    /\ PlayerSprite.targetY s'
       = py (gridToPixel (Player.gridX (PlayerSprite.data s')) (Player.gridY (PlayerSprite.data s'))).
Proof.
  intros now gt p s Hx Hy s'. subst s'.
  pose proof (updatePlayerSprite_move now gt p s) as Hm. cbv zeta in Hm.
  split; [|split; [|split; reflexivity]].
  - intros [Hgx Hgy]. revert Hm. destruct (decide _) as [Hd|Hd]; [|done].
    exfalso. rewrite Hx, Hy, Hgx, Hgy in Hd. destruct Hd as [H|H]; congruence.
  - intros Hne. revert Hm. destruct (decide _) as [Hd|Hd]; [done|].
    exfalso. apply Hd. rewrite Hx, Hy. cbn. unfold GAME_CONFIG.TILE_SIZE.
    destruct Hne as [H|H]; [left | right]; intros E; apply H; lra.
Qed.

Lemma move_stamp_follows_cell_change_witness :
  PlayerSprite.lastX (Game.updatePlayerSprite 5000 4990 (Sample.carolAt 2 13) Sample.aliceSprite)
  = PlayerSprite.targetX Sample.aliceSprite
  /\ PlayerSprite.lastY
       (Game.updatePlayerSprite 5000 4990 (Sample.carolAt 2 13) Sample.aliceSprite)
     = PlayerSprite.targetY Sample.aliceSprite
  /\ PlayerSprite.movePhase
       (Game.updatePlayerSprite 5000 4990 (Sample.carolAt 2 13) Sample.aliceSprite)
     = 4990.
Proof.
  apply (proj1 (proj2 (move_stamp_follows_cell_change 5000 4990 (Sample.carolAt 2 13)
                         Sample.aliceSprite eq_refl eq_refl))).
  left. cbn. lra.
Defined.

Section Redelivery.
Import Game.

Lemma updateFromLobby_players_dom now lobby g :
  initialized g = true ->
  dom (playerSprites (updateFromLobby now lobby g))
  = list_to_set (Player.socketId <$> Lobby.players lobby).
Proof.
  intros Hi. destruct (updateFromLobby_playerSprites now lobby g Hi) as (g0 & _ & _ & ->).
  apply syncPlayers_dom.
Qed.

(** After a reconciliation the sprite of a listed player shows that
    player's data and aims at that player's cell. *)
Lemma updateFromLobby_listed_consistent now lobby g p :
  initialized g = true ->
  NoDup (Player.socketId <$> Lobby.players lobby) -> p ∈ Lobby.players lobby ->
  exists s,
    playerSprites (updateFromLobby now lobby g) !! Player.socketId p = Some s
    /\ PlayerSprite.data s = p
    /\ PlayerSprite.targetX s = px (gridToPixel (Player.gridX p) (Player.gridY p))
    /\ PlayerSprite.targetY s = py (gridToPixel (Player.gridX p) (Player.gridY p)).
Proof.
  intros Hi Hnd Hin. rewrite (updateFromLobby_lookup_listed now lobby g p Hi Hnd Hin).
  destruct (playerSprites g !! Player.socketId p) as [s|].
  - eexists. split; [reflexivity|]. apply updatePlayerSprite_target.
  - rewrite addPlayer_lookup. eexists. split; [reflexivity|]. by cbn.
Qed.

End Redelivery.

(** X15: delivering the same snapshot again does not disturb the player
    sprites.  On an initialised scene, for a snapshot whose players have
    distinct ids, a second reconciliation with the same snapshot, at
    whatever time, leaves the map of player sprites exactly as the first one
    left it: no death time is restamped, no move animation restarted, no
    position reset. *)
Theorem redelivered_snapshot_keeps_player_sprites :
  forall (t1 t2 : Z) (lobby : Lobby.t) (g : Game.t),
    Game.initialized g = true ->
    NoDup (Player.socketId <$> Lobby.players lobby) ->
    Game.playerSprites (Game.updateFromLobby t2 lobby (Game.updateFromLobby t1 lobby g))
    = Game.playerSprites (Game.updateFromLobby t1 lobby g).
Proof.
  intros t1 t2 lobby g Hi Hnd.
  assert (Hi1 : Game.initialized (Game.updateFromLobby t1 lobby g) = true)
    by (by rewrite updateFromLobby_initialized).
  apply map_eq. intros k.
  destruct (decide (k ∈ Player.socketId <$> Lobby.players lobby)) as [Hk|Hk].
  - apply list_elem_of_fmap in Hk as (p & -> & Hin).
    destruct (updateFromLobby_listed_consistent t1 lobby g p Hi Hnd Hin)
      as (s & Hs & Hd & Hx & Hy).
    rewrite (updateFromLobby_lookup_listed t2 lobby _ p Hi1 Hnd Hin), Hs.
    f_equal. by apply updatePlayerSprite_same_data.
  - assert (Hnone : forall t g', Game.initialized g' = true ->
                      Game.playerSprites (Game.updateFromLobby t lobby g') !! k = None).
    { intros t g' Hg'. apply not_elem_of_dom.
      rewrite (updateFromLobby_players_dom t lobby g' Hg').
      by rewrite elem_of_list_to_set. }
    by rewrite !Hnone.
Qed.

Lemma redelivered_snapshot_keeps_player_sprites_witness :
  Game.playerSprites
    (Game.updateFromLobby 5100 Sample.aliceDown
       (Game.updateFromLobby 5000 Sample.aliceDown Sample.aliceScene))
  = Game.playerSprites (Game.updateFromLobby 5000 Sample.aliceDown Sample.aliceScene).
Proof.
  apply (redelivered_snapshot_keeps_player_sprites 5000 5100 Sample.aliceDown
           Sample.aliceScene eq_refl).
  apply NoDup_cons. split; [|apply NoDup_singleton].
  intros H. apply list_elem_of_singleton in H. discriminate H.
Defined.

(** ** Scene lifecycle: further properties *)

(** X16: a destroyed scene owns nothing and ignores every later snapshot,
    as does a scene that was never initialised: after [destroy] the three
    sprite maps and the held keys are empty, any run of reconciliations
    leaves the scene exactly as [destroy] left it, and a second [destroy]
    changes nothing. *)
Theorem destroyed_scene_ignores_snapshots :
  forall (g : Game.t) (snapshots : list (Z * Lobby.t)),
    Game.playerSprites (Game.destroy g) = ∅
    /\ Game.bombSprites (Game.destroy g) = ∅
    /\ Game.explosionSprites (Game.destroy g) = ∅
    /\ Game.keysHeld (Game.destroy g) = ∅
    /\ reconcileAll snapshots (Game.destroy g) = Game.destroy g
    /\ Game.destroy (Game.destroy g) = Game.destroy g
    /\ reconcileAll snapshots Game.create = Game.create.
Proof.
  intros g snapshots.
  assert (H : forall g0, Game.initialized g0 = false -> reconcileAll snapshots g0 = g0).
  { intros g0 H0. induction snapshots as [|[t l] rest IH]; [reflexivity|].
    unfold reconcileAll. cbn [foldl]. unfold Game.updateFromLobby at 2.
    cbn [fst snd]. rewrite H0. cbn [negb]. exact IH. }
  repeat split; try reflexivity; by apply H.
Qed.

(** ** Player drawing: further properties *)

Section PlayerDrawFacts.
Import Game.

Lemma deathProgress_stamped now s :
  Player.alive (PlayerSprite.data s) = false ->
  0 < PlayerSprite.deathTime s ->
  PlayerDraw.deathProgress now s
  = Rmin (IZR (now - PlayerSprite.deathTime s) / 1500) 1.
Proof.
  intros Ha Ht. unfold PlayerDraw.deathProgress. rewrite Ha.
  replace (0 <? PlayerSprite.deathTime s) with true by (symmetry; by apply Z.ltb_lt).
  reflexivity.
Qed.

End PlayerDrawFacts.

(** X17: the death animation runs for 1500 ms and is monotone.  For a dead
    player whose death was stamped at [t0 > 0], the progress at a time
    [now >= t0] is [(now - t0) / 1500] capped at 1: it is that quotient up
    to 1500 ms, lies between 0 and 1, never decreases as time passes, and is
    exactly 1 from 1500 ms on, where the ghost opacity is 0. *)
Theorem death_progress_is_monotone_and_ends :
  forall (s : PlayerSprite.t) (now later : Z),
    Player.alive (PlayerSprite.data s) = false ->
    0 < PlayerSprite.deathTime s ->
    PlayerSprite.deathTime s <= now <= later ->
    PlayerDraw.deathProgress now s
    = Rmin (IZR (now - PlayerSprite.deathTime s) / 1500) 1
    /\ (now <= PlayerSprite.deathTime s + 1500 ->
        PlayerDraw.deathProgress now s = (IZR (now - PlayerSprite.deathTime s) / 1500)%R)
    /\ (0 <= PlayerDraw.deathProgress now s <= 1)%R
    /\ (PlayerDraw.deathProgress now s <= PlayerDraw.deathProgress later s)%R
    /\ (0 <= PlayerDraw.ghostAlpha (PlayerDraw.deathProgress now s) <= 1)%R
    /\ PlayerDraw.ghostAlpha (PlayerDraw.deathProgress now s)
       = (1 - PlayerDraw.deathProgress now s)%R
    /\ (PlayerSprite.deathTime s + 1500 <= now ->
        PlayerDraw.deathProgress now s = 1%R
        /\ PlayerDraw.ghostAlpha (PlayerDraw.deathProgress now s) = 0%R).
Proof.
  intros s now later Ha Ht [H1 H2].
  rewrite !(deathProgress_stamped _ s Ha Ht).
  assert (Hn : (0 <= IZR (now - PlayerSprite.deathTime s))%R) by (apply IZR_le; lia).
  assert (Hl : (IZR (now - PlayerSprite.deathTime s)
                <= IZR (later - PlayerSprite.deathTime s))%R) by (apply IZR_le; lia).
  set (a := IZR (now - PlayerSprite.deathTime s)) in *.
  set (b := IZR (later - PlayerSprite.deathTime s)) in *.
  assert (Ha1 : (0 <= Rmin (a / 1500) 1 <= 1)%R).
  { split; [apply Rmin_glb; lra | apply Rmin_r]. }
  split; [reflexivity|]. split; [|split; [exact Ha1|split; [|split; [|split]]]].
  - intros Hbefore.
    assert (Hsmall : (a <= 1500)%R).
    { subst a. replace 1500%R with (IZR 1500) by reflexivity. apply IZR_le. lia. }
    apply Rmin_left. lra.
  - apply Rmin_glb; [|apply Rmin_r].
    eapply Rle_trans; [apply Rmin_l|]. lra.
  - unfold PlayerDraw.ghostAlpha. split; [apply Rmax_l|]. apply Rmax_lub; lra.
  - unfold PlayerDraw.ghostAlpha. apply Rmax_right. lra.
  - intros Hend.
    assert (Hbig : (1500 <= a)%R).
    { subst a. replace 1500%R with (IZR 1500) by reflexivity. apply IZR_le. lia. }
    assert (E : Rmin (a / 1500) 1 = 1%R) by (apply Rmin_right; lra).
    rewrite E. split; [reflexivity|].
    unfold PlayerDraw.ghostAlpha. rewrite Rmax_left; lra.
Qed.

Lemma death_progress_is_monotone_and_ends_witness :
  PlayerDraw.deathProgress 5750
    (PlayerSprite.set_deathTime 5000 (PlayerSprite.set_data Sample.aliceDead Sample.aliceSprite))
  = (IZR (5750 - 5000) / 1500)%R
  /\ PlayerDraw.deathProgress 6500
       (PlayerSprite.set_deathTime 5000
          (PlayerSprite.set_data Sample.aliceDead Sample.aliceSprite))
     = 1%R.
Proof.
  assert (Ht : 0 < PlayerSprite.deathTime
                     (PlayerSprite.set_deathTime 5000
                        (PlayerSprite.set_data Sample.aliceDead Sample.aliceSprite)))
    by (cbn; lia).
  assert (Hr1 : PlayerSprite.deathTime
                  (PlayerSprite.set_deathTime 5000
                     (PlayerSprite.set_data Sample.aliceDead Sample.aliceSprite))
               <= 5750 <= 6500) by (cbn; lia).
  assert (Hr2 : PlayerSprite.deathTime
                  (PlayerSprite.set_deathTime 5000
                     (PlayerSprite.set_data Sample.aliceDead Sample.aliceSprite))
               <= 6500 <= 6500) by (cbn; lia).
  split.
  - apply (proj1 (proj2 (death_progress_is_monotone_and_ends
             (PlayerSprite.set_deathTime 5000
                (PlayerSprite.set_data Sample.aliceDead Sample.aliceSprite))
             5750 6500 eq_refl Ht Hr1))).
    cbn. lia.
  - apply (proj2 (proj2 (proj2 (proj2 (proj2 (proj2
             (death_progress_is_monotone_and_ends
                (PlayerSprite.set_deathTime 5000
                   (PlayerSprite.set_data Sample.aliceDead Sample.aliceSprite))
                6500 6500 eq_refl Ht Hr2))))))).
    cbn. lia.
Defined.

(** X18: a player who is already dead when first seen never gets a death
    animation.  If the first snapshot that lists a player lists it dead, the
    new sprite carries death time 0, every later reconciliation that still
    reports the player dead keeps it at 0, and so the death progress is 0 at
    every time: the ghost is drawn at full opacity and never fades. *)
Theorem player_first_seen_dead_never_fades :
  forall (g : Game.t) (id : string) (t0 : Z) (first : Lobby.t)
         (later : list (Z * Lobby.t)) (now : Z),
    Game.initialized g = true ->
    Game.playerSprites g !! id = None ->
    reportsDead id first ->
    Forall (fun tl => reportsDead id tl.2) later ->
    exists s,
      Game.playerSprites (reconcileAll later (Game.updateFromLobby t0 first g)) !! id = Some s
      /\ PlayerSprite.deathTime s = 0
      /\ PlayerDraw.deathProgress now s = 0%R
      /\ PlayerDraw.ghostAlpha (PlayerDraw.deathProgress now s) = 1%R.
Proof.
  intros g id t0 first later now Hi Hnone Hfirst Hlater.
  destruct (dead_stays_stamped_all id 0 later (Game.updateFromLobby t0 first g))
    as (s & Hs & Hd & Ht).
  - by rewrite updateFromLobby_initialized.
  - exact Hlater.
  - destruct Hfirst as (Hnd & p & Hin & <- & Hdead).
    rewrite (updateFromLobby_lookup_listed t0 first g p Hi Hnd Hin), Hnone.
    rewrite addPlayer_lookup. eexists. split; [reflexivity|]. by cbn.
  - exists s. split; [exact Hs|]. split; [exact Ht|].
    assert (E : PlayerDraw.deathProgress now s = 0%R).
    { unfold PlayerDraw.deathProgress. rewrite Ht. cbn [Z.ltb Z.compare].
      by rewrite andb_false_r. }
    rewrite E. split; [reflexivity|].
    unfold PlayerDraw.ghostAlpha. rewrite Rmax_right; lra.
Qed.

Lemma player_first_seen_dead_never_fades_witness :
  exists s,
    Game.playerSprites
      (reconcileAll [(5050, Sample.aliceDown)]
         (Game.updateFromLobby 5000 Sample.aliceDown Sample.emptyScene)) !! "alice" = Some s
    /\ PlayerSprite.deathTime s = 0
    /\ PlayerDraw.deathProgress 9000 s = 0%R
    /\ PlayerDraw.ghostAlpha (PlayerDraw.deathProgress 9000 s) = 1%R.
Proof.
  assert (Hdown : reportsDead "alice" Sample.aliceDown).
  { split.
    - apply NoDup_cons. split; [|apply NoDup_singleton].
      intros H. apply list_elem_of_singleton in H. discriminate H.
    - exists Sample.aliceDead. split; [|split]; [|reflexivity|reflexivity].
      apply elem_of_cons. left. reflexivity. }
  apply (player_first_seen_dead_never_fades Sample.emptyScene "alice" 5000 Sample.aliceDown
           [(5050, Sample.aliceDown)] 9000 eq_refl eq_refl Hdown).
  apply Forall_cons. split; [exact Hdown | apply Forall_nil; exact I].
Defined.

(** X20: the squash and stretch after a move is small, symmetric and short.
    For a move stamped at [movePhase] and a frame clock not before it, the
    deformation lies between 0 and 0.15, so the body is between 85% and 100%
    wide and between 100% and 115% tall, the two scales always add up to 2,
    and from 200 ms after the move the body is back to its plain size. *)
Theorem squash_stretch_is_small_and_short :
  forall (globalTime movePhase : Z),
    movePhase <= globalTime ->
    (0 <= PlayerDraw.squashStretch globalTime movePhase <= 0.15)%R
    /\ (0.85 <= PlayerDraw.scaleX globalTime movePhase <= 1)%R
    /\ (1 <= PlayerDraw.scaleY globalTime movePhase <= 1.15)%R
    /\ (PlayerDraw.scaleX globalTime movePhase + PlayerDraw.scaleY globalTime movePhase = 2)%R
    /\ (movePhase + 200 <= globalTime ->
        PlayerDraw.scaleX globalTime movePhase = 1%R
        /\ PlayerDraw.scaleY globalTime movePhase = 1%R).
Proof.
  intros gt mp Hle.
  assert (Hs : (0 <= PlayerDraw.squashStretch gt mp <= 0.15)%R).
  { unfold PlayerDraw.squashStretch.
    destruct (gt - mp <? 200) eqn:Hlt; [|lra].
    apply Z.ltb_lt in Hlt.
    assert (H0 : (0 <= IZR (gt - mp))%R) by (apply IZR_le; lia).
    assert (H1 : (IZR (gt - mp) <= 200)%R).
    { replace 200%R with (IZR 200) by reflexivity. apply IZR_le. lia. }
    pose proof PI_RGT_0 as Hpi.
    assert (Hsin : (0 <= sin (IZR (gt - mp) / 200 * PI))%R).
    { apply sin_ge_0; [|].
      - apply Rmult_le_pos; lra.
      - assert (IZR (gt - mp) / 200 <= 1)%R by lra. nra. }
    pose proof (SIN_bound (IZR (gt - mp) / 200 * PI)) as [_ Hb].
    lra. }
  unfold PlayerDraw.scaleX, PlayerDraw.scaleY.
  split; [exact Hs|]. split; [lra|]. split; [lra|]. split; [lra|].
  intros Hend. unfold PlayerDraw.squashStretch.
  replace (gt - mp <? 200) with false by (symmetry; apply Z.ltb_ge; lia).
  split; lra.
Qed.

Lemma squash_stretch_is_small_and_short_witness :
  (0.85 <= PlayerDraw.scaleX 5100 5000 <= 1)%R
  /\ (1 <= PlayerDraw.scaleY 5100 5000 <= 1.15)%R.
Proof.
  assert (H : 5000 <= 5100) by lia.
  pose proof (squash_stretch_is_small_and_short 5100 5000 H) as (_ & Hx & Hy & _).
  split; [exact Hx | exact Hy].
Defined.

(** X21: a stunned player flashes yellow on a fixed 80 ms beat of the wall
    clock.  At any time the body is either yellow or its own colour; 80 ms
    later it is the other of the two, and 160 ms later the same again.  A
    player that is not stunned always keeps its own colour. *)
Theorem stun_flash_alternates_every_80_ms :
  forall (now color : Z),
    0 <= now ->
    color <> 16776960 ->
    (PlayerDraw.effectiveColor now true color = 16776960
     \/ PlayerDraw.effectiveColor now true color = color)
    /\ (PlayerDraw.effectiveColor now true color = 16776960
        <-> PlayerDraw.effectiveColor (now + 80) true color = color)
    /\ PlayerDraw.effectiveColor (now + 160) true color
       = PlayerDraw.effectiveColor now true color
    /\ PlayerDraw.effectiveColor now false color = color.
Proof.
  intros now color Hnow Hc. unfold PlayerDraw.effectiveColor. cbn [andb].
  replace ((now + 80) / 80) with (now / 80 + 1)
    by (replace (now + 80) with (now + 1 * 80) by lia; by rewrite Z.div_add).
  replace ((now + 160) / 80) with (now / 80 + 2)
    by (replace (now + 160) with (now + 2 * 80) by lia; by rewrite Z.div_add).
  assert (Hq : 0 <= now / 80) by (apply Z.div_pos; lia).
  rewrite !Z.rem_mod_nonneg by lia.
  set (q := now / 80) in *.
  assert (E2 : (q + 2) mod 2 = q mod 2).
  { replace (q + 2) with (q + 1 * 2) by lia. by rewrite Z.mod_add. }
  rewrite E2.
  assert (E1 : (q + 1) mod 2 = 1 - q mod 2).
  { pose proof (Z.mod_pos_bound q 2 ltac:(lia)).
    pose proof (Z.mod_pos_bound (q + 1) 2 ltac:(lia)).
    pose proof (Z.div_mod q 2 ltac:(lia)).
    pose proof (Z.div_mod (q + 1) 2 ltac:(lia)). lia. }
  rewrite E1.
  pose proof (Z.mod_pos_bound q 2 ltac:(lia)) as Hb.
  destruct (q mod 2 =? 0) eqn:E.
  - apply Z.eqb_eq in E. rewrite E. cbn.
    split; [by left|]. split; [|done]. split; done.
  - apply Z.eqb_neq in E. assert (E' : q mod 2 = 1) by lia. rewrite E'.
    change (1 - 1 =? 0) with true. cbn iota.
    split; [by right|]. split; [|done]. split; intros H; [done | by symmetry in H].
Qed.

Lemma stun_flash_alternates_every_80_ms_witness :
  PlayerDraw.effectiveColor (5000 + 160) true 16729156
  = PlayerDraw.effectiveColor 5000 true 16729156.
Proof.
  assert (H0 : 0 <= 5000) by lia.
  assert (Hc : 16729156 <> 16776960) by lia.
  exact (proj1 (proj2 (proj2 (stun_flash_alternates_every_80_ms 5000 16729156 H0 Hc)))).
Defined.

(** ** Explosion drawing: further properties *)

Section ExplosionDrawFacts.

Lemma phase_range (a : R) : (0 <= a)%R -> (0 <= ExplosionDraw.phase a <= 1)%R.
Proof.
  intros Ha. unfold ExplosionDraw.phase, ExplosionDraw.maxAge.
  split; [apply Rmin_glb; lra | apply Rmin_r].
Qed.

Lemma phase_early (a : R) : (a <= 500)%R -> ExplosionDraw.phase a = (a / 500)%R.
Proof.
  intros Ha. unfold ExplosionDraw.phase, ExplosionDraw.maxAge. apply Rmin_left. lra.
Qed.

Lemma phase_late (a : R) : (500 <= a)%R -> ExplosionDraw.phase a = 1%R.
Proof.
  intros Ha. unfold ExplosionDraw.phase, ExplosionDraw.maxAge. apply Rmin_right. lra.
Qed.

End ExplosionDrawFacts.

(** X19: an explosion's flame stays within its nominal size and fades out
    after 500 ms, but is still drawn.  For an explosion created at
    [createdAt] and a frame at [now >= createdAt], opacity and size factor
    lie between 0 and 1; the flame is fully opaque for the first 300 ms; at
    age 0 its size is 0; and from 500 ms on the opacity is 0 while the size
    factor stays within a thousandth of one half, with three particles and
    no ring. *)
Theorem explosion_flame_fades_after_500_ms :
  forall (now : Z) (sprite : ExplosionSprite.t),
    ExplosionSprite.createdAt sprite <= now ->
    let phase := ExplosionDraw.phase (ExplosionDraw.age now sprite) in
    (0 <= ExplosionDraw.alpha phase <= 1)%R
    /\ (0 <= ExplosionDraw.sizeMultiplier phase <= 1)%R
    /\ (now <= ExplosionSprite.createdAt sprite + 300 -> ExplosionDraw.alpha phase = 1%R)
    /\ (now = ExplosionSprite.createdAt sprite -> ExplosionDraw.sizeMultiplier phase = 0%R)
    /\ (ExplosionSprite.createdAt sprite + 500 <= now ->
        ExplosionDraw.alpha phase = 0%R
        /\ (0.499 <= ExplosionDraw.sizeMultiplier phase <= 0.501)%R
        /\ ExplosionDraw.drawsRing phase = false
        /\ ExplosionDraw.drawsFlash phase = false
        /\ ExplosionDraw.particleCount phase = 3).
Proof.
  intros now sprite Hle phase.
  assert (Ha : (0 <= ExplosionDraw.age now sprite)%R).
  { unfold ExplosionDraw.age. apply IZR_le. lia. }
  pose proof (phase_range _ Ha) as Hp. fold phase in Hp.
  split; [|split; [|split; [|split]]].
  - unfold ExplosionDraw.alpha. case_decide; lra.
  - unfold ExplosionDraw.sizeMultiplier, ExplosionDraw.expansionPhase,
      ExplosionDraw.shrinkPhase.
    repeat case_decide; try lra; split; nra.
  - intros H300.
    assert (Hb : (ExplosionDraw.age now sprite <= 300)%R).
    { unfold ExplosionDraw.age. replace 300%R with (IZR 300) by reflexivity.
      apply IZR_le. lia. }
    unfold phase. rewrite phase_early by lra.
    unfold ExplosionDraw.alpha. case_decide; [lra | reflexivity].
  - intros ->. unfold phase, ExplosionDraw.age. rewrite Z.sub_diag.
    rewrite phase_early by lra.
    unfold ExplosionDraw.sizeMultiplier, ExplosionDraw.expansionPhase,
      ExplosionDraw.shrinkPhase.
    repeat case_decide; lra.
  - intros H500.
    assert (Hb : (500 <= ExplosionDraw.age now sprite)%R).
    { unfold ExplosionDraw.age. replace 500%R with (IZR 500) by reflexivity.
      apply IZR_le. lia. }
    unfold phase. rewrite phase_late by exact Hb.
    unfold ExplosionDraw.alpha, ExplosionDraw.sizeMultiplier,
      ExplosionDraw.expansionPhase, ExplosionDraw.shrinkPhase,
      ExplosionDraw.drawsRing, ExplosionDraw.drawsFlash, ExplosionDraw.particleCount.
    split; [case_decide; lra|]. split; [repeat case_decide; lra|].
    split; [apply bool_decide_eq_false_2; lra|].
    split; [apply bool_decide_eq_false_2; lra | case_decide; [lra|reflexivity]].
Qed.

Lemma explosion_flame_fades_after_500_ms_witness :
  ExplosionDraw.alpha
    (ExplosionDraw.phase (ExplosionDraw.age 5600 (ExplosionSprite.mk Display.create 5000 3 4)))
  = 0%R.
Proof.
  assert (H : ExplosionSprite.createdAt (ExplosionSprite.mk Display.create 5000 3 4) <= 5600)
    by (cbn; lia).
  pose proof (explosion_flame_fades_after_500_ms 5600 _ H) as (_ & _ & _ & _ & Hend).
  apply Hend. cbn. lia.
Defined.

(** ** Heads-up display: properties *)

Section HudFacts.
Import Hud.

Lemma ceilDiv_spec (a n : Z) : ceilDiv a 1000 = n <-> 1000 * (n - 1) < a <= 1000 * n.
Proof. unfold ceilDiv. split; intros H; [subst n|]; Z.div_mod_to_equations; lia. Qed.

Lemma ceilDiv_pos (a : Z) : 0 < a -> 1 <= ceilDiv a 1000.
Proof. unfold ceilDiv. Z.div_mod_to_equations. lia. Qed.

Lemma updateGameStateUI_playing now lobby gd h :
  Lobby.state lobby = GAME_PHASE.PLAYING ->
  countdownVisible (updateGameStateUI now lobby gd h)
  = bool_decide (lastCountdownValue h = 0 /\ now - countdownAnimStart h < 500)
  /\ countdownLabel (updateGameStateUI now lobby gd h)
     = (if bool_decide (lastCountdownValue h = 0 /\ now - countdownAnimStart h < 500)
        then "GO!" else countdownLabel h)
  /\ countdownAlpha (updateGameStateUI now lobby gd h)
     = (if bool_decide (lastCountdownValue h = 0 /\ now - countdownAnimStart h < 500)
        then (1 - IZR (now - countdownAnimStart h) / 500)%R else 1%R)
  /\ lastCountdownValue (updateGameStateUI now lobby gd h) = lastCountdownValue h
  /\ countdownAnimStart (updateGameStateUI now lobby gd h) = countdownAnimStart h.
Proof.
  intros Hp. unfold updateGameStateUI. rewrite Hp.
  rewrite (decide_False (P := GAME_PHASE.PLAYING = GAME_PHASE.WAITING)) by done.
  rewrite (decide_False (P := GAME_PHASE.PLAYING = GAME_PHASE.COUNTDOWN)) by done.
  rewrite (decide_True (P := GAME_PHASE.PLAYING = GAME_PHASE.PLAYING)) by done.
  done.
Qed.

Lemma updateGameStateUI_countdown now lobby gd h :
  Lobby.state lobby = GAME_PHASE.COUNTDOWN ->
  statusText (updateGameStateUI now lobby gd h) = "Get Ready!"
  /\ countdownVisible (updateGameStateUI now lobby gd h) = true
  /\ countdownLabel (updateGameStateUI now lobby gd h)
     = (if decide (countdownSecs gd <= 0) then "GO!" else pretty (countdownSecs gd))
  /\ countdownFill (updateGameStateUI now lobby gd h)
     = (if decide (countdownSecs gd <= 0) then 0x44ff44
        else if decide (countdownSecs gd = 1) then 0xff4444
        else if decide (countdownSecs gd = 2) then 0xffaa44
        else 0xffff44)
  /\ lastCountdownValue (updateGameStateUI now lobby gd h) = countdownSecs gd
  /\ countdownAnimStart (updateGameStateUI now lobby gd h)
     = (if bool_decide (countdownSecs gd <> lastCountdownValue h)
        then now else countdownAnimStart h).
Proof.
  intros Hp. unfold updateGameStateUI. rewrite Hp.
  rewrite (decide_False (P := GAME_PHASE.COUNTDOWN = GAME_PHASE.WAITING)) by done.
  rewrite (decide_True (P := GAME_PHASE.COUNTDOWN = GAME_PHASE.COUNTDOWN)) by done.
  cbn [statusText countdownVisible countdownLabel countdownFill lastCountdownValue
       countdownAnimStart].
  repeat split; try reflexivity.
  case_bool_decide as Hc; [reflexivity|]. by symmetry.
Qed.

Lemma updateGameStateUI_ended now lobby gd h :
  Lobby.state lobby = GAME_PHASE.ENDED ->
  lastCountdownValue (updateGameStateUI now lobby gd h) = -1
  /\ countdownVisible (updateGameStateUI now lobby gd h) = true
  /\ countdownLabel (updateGameStateUI now lobby gd h) = "GAME OVER".
Proof.
  intros Hp. unfold updateGameStateUI. rewrite Hp.
  rewrite (decide_False (P := GAME_PHASE.ENDED = GAME_PHASE.WAITING)) by done.
  rewrite (decide_False (P := GAME_PHASE.ENDED = GAME_PHASE.COUNTDOWN)) by done.
  rewrite (decide_False (P := GAME_PHASE.ENDED = GAME_PHASE.PLAYING)) by done.
  rewrite (decide_True (P := GAME_PHASE.ENDED = GAME_PHASE.ENDED)) by done.
  done.
Qed.

End HudFacts.

Section HudRunFacts.
Import Hud.

Lemma updateGameStateUI_waiting now lobby gd h :
  Lobby.state lobby = GAME_PHASE.WAITING ->
  lastCountdownValue (updateGameStateUI now lobby gd h) = 0
  /\ countdownAnimStart (updateGameStateUI now lobby gd h) = countdownAnimStart h
  /\ countdownVisible (updateGameStateUI now lobby gd h) = false.
Proof.
  intros Hp. unfold updateGameStateUI. rewrite Hp.
  rewrite (decide_True (P := GAME_PHASE.WAITING = GAME_PHASE.WAITING)) by done.
  done.
Qed.

(** Snapshots of the playing phase leave the countdown value and the start
    of the animation alone. *)
Lemma playing_run_keeps_countdown_state (snapshots : list Snapshot) (h : t) :
  Forall (fun s => Lobby.state s.1.2 = GAME_PHASE.PLAYING) snapshots ->
  lastCountdownValue (deliverAll snapshots h) = lastCountdownValue h
  /\ countdownAnimStart (deliverAll snapshots h) = countdownAnimStart h.
Proof.
  intros Hall. revert h.
  induction Hall as [|s rest Hs Hrest IH]; intros h; [done|].
  unfold deliverAll. cbn [foldl]. fold (deliverAll rest (deliver h s)).
  destruct (updateGameStateUI_playing s.1.1 s.1.2 s.2 h Hs) as (_ & _ & _ & Hl & Ha).
  fold (deliver h s) in Hl, Ha.
  destruct (IH (deliver h s)) as [IH1 IH2]. by rewrite IH1, IH2, Hl, Ha.
Qed.

End HudRunFacts.

(** X22: whether play shows the green "GO!" is decided by the countdown
    value that the last snapshot before play left behind and by the time of
    its last change, not by the playing snapshots.  After a snapshot of any
    phase followed by a run of playing snapshots, the text is visible exactly
    when that countdown value is 0 and the last playing snapshot comes less
    than 500 ms after the start of the countdown animation.  A countdown
    snapshot leaves 0 exactly when its remaining time is in (-1000, 0] ms, and
    the end of a game leaves -1, so after either of these with time left no
    "GO!" appears; a waiting-room snapshot resets the value to 0 without
    touching the animation start, so play right after it does show "GO!"
    while that start is less than 500 ms old. *)
Theorem go_flash_follows_last_countdown_value :
  forall (now : Z) (lobby : Lobby.t) (gameData : option HudData.t) (h0 : Hud.t)
         (playing : list Hud.Snapshot) (last : Hud.Snapshot),
    Forall (fun s => Lobby.state s.1.2 = GAME_PHASE.PLAYING) (playing ++ [last]) ->
    let h := Hud.updateGameStateUI now lobby gameData h0 in
    let h' := Hud.deliverAll (playing ++ [last]) h in
    (Hud.countdownVisible h' = true
     <-> Hud.lastCountdownValue h = 0 /\ last.1.1 - Hud.countdownAnimStart h < 500)
    /\ (Hud.countdownVisible h' = true ->
        Hud.countdownLabel h' = "GO!"
        /\ Hud.countdownAlpha h' = (1 - IZR (last.1.1 - Hud.countdownAnimStart h) / 500)%R)
    /\ (Hud.countdownVisible h' = false -> Hud.countdownAlpha h' = 1%R)
    /\ (Lobby.state lobby = GAME_PHASE.COUNTDOWN ->
        (Hud.lastCountdownValue h = 0
         <-> -1000 < default 0 (HudData.countdown <$> gameData) <= 0))
    /\ (Lobby.state lobby = GAME_PHASE.ENDED -> Hud.lastCountdownValue h = -1)
    /\ (Lobby.state lobby = GAME_PHASE.WAITING ->
        Hud.lastCountdownValue h = 0
        /\ Hud.countdownAnimStart h = Hud.countdownAnimStart h0).
Proof.
  intros now lobby gd h0 playing last Hall h h'.
  apply Forall_app in Hall as [Hplaying Hlast].
  rewrite Forall_singleton in Hlast.
  destruct (playing_run_keeps_countdown_state playing h Hplaying) as [Hl Ha].
  assert (Eh' : h' = Hud.updateGameStateUI last.1.1 last.1.2 last.2
                       (Hud.deliverAll playing h)).
  { unfold h', Hud.deliverAll. by rewrite foldl_app. }
  destruct (updateGameStateUI_playing last.1.1 last.1.2 last.2
              (Hud.deliverAll playing h) Hlast) as (Hv & Hlab & Halpha & _).
  rewrite <- Eh', Hl, Ha in Hv, Hlab, Halpha.
  split; [|split; [|split; [|split; [|split]]]].
  - rewrite Hv. apply bool_decide_eq_true.
  - intros Hvis. rewrite Hvis in Hv. by rewrite Hlab, Halpha, <- Hv.
  - intros Hvis. rewrite Hvis in Hv. by rewrite Halpha, <- Hv.
  - intros Hc.
    destruct (updateGameStateUI_countdown now lobby gd h0 Hc) as (_ & _ & _ & _ & Hs & _).
    fold h in Hs. rewrite Hs. unfold Hud.countdownSecs. rewrite ceilDiv_spec. lia.
  - intros He. by destruct (updateGameStateUI_ended now lobby gd h0 He) as (Hs & _).
  - intros Hw.
    destruct (updateGameStateUI_waiting now lobby gd h0 Hw) as (Hs & Hst & _). done.
Qed.

Lemma go_flash_follows_last_countdown_value_witness :
  Hud.countdownVisible
    (Hud.deliverAll
       ([] ++ [(5200, Lobby.mk [Sample.alice] GAME_PHASE.PLAYING None None, None)])
       (Hud.updateGameStateUI 5100 (Lobby.mk [Sample.alice] GAME_PHASE.WAITING None None) None
          (Hud.updateGameStateUI 5000
             (Lobby.mk [Sample.alice] GAME_PHASE.COUNTDOWN None None)
             (Some (HudData.mk 3000 0 0 None)) Hud.create))) = true
  /\ Hud.countdownVisible
       (Hud.deliverAll
          ([] ++ [(5200, Lobby.mk [Sample.alice] GAME_PHASE.PLAYING None None, None)])
          (Hud.updateGameStateUI 5000
             (Lobby.mk [Sample.alice] GAME_PHASE.COUNTDOWN None None)
             (Some (HudData.mk 3000 0 0 None)) Hud.create)) <> true.
Proof.
  assert (Hall : Forall (fun s : Hud.Snapshot => Lobby.state s.1.2 = GAME_PHASE.PLAYING)
                   ([] ++ [(5200, Lobby.mk [Sample.alice] GAME_PHASE.PLAYING None None,
                            None : option HudData.t)])).
  { apply Forall_cons. split; [reflexivity | apply Forall_nil; exact I]. }
  split.
  - destruct (go_flash_follows_last_countdown_value 5100
                (Lobby.mk [Sample.alice] GAME_PHASE.WAITING None None) None
                (Hud.updateGameStateUI 5000
                   (Lobby.mk [Sample.alice] GAME_PHASE.COUNTDOWN None None)
                   (Some (HudData.mk 3000 0 0 None)) Hud.create)
                [] _ Hall) as (Hiff & _ & _ & _ & _ & Hw).
    apply Hiff. destruct (Hw eq_refl) as [Hz Hst]. split; [exact Hz|].
    rewrite Hst. vm_compute. reflexivity.
  - destruct (go_flash_follows_last_countdown_value 5000
                (Lobby.mk [Sample.alice] GAME_PHASE.COUNTDOWN None None)
                (Some (HudData.mk 3000 0 0 None)) Hud.create
                [] _ Hall) as (Hiff & _ & _ & Hc & _ & _).
    intros Hvis. apply Hiff in Hvis as [Hz _].
    apply (Hc eq_refl) in Hz. cbn in Hz. lia.
Defined.

(** X23: when the countdown does reach zero, "GO!" stays for half a second
    and fades linearly.  If a countdown snapshot whose remaining time is
    in (-1000, 0] ms arrives at [now] and changes the displayed value, the text is
    "GO!"; a playing snapshot at [now'] with [now <= now' < now + 500] still
    shows "GO!" with opacity [1 - (now' - now) / 500], which is in (0, 1];
    a playing snapshot from [now + 500] on hides the text. *)
Theorem go_flash_lasts_half_a_second :
  forall (now now' : Z) (countdown playing : Lobby.t) (gd gd' : option HudData.t) (h : Hud.t),
    Lobby.state countdown = GAME_PHASE.COUNTDOWN ->
    Lobby.state playing = GAME_PHASE.PLAYING ->
    -1000 < default 0 (HudData.countdown <$> gd) <= 0 ->
    Hud.lastCountdownValue h <> 0 ->
    now <= now' ->
    let h1 := Hud.updateGameStateUI now countdown gd h in
    let h2 := Hud.updateGameStateUI now' playing gd' h1 in
    Hud.countdownLabel h1 = "GO!"
    /\ (now' < now + 500 ->
        Hud.countdownVisible h2 = true
        /\ Hud.countdownLabel h2 = "GO!"
        /\ Hud.countdownAlpha h2 = (1 - IZR (now' - now) / 500)%R
        /\ (0 < Hud.countdownAlpha h2 <= 1)%R)
    /\ (now + 500 <= now' ->
        Hud.countdownVisible h2 = false /\ Hud.countdownAlpha h2 = 1%R).
Proof.
  intros now now' cd pl gd gd' h Hc Hp Hzero Hlast Hle h1 h2.
  assert (Hs : Hud.countdownSecs gd = 0).
  { unfold Hud.countdownSecs. apply ceilDiv_spec. lia. }
  destruct (updateGameStateUI_countdown now cd gd h Hc) as (_ & _ & Hl1 & _ & Hv1 & Ha1).
  fold h1 in Hl1, Hv1, Ha1. rewrite Hs in Hl1, Hv1, Ha1.
  rewrite bool_decide_eq_true_2 in Ha1 by (intros E; by rewrite <- E in Hlast).
  rewrite decide_True in Hl1 by lia.
  destruct (updateGameStateUI_playing now' pl gd' h1 Hp) as (Hv2 & Hl2 & Ha2 & _).
  fold h2 in Hv2, Hl2, Ha2. rewrite Hv1, Ha1 in Hv2, Hl2, Ha2.
  split; [exact Hl1|]. split.
  - intros Hin.
    rewrite bool_decide_eq_true_2 in Hv2, Hl2, Ha2 by (split; [done | lia]).
    split; [exact Hv2|]. split; [exact Hl2|]. split; [exact Ha2|].
    rewrite Ha2.
    assert (H0 : (0 <= IZR (now' - now))%R) by (apply IZR_le; lia).
    assert (H1 : (IZR (now' - now) < 500)%R).
    { replace 500%R with (IZR 500) by reflexivity. apply IZR_lt. lia. }
    lra.
  - intros Hout.
    rewrite bool_decide_eq_false_2 in Hv2, Ha2 by (intros [_ ?]; lia).
    split; [exact Hv2 | exact Ha2].
Qed.

Lemma go_flash_lasts_half_a_second_witness :
  Hud.countdownLabel
    (Hud.updateGameStateUI 5000 (Lobby.mk [Sample.alice] GAME_PHASE.COUNTDOWN None None)
       (Some (HudData.mk 0 0 0 None))
       (Hud.updateGameStateUI 4000 (Lobby.mk [Sample.alice] GAME_PHASE.COUNTDOWN None None)
          (Some (HudData.mk 1000 0 0 None)) Hud.create))
  = "GO!".
Proof.
  assert (Hlast : Hud.lastCountdownValue
            (Hud.updateGameStateUI 4000 (Lobby.mk [Sample.alice] GAME_PHASE.COUNTDOWN None None)
               (Some (HudData.mk 1000 0 0 None)) Hud.create) <> 0)
    by (vm_compute; discriminate).
  assert (Hz : -1000 < default 0 (HudData.countdown <$> Some (HudData.mk 0 0 0 None)) <= 0)
    by (cbn; lia).
  assert (Hle : 5000 <= 5100) by lia.
  exact (proj1 (go_flash_lasts_half_a_second 5000 5100
                  (Lobby.mk [Sample.alice] GAME_PHASE.COUNTDOWN None None)
                  (Lobby.mk [Sample.alice] GAME_PHASE.PLAYING None None)
                  (Some (HudData.mk 0 0 0 None)) None _ eq_refl eq_refl Hz Hlast Hle)).
Defined.

(** X24: what the countdown shows follows the remaining milliseconds.  In
    the countdown phase the text is visible and the status reads
    "Get Ready!"; with no time left (or below zero) the text is a green
    "GO!"; with up to 1000 ms left it is a red "1", with up to 2000 ms an
    orange "2", and above that a yellow number [n] with
    [1000 * (n - 1) < countdown <= 1000 * n].  Without game data the
    countdown counts as 0. *)
Theorem countdown_text_follows_remaining_time :
  forall (now : Z) (lobby : Lobby.t) (gameData : option HudData.t) (h : Hud.t),
    Lobby.state lobby = GAME_PHASE.COUNTDOWN ->
    let c := default 0 (HudData.countdown <$> gameData) in
    let h' := Hud.updateGameStateUI now lobby gameData h in
    Hud.countdownVisible h' = true
    /\ Hud.statusText h' = "Get Ready!"
    /\ (gameData = None -> c = 0)
    /\ (c <= 0 -> Hud.countdownLabel h' = "GO!" /\ Hud.countdownFill h' = 0x44ff44)
    /\ (0 < c <= 1000 -> Hud.countdownLabel h' = "1" /\ Hud.countdownFill h' = 0xff4444)
    /\ (1000 < c <= 2000 -> Hud.countdownLabel h' = "2" /\ Hud.countdownFill h' = 0xffaa44)
    /\ (2000 < c ->
        Hud.countdownFill h' = 0xffff44
        /\ exists n, 3 <= n /\ 1000 * (n - 1) < c <= 1000 * n
                     /\ Hud.countdownLabel h' = pretty n).
Proof.
  intros now lobby gd h Hc c h'.
  destruct (updateGameStateUI_countdown now lobby gd h Hc) as (Hst & Hv & Hl & Hf & _).
  fold h' in Hst, Hv, Hl, Hf.
  assert (Hsecs : 1000 * (Hud.countdownSecs gd - 1) < c <= 1000 * Hud.countdownSecs gd).
  { by apply ceilDiv_spec. }
  split; [exact Hv|]. split; [exact Hst|]. split; [by intros ->|].
  rewrite Hl, Hf. split; [|split; [|split]].
  - intros H. rewrite !decide_True by lia. done.
  - intros H. assert (E : Hud.countdownSecs gd = 1) by lia. rewrite E. done.
  - intros H. assert (E : Hud.countdownSecs gd = 2) by lia. rewrite E. done.
  - intros H. rewrite !decide_False by lia. split; [done|].
    exists (Hud.countdownSecs gd). split; [lia|]. split; [exact Hsecs | done].
Qed.

Lemma countdown_text_follows_remaining_time_witness :
  Hud.countdownVisible
    (Hud.updateGameStateUI 5000 (Lobby.mk [Sample.alice] GAME_PHASE.COUNTDOWN None None)
       (Some (HudData.mk 1500 0 0 None)) Hud.create) = true.
Proof.
  exact (proj1 (countdown_text_follows_remaining_time 5000
                  (Lobby.mk [Sample.alice] GAME_PHASE.COUNTDOWN None None)
                  (Some (HudData.mk 1500 0 0 None)) Hud.create eq_refl)).
Defined.

(** X25: the countdown text pops from 1.5 times its size back to 1 within
    300 ms.  While the text is visible, a frame at [now], not before the
    start of the animation, sets a scale between 1 and 1.5: exactly 1.5 at
    the start, never larger at a later frame than at an earlier one, and
    exactly 1 from 300 ms on.  While the text is hidden the frame leaves
    the display untouched. *)
Theorem countdown_pop_scale_is_bounded :
  forall (now later : Z) (h : Hud.t),
    Hud.countdownAnimStart h <= now <= later ->
    (Hud.countdownVisible h = false -> Hud.animateCountdown now h = h)
    /\ (Hud.countdownVisible h = true ->
        (1 <= Hud.countdownScale (Hud.animateCountdown now h) <= 1.5)%R
        /\ (Hud.countdownScale (Hud.animateCountdown later h)
            <= Hud.countdownScale (Hud.animateCountdown now h))%R
        /\ (now = Hud.countdownAnimStart h ->
            Hud.countdownScale (Hud.animateCountdown now h) = 1.5%R)
        /\ (Hud.countdownAnimStart h + 300 <= now ->
            Hud.countdownScale (Hud.animateCountdown now h) = 1%R)).
Proof.
  intros now later h [H1 H2]. split.
  - intros Hv. unfold Hud.animateCountdown. by rewrite Hv.
  - intros Hv.
    assert (Hscale : forall t, Hud.countdownAnimStart h <= t ->
              Hud.countdownScale (Hud.animateCountdown t h)
              = if t - Hud.countdownAnimStart h <? 300
                then (1 + 0.5 * (1 - IZR (t - Hud.countdownAnimStart h) / 300) ^ 3)%R
                else 1%R).
    { intros t Ht. unfold Hud.animateCountdown. rewrite Hv. cbn.
      destruct (t - Hud.countdownAnimStart h <? 300); [lra | reflexivity]. }
    assert (Hu : forall t, Hud.countdownAnimStart h <= t ->
              t - Hud.countdownAnimStart h < 300 ->
              (0 < 1 - IZR (t - Hud.countdownAnimStart h) / 300 <= 1)%R).
    { intros t Ht Hlt.
      assert (0 <= IZR (t - Hud.countdownAnimStart h))%R by (apply IZR_le; lia).
      assert (IZR (t - Hud.countdownAnimStart h) < 300)%R.
      { replace 300%R with (IZR 300) by reflexivity. apply IZR_lt. lia. }
      lra. }
    assert (Hcube : forall u : R, (0 <= u <= 1)%R -> (0 <= u ^ 3 <= 1)%R).
    { intros u Hu01. split; [apply pow_le; lra|].
      replace 1%R with (1 ^ 3)%R by ring. apply pow_incr. lra. }
    rewrite !Hscale by lia.
    split; [|split; [|split]].
    + destruct (now - Hud.countdownAnimStart h <? 300) eqn:E; [|lra].
      apply Z.ltb_lt in E. pose proof (Hu now H1 E) as Hu'.
      pose proof (Hcube _ (conj (Rlt_le _ _ (proj1 Hu')) (proj2 Hu'))). lra.
    + destruct (later - Hud.countdownAnimStart h <? 300) eqn:El.
      * apply Z.ltb_lt in El.
        replace (now - Hud.countdownAnimStart h <? 300) with true
          by (symmetry; apply Z.ltb_lt; lia).
        pose proof (Hu now H1 ltac:(lia)) as Hn.
        pose proof (Hu later ltac:(lia) El) as Hl.
        assert (Hord : (IZR (now - Hud.countdownAnimStart h)
                        <= IZR (later - Hud.countdownAnimStart h))%R)
          by (apply IZR_le; lia).
        assert ((1 - IZR (later - Hud.countdownAnimStart h) / 300) ^ 3
                <= (1 - IZR (now - Hud.countdownAnimStart h) / 300) ^ 3)%R.
        { apply pow_incr. lra. }
        lra.
      * destruct (now - Hud.countdownAnimStart h <? 300) eqn:E; [|lra].
        apply Z.ltb_lt in E. pose proof (Hu now H1 E) as Hu'.
        pose proof (Hcube _ (conj (Rlt_le _ _ (proj1 Hu')) (proj2 Hu'))). lra.
    + intros ->. rewrite Z.sub_diag. cbn. lra.
    + intros Hend.
      replace (now - Hud.countdownAnimStart h <? 300) with false
        by (symmetry; apply Z.ltb_ge; lia).
      reflexivity.
Qed.

Lemma countdown_pop_scale_is_bounded_witness :
  (1 <= Hud.countdownScale
          (Hud.animateCountdown 5100
             (Hud.updateGameStateUI 5000 (Lobby.mk [Sample.alice] GAME_PHASE.COUNTDOWN None None)
                (Some (HudData.mk 3000 0 0 None)) Hud.create)) <= 1.5)%R.
Proof.
  assert (Hr : Hud.countdownAnimStart
            (Hud.updateGameStateUI 5000 (Lobby.mk [Sample.alice] GAME_PHASE.COUNTDOWN None None)
               (Some (HudData.mk 3000 0 0 None)) Hud.create) <= 5100 <= 5100)
    by (vm_compute; split; discriminate).
  exact (proj1 (proj2 (countdown_pop_scale_is_bounded 5100 5100 _ Hr) eq_refl)).
Defined.

Section HudStatusFacts.
Import Hud.

Lemma padStart_two_digits (s : Z) :
  0 <= s < 60 -> String.length (padStart 2 "0" (pretty s)) = 2%nat.
Proof.
  intros Hs.
  assert (H : forallb (fun s => Nat.eqb (String.length (padStart 2 "0" (pretty s))) 2)
                (seqZ 0 60) = true) by (vm_compute; reflexivity).
  rewrite forallb_forall in H. apply Nat.eqb_eq, H.
  apply list_elem_of_In, elem_of_seqZ. lia.
Qed.

Lemma updateGameStateUI_status_deathmatch now lobby d h :
  Lobby.state lobby = GAME_PHASE.PLAYING ->
  HudData.gameMode d = GAME_MODE.DEATHMATCH ->
  statusText (updateGameStateUI now lobby (Some d) h) = clockText (Some d).
Proof.
  intros Hp Hm. unfold updateGameStateUI. rewrite Hp.
  rewrite (decide_False (P := GAME_PHASE.PLAYING = GAME_PHASE.WAITING)) by done.
  rewrite (decide_False (P := GAME_PHASE.PLAYING = GAME_PHASE.COUNTDOWN)) by done.
  rewrite (decide_True (P := GAME_PHASE.PLAYING = GAME_PHASE.PLAYING)) by done.
  cbn [statusText]. rewrite decide_True; [reflexivity|]. cbn. by rewrite Hm.
Qed.

Lemma updateGameStateUI_status_ended now lobby gd h :
  Lobby.state lobby = GAME_PHASE.ENDED ->
  statusText (updateGameStateUI now lobby gd h)
  = match List.find (fun p => bool_decide (Some (Player.socketId p) = (gd ≫= HudData.winnerId)))
            (Lobby.players lobby) with
    | Some w => Player.name w +:+ " wins!"
    | None => "Game Over!"
    end.
Proof.
  intros Hp. unfold updateGameStateUI. rewrite Hp.
  rewrite (decide_False (P := GAME_PHASE.ENDED = GAME_PHASE.WAITING)) by done.
  rewrite (decide_False (P := GAME_PHASE.ENDED = GAME_PHASE.COUNTDOWN)) by done.
  rewrite (decide_False (P := GAME_PHASE.ENDED = GAME_PHASE.PLAYING)) by done.
  rewrite (decide_True (P := GAME_PHASE.ENDED = GAME_PHASE.ENDED)) by done.
  reflexivity.
Qed.

Lemma find_by_id_listed (wid : option string) (players : list Player.t) (w : Player.t) :
  NoDup (Player.socketId <$> players) ->
  w ∈ players ->
  wid = Some (Player.socketId w) ->
  List.find (fun p => bool_decide (Some (Player.socketId p) = wid)) players = Some w.
Proof.
  intros Hnd Hin ->. induction players as [|p rest IH]; [by apply elem_of_nil in Hin|].
  rewrite fmap_cons in Hnd. apply NoDup_cons in Hnd as [Hnotin Hnd].
  cbn [List.find]. apply elem_of_cons in Hin as [->|Hin].
  - by rewrite bool_decide_eq_true_2.
  - rewrite bool_decide_eq_false_2; [by apply IH|].
    intros [= E]. apply Hnotin. rewrite E. by apply list_elem_of_fmap_2.
Qed.

Lemma find_by_id_unlisted (wid : option string) (players : list Player.t) :
  (forall p, p ∈ players -> Some (Player.socketId p) <> wid) ->
  List.find (fun p => bool_decide (Some (Player.socketId p) = wid)) players = None.
Proof.
  intros H. induction players as [|p rest IH]; [reflexivity|].
  cbn [List.find]. rewrite bool_decide_eq_false_2.
  - apply IH. intros q Hq. apply H. apply elem_of_cons. by right.
  - apply H. apply elem_of_cons. by left.
Qed.

End HudStatusFacts.

(** X26: the deathmatch clock reads minutes, a colon and two digits of
    seconds.  In the playing phase of a deathmatch with a remaining time
    that is not negative, the status line is "Time: m:ss" where [m] and [s]
    are the whole minutes and the whole seconds below 60 of the remaining
    time, rounded down, and the seconds are padded with a zero to exactly
    two characters. *)
Theorem deathmatch_clock_shows_minutes_and_seconds :
  forall (now : Z) (lobby : Lobby.t) (d : HudData.t) (h : Hud.t),
    Lobby.state lobby = GAME_PHASE.PLAYING ->
    HudData.gameMode d = GAME_MODE.DEATHMATCH ->
    0 <= HudData.timeRemaining d ->
    exists m s : Z,
      0 <= m /\ 0 <= s < 60
      /\ 60000 * m + 1000 * s <= HudData.timeRemaining d < 60000 * m + 1000 * s + 1000
      /\ Hud.statusText (Hud.updateGameStateUI now lobby (Some d) h)
         = "Time: " +:+ pretty m +:+ ":" +:+ padStart 2 "0" (pretty s)
      /\ String.length (padStart 2 "0" (pretty s)) = 2%nat.
Proof.
  intros now lobby d h Hp Hm Hpos.
  exists (HudData.timeRemaining d / 60000),
         (Z.rem (HudData.timeRemaining d) 60000 / 1000).
  rewrite (updateGameStateUI_status_deathmatch now lobby d h Hp Hm).
  unfold Hud.clockText.
  change (default 0 (HudData.timeRemaining <$> Some d)) with (HudData.timeRemaining d).
  cbv zeta. rewrite !Z.rem_mod_nonneg by lia.
  set (tr := HudData.timeRemaining d) in *.
  assert (Hm0 : 0 <= tr / 60000) by (apply Z.div_pos; lia).
  assert (Hs : 0 <= tr mod 60000 / 1000 < 60).
  { pose proof (Z.mod_pos_bound tr 60000 ltac:(lia)). split.
    - apply Z.div_pos; lia.
    - apply Z.div_lt_upper_bound; lia. }
  split; [exact Hm0|]. split; [exact Hs|]. split.
  - Z.div_mod_to_equations. lia.
  - split; [reflexivity | by apply padStart_two_digits].
Qed.

Lemma deathmatch_clock_shows_minutes_and_seconds_witness :
  exists m s : Z,
    0 <= m /\ 0 <= s < 60
    /\ 60000 * m + 1000 * s <= 65400 < 60000 * m + 1000 * s + 1000
    /\ Hud.statusText
         (Hud.updateGameStateUI 5000 (Lobby.mk [Sample.alice] GAME_PHASE.PLAYING None None)
            (Some (HudData.mk 0 65400 GAME_MODE.DEATHMATCH None)) Hud.create)
       = "Time: " +:+ pretty m +:+ ":" +:+ padStart 2 "0" (pretty s)
    /\ String.length (padStart 2 "0" (pretty s)) = 2%nat.
Proof.
  assert (H0 : 0 <= HudData.timeRemaining (HudData.mk 0 65400 GAME_MODE.DEATHMATCH None))
    by (cbn; lia).
  exact (deathmatch_clock_shows_minutes_and_seconds 5000
           (Lobby.mk [Sample.alice] GAME_PHASE.PLAYING None None)
           (HudData.mk 0 65400 GAME_MODE.DEATHMATCH None) Hud.create eq_refl eq_refl H0).
Defined.

(** X27: the end-of-game banner names the winner only if the winner is
    listed.  In the ended phase the countdown text reads "GAME OVER"; with
    pairwise distinct player ids, the status line is "<name> wins!" when the
    winner id of the game data is the id of a listed player, and
    "Game Over!" when no listed player has that id, which includes a missing
    winner id and missing game data. *)
Theorem game_over_banner_names_listed_winner :
  forall (now : Z) (lobby : Lobby.t) (gameData : option HudData.t) (h : Hud.t),
    Lobby.state lobby = GAME_PHASE.ENDED ->
    NoDup (Player.socketId <$> Lobby.players lobby) ->
    Hud.countdownVisible (Hud.updateGameStateUI now lobby gameData h) = true
    /\ Hud.countdownLabel (Hud.updateGameStateUI now lobby gameData h) = "GAME OVER"
    /\ (forall w, w ∈ Lobby.players lobby ->
                  gameData ≫= HudData.winnerId = Some (Player.socketId w) ->
                  Hud.statusText (Hud.updateGameStateUI now lobby gameData h)
                  = Player.name w +:+ " wins!")
    /\ ((forall p, p ∈ Lobby.players lobby ->
                   Some (Player.socketId p) <> gameData ≫= HudData.winnerId) ->
        Hud.statusText (Hud.updateGameStateUI now lobby gameData h) = "Game Over!").
Proof.
  intros now lobby gd h He Hnd.
  destruct (updateGameStateUI_ended now lobby gd h He) as (_ & Hv & Hl).
  split; [exact Hv|]. split; [exact Hl|].
  rewrite (updateGameStateUI_status_ended now lobby gd h He). split.
  - intros w Hin Hw. by rewrite (find_by_id_listed _ _ w Hnd Hin Hw).
  - intros Hnone. by rewrite (find_by_id_unlisted _ _ Hnone).
Qed.

Lemma game_over_banner_names_listed_winner_witness :
  Hud.statusText
    (Hud.updateGameStateUI 5000 (Lobby.mk [Sample.alice] GAME_PHASE.ENDED None None)
       (Some (HudData.mk 0 0 0 (Some "alice"))) Hud.create)
  = Player.name Sample.alice +:+ " wins!".
Proof.
  assert (Hnd : NoDup (Player.socketId <$>
                  Lobby.players (Lobby.mk [Sample.alice] GAME_PHASE.ENDED None None))).
  { apply NoDup_singleton. }
  apply (proj1 (proj2 (proj2 (game_over_banner_names_listed_winner 5000
           (Lobby.mk [Sample.alice] GAME_PHASE.ENDED None None)
           (Some (HudData.mk 0 0 0 (Some "alice"))) Hud.create eq_refl Hnd))) Sample.alice).
  - apply elem_of_cons. by left.
  - reflexivity.
Defined.

(** ** Tile rendering: properties *)

Section TileDrawFacts.
Import TileDraw.

Lemma render_by_index (m : TileMap.t) :
  render m
  = (fun i => drawTile (i mod GAME_CONFIG.GRID_WIDTH) (i / GAME_CONFIG.GRID_WIDTH)
                (TileMap.tileAt m i))
      <$> seqZ 0 (GAME_CONFIG.GRID_WIDTH * GAME_CONFIG.GRID_HEIGHT).
Proof. vm_compute. reflexivity. Qed.

Lemma render_lookup (m : TileMap.t) (i : Z) :
  0 <= i < GAME_CONFIG.GRID_WIDTH * GAME_CONFIG.GRID_HEIGHT ->
  render m !! Z.to_nat i
  = Some (drawTile (i mod GAME_CONFIG.GRID_WIDTH) (i / GAME_CONFIG.GRID_WIDTH)
            (TileMap.tileAt m i)).
Proof.
  intros Hi. rewrite render_by_index, list_lookup_fmap.
  rewrite (lookup_seqZ_lt _ _ (Z.to_nat i)) by lia.
  cbn [fmap option_fmap option_map]. by rewrite Z2Nat.id, Z.add_0_l by lia.
Qed.

Lemma inGrid_spec gx gy :
  TileMap.inGrid gx gy = true
  <-> 0 <= gx < GAME_CONFIG.GRID_WIDTH /\ 0 <= gy < GAME_CONFIG.GRID_HEIGHT.
Proof.
  unfold TileMap.inGrid. rewrite !andb_true_iff, !Z.leb_le, !Z.ltb_lt. lia.
Qed.

Lemma cell_index gx gy :
  TileMap.inGrid gx gy = true ->
  let i := gy * GAME_CONFIG.GRID_WIDTH + gx in
  0 <= i < GAME_CONFIG.GRID_WIDTH * GAME_CONFIG.GRID_HEIGHT
  /\ i mod GAME_CONFIG.GRID_WIDTH = gx /\ i / GAME_CONFIG.GRID_WIDTH = gy.
Proof.
  intros H i. apply inGrid_spec in H. unfold GAME_CONFIG.GRID_WIDTH, GAME_CONFIG.GRID_HEIGHT in *.
  subst i. split; [lia|]. split.
  - rewrite Z.add_comm, Z.mod_add by lia. apply Z.mod_small. lia.
  - rewrite Z.add_comm, Z.div_add by lia. rewrite Z.div_small by lia. lia.
Qed.

End TileDrawFacts.

Section TileOverlayFacts.
Import TileDraw.



End TileOverlayFacts.

(** X28: a render draws every cell of the 19 x 15 grid once, row by row,
    and nothing else.  The drawing list has 285 entries; the entry of cell
    [(gridX, gridY)] sits at position [gridY * 19 + gridX] and shows the
    tile stored at that index; a cell whose index is beyond the end of the
    tile array is drawn as bare floor; and two tile arrays that agree on
    their first 285 entries render alike, so surplus entries are ignored. *)
Theorem render_draws_every_cell_once :
  forall (m : TileMap.t),
    length (TileDraw.render m) = 285%nat
    /\ (forall gridX gridY,
          TileMap.inGrid gridX gridY = true ->
          TileDraw.render m !! Z.to_nat (gridY * GAME_CONFIG.GRID_WIDTH + gridX)
          = Some (TileDraw.drawTile gridX gridY
                    (TileMap.tileAt m (gridY * GAME_CONFIG.GRID_WIDTH + gridX))))
    /\ (forall gridX gridY,
          TileMap.inGrid gridX gridY = true ->
          Z.of_nat (length (TileMap.tiles m)) <= gridY * GAME_CONFIG.GRID_WIDTH + gridX ->
          TileDraw.render m !! Z.to_nat (gridY * GAME_CONFIG.GRID_WIDTH + gridX)
          = Some (TileDraw.drawTile gridX gridY TILE.EMPTY)
          /\ TileDraw.overlay (TileDraw.drawTile gridX gridY TILE.EMPTY) = None)
    /\ (forall m' : TileMap.t,
          take 285 (TileMap.tiles m') = take 285 (TileMap.tiles m) ->
          TileDraw.render m' = TileDraw.render m).
Proof.
  intros m.
  assert (Hcell : forall gx gy,
            TileMap.inGrid gx gy = true ->
            TileDraw.render m !! Z.to_nat (gy * GAME_CONFIG.GRID_WIDTH + gx)
            = Some (TileDraw.drawTile gx gy
                      (TileMap.tileAt m (gy * GAME_CONFIG.GRID_WIDTH + gx)))).
  { intros gx gy Hin. destruct (cell_index gx gy Hin) as (Hi & Hx & Hy).
    rewrite render_lookup by exact Hi. by rewrite Hx, Hy. }
  split; [|split; [exact Hcell|split]].
  - rewrite render_by_index, length_fmap, length_seqZ. reflexivity.
  - intros gx gy Hin Hlen. rewrite (Hcell gx gy Hin). split; [|reflexivity].
    destruct (cell_index gx gy Hin) as (Hi & _).
    unfold TileMap.tileAt.
    replace (0 <=? gy * GAME_CONFIG.GRID_WIDTH + gx) with true
      by (symmetry; apply Z.leb_le; lia).
    rewrite (lookup_ge_None_2 (TileMap.tiles m)) by lia. reflexivity.
  - intros m' Htake. rewrite !render_by_index.
    apply list_eq. intros n. rewrite !list_lookup_fmap.
    destruct (seqZ 0 (GAME_CONFIG.GRID_WIDTH * GAME_CONFIG.GRID_HEIGHT) !! n) as [i|] eqn:Hn;
      [|reflexivity].
    apply lookup_seqZ in Hn as [-> Hn]. cbn [fmap option_fmap option_map].
    do 2 f_equal. unfold TileMap.tileAt.
    replace (0 <=? 0 + Z.of_nat n) with true by (symmetry; apply Z.leb_le; lia).
    replace (Z.to_nat (0 + Z.of_nat n)) with n by lia.
    assert (Hn' : (n < 285)%nat) by (unfold GAME_CONFIG.GRID_WIDTH, GAME_CONFIG.GRID_HEIGHT in Hn; lia).
    rewrite <- (lookup_take_lt (TileMap.tiles m') 285 n Hn').
    rewrite <- (lookup_take_lt (TileMap.tiles m) 285 n Hn').
    by rewrite Htake.
Qed.

Lemma render_draws_every_cell_once_witness :
  TileDraw.render (TileMap.setTiles [1; 1; 2] TileMap.create) !! Z.to_nat (0 * GAME_CONFIG.GRID_WIDTH + 2)
  = Some (TileDraw.drawTile 2 0
            (TileMap.tileAt (TileMap.setTiles [1; 1; 2] TileMap.create)
               (0 * GAME_CONFIG.GRID_WIDTH + 2))).
Proof.
  exact (proj1 (proj2 (render_draws_every_cell_once (TileMap.setTiles [1; 1; 2] TileMap.create)))
           2 0 eq_refl).
Defined.


(** X30: an accepted tile update redraws the map with one cell changed.  For
    a cell inside the grid whose index is within the tile array, the
    drawing list after [updateTile] is the one before with the entry of that
    cell replaced by the drawing of the new tile; the stored tile reads back
    as written and the array keeps its length. *)
Theorem updateTile_redraws_one_cell :
  forall (gridX gridY tileType : Z) (m : TileMap.t),
    TileMap.inGrid gridX gridY = true ->
    gridY * GAME_CONFIG.GRID_WIDTH + gridX < Z.of_nat (length (TileMap.tiles m)) ->
    TileDraw.render (TileMap.updateTile gridX gridY tileType m)
    = <[Z.to_nat (gridY * GAME_CONFIG.GRID_WIDTH + gridX)
        := TileDraw.drawTile gridX gridY tileType]> (TileDraw.render m)
    /\ TileMap.tileAt (TileMap.updateTile gridX gridY tileType m)
         (gridY * GAME_CONFIG.GRID_WIDTH + gridX) = tileType
    /\ length (TileMap.tiles (TileMap.updateTile gridX gridY tileType m))
       = length (TileMap.tiles m).
Proof.
  intros gx gy ty m Hin Hlen.
  destruct (cell_index gx gy Hin) as (Hi & Hx & Hy).
  set (index := gy * GAME_CONFIG.GRID_WIDTH + gx) in *.
  destruct (updateTile_in_range gx gy ty m) as [Hat Hother]; [fold index; lia|].
  fold index in Hat, Hother.
  split; [|split; [exact Hat | apply updateTile_length]].
  apply list_eq. intros n.
  assert (Hlen285 : forall m0, length (TileDraw.render m0) = 285%nat).
  { intros m0. rewrite render_by_index, length_fmap, length_seqZ. reflexivity. }
  destruct (decide (n < 285)%nat) as [Hn|Hn].
  - assert (Hrange : 0 <= Z.of_nat n < GAME_CONFIG.GRID_WIDTH * GAME_CONFIG.GRID_HEIGHT)
      by (unfold GAME_CONFIG.GRID_WIDTH, GAME_CONFIG.GRID_HEIGHT; lia).
    pose proof (render_lookup (TileMap.updateTile gx gy ty m) _ Hrange) as Hl.
    pose proof (render_lookup m _ Hrange) as Hr.
    rewrite Nat2Z.id in Hl, Hr. rewrite Hl.
    destruct (decide (Z.to_nat index = n)) as [E|E].
    + subst n. rewrite list_lookup_insert_eq by (rewrite Hlen285; lia).
      rewrite Z2Nat.id by lia. by rewrite Hx, Hy, Hat.
    + rewrite list_lookup_insert_ne by exact E. rewrite Hr.
      rewrite Hother; [reflexivity|]. lia.
  - rewrite !lookup_ge_None_2; [reflexivity| |].
    + rewrite length_insert, Hlen285. lia.
    + rewrite Hlen285. lia.
Qed.

Lemma updateTile_redraws_one_cell_witness :
  TileMap.tileAt (TileMap.updateTile 2 1 TILE.SOFT_BLOCK TileMap.emptyArena)
    (1 * GAME_CONFIG.GRID_WIDTH + 2) = TILE.SOFT_BLOCK.
Proof.
  assert (Hlen : 1 * GAME_CONFIG.GRID_WIDTH + 2
                 < Z.of_nat (length (TileMap.tiles TileMap.emptyArena)))
    by (vm_compute; reflexivity).
  exact (proj1 (proj2 (updateTile_redraws_one_cell 2 1 TILE.SOFT_BLOCK TileMap.emptyArena
                         eq_refl Hlen))).
Defined.
